(** * Tank calibration engine: parsing, interpolation and validation

    A shallow embedding of [services/dataProcessor.ts] (with the data types
    of [types.ts] and the manual-entry handler of the application shell),
    of the export service, of the data table, of the wizard navigation and
    of the manual entry form, followed by the properties of its
    specification and of the code.

    Conventions of the embedding.
    - A JavaScript [number] is [NaN], one of the two infinities, or a finite
      value carried as an exact rational: rounding and overflow of IEEE
      doubles and the sign of zero are abstracted away, every other rule of
      the arithmetic and of the comparisons on the special values is kept.
      Where a property orders two computed values, it is stated for the
      cases in which rounding to nearest cannot change the order.
    - A string is a [string] of 8-bit code units.
    - An optional field ([fieldVolume?], [deviation?]) is an [option];
      [None] stands for [undefined] (and [null]).
    - A function that can [throw] returns a [Result]; arrays are lists. *)

From Stdlib Require Import ZArith QArith Qfield List String Ascii Bool Lia Lqa.
From Stdlib Require Import Permutation Sorted.
Import ListNotations.

Set Implicit Arguments.

(* ================================================================== *)
(** ** JavaScript numbers *)
(* ================================================================== *)

Module JS.

Inductive number : Type :=
| NaN
| NegInf
| Fin (q : Q)
| PosInf.

Definition zero : number := Fin 0.

Definition isNaN (a : number) : bool :=
  match a with NaN => true | _ => false end.

Definition isFinite (a : number) : bool :=
  match a with Fin _ => true | _ => false end.

Definition Qlt_bool (x y : Q) : bool := negb (Qle_bool y x).

(** Sign of a rational: [Lt], [Eq] or [Gt] compared with zero. *)
Definition Qsign (q : Q) : comparison := (Qnum q ?= 0)%Z.

Definition neg (a : number) : number :=
  match a with
  | NaN => NaN
  | NegInf => PosInf
  | PosInf => NegInf
  | Fin q => Fin (- q)
  end.

Definition add (a b : number) : number :=
  match a, b with
  | NaN, _ | _, NaN => NaN
  | Fin x, Fin y => Fin (x + y)
  | PosInf, NegInf | NegInf, PosInf => NaN
  | PosInf, _ | _, PosInf => PosInf
  | NegInf, _ | _, NegInf => NegInf
  end.

Definition sub (a b : number) : number :=
  match a, b with
  | NaN, _ | _, NaN => NaN
  | Fin x, Fin y => Fin (x - y)
  | PosInf, PosInf | NegInf, NegInf => NaN
  | PosInf, _ | _, NegInf => PosInf
  | NegInf, _ | _, PosInf => NegInf
  end.

(** An infinity of the sign of [s], or [NaN] for a zero [s]. *)
Definition inf_of_sign (s : comparison) : number :=
  match s with Gt => PosInf | Lt => NegInf | Eq => NaN end.

Definition sign_of (a : number) : comparison :=
  match a with
  | NaN => Eq
  | NegInf => Lt
  | PosInf => Gt
  | Fin q => Qsign q
  end.

Definition sign_mul (s t : comparison) : comparison :=
  match s, t with
  | Eq, _ | _, Eq => Eq
  | Gt, Gt | Lt, Lt => Gt
  | _, _ => Lt
  end.

Definition mul (a b : number) : number :=
  match a, b with
  | NaN, _ | _, NaN => NaN
  | Fin x, Fin y => Fin (x * y)
  | _, _ => inf_of_sign (sign_mul (sign_of a) (sign_of b))
  end.

(** Division. A finite non-zero value over zero is an infinity of the sign
    of the numerator (the zero is taken as [+0]). *)
Definition div (a b : number) : number :=
  match a, b with
  | NaN, _ | _, NaN => NaN
  | Fin x, Fin y =>
      if Qeq_bool y 0 then inf_of_sign (Qsign x) else Fin (x / y)
  | Fin _, _ => Fin 0
  | _, Fin y =>
      match Qsign y with
      | Lt => neg a
      | _ => a
      end
  | _, _ => NaN
  end.

(** [a < b], [a <= b], [a > b], [a >= b]: false as soon as a side is NaN. *)
Definition ltb (a b : number) : bool :=
  match a, b with
  | NaN, _ | _, NaN => false
  | Fin x, Fin y => Qlt_bool x y
  | NegInf, NegInf | PosInf, PosInf => false
  | NegInf, _ | _, PosInf => true
  | _, _ => false
  end.

Definition leb (a b : number) : bool :=
  match a, b with
  | NaN, _ | _, NaN => false
  | Fin x, Fin y => Qle_bool x y
  | NegInf, _ | _, PosInf => true
  | _, _ => false
  end.

Definition gtb (a b : number) : bool := ltb b a.
Definition geb (a b : number) : bool := leb b a.

(** [a === b] on numbers. *)
Definition seq (a b : number) : bool :=
  match a, b with
  | Fin x, Fin y => Qeq_bool x y
  | NegInf, NegInf | PosInf, PosInf => true
  | _, _ => false
  end.

(** ToBoolean on a number: [NaN] and zero are falsy. *)
Definition truthy (a : number) : bool :=
  match a with
  | NaN => false
  | Fin q => negb (Qeq_bool q 0)
  | _ => true
  end.

(** [a || b] on numbers. *)
Definition or (a b : number) : number := if truthy a then a else b.

(** The same mathematical value (unlike [seq], NaN is the same as NaN). *)
Definition same (a b : number) : Prop :=
  match a, b with
  | NaN, NaN | NegInf, NegInf | PosInf, PosInf => True
  | Fin x, Fin y => x == y
  | _, _ => False
  end.

Definition of_nat (n : nat) : number := Fin (inject_Z (Z.of_nat n)).
Definition of_Z (z : Z) : number := Fin (inject_Z z).

End JS.

Declare Scope js_scope.
Delimit Scope js_scope with js.
Bind Scope js_scope with JS.number.
Infix "+" := JS.add : js_scope.
Infix "-" := JS.sub : js_scope.
Infix "*" := JS.mul : js_scope.
Infix "/" := JS.div : js_scope.
Infix "<?" := JS.ltb : js_scope.
Infix "<=?" := JS.leb : js_scope.
Infix ">?" := JS.gtb : js_scope.
Infix ">=?" := JS.geb : js_scope.
Infix "===" := JS.seq (at level 70, no associativity) : js_scope.

(* ================================================================== *)
(** ** JavaScript strings *)
(* ================================================================== *)

Module Str.

Local Open Scope string_scope.
Local Open Scope nat_scope.

Definition LF : ascii := ascii_of_nat 10.
Definition CR : ascii := ascii_of_nat 13.

(** White space and line terminators among the 8-bit code units: the
    characters that [trim], the regular expression class [\s] and
    [parseFloat] skip. *)
Definition isWhiteSpace (c : ascii) : bool :=
  let n := nat_of_ascii c in
  ((9 <=? n) && (n <=? 13)) || (n =? 32) || (n =? 160).

Definition isDigit (c : ascii) : bool :=
  let n := nat_of_ascii c in (48 <=? n) && (n <=? 57).

Definition digitValue (c : ascii) : Z := Z.of_nat (nat_of_ascii c - 48).

Definition isEmpty (s : string) : bool :=
  match s with EmptyString => true | _ => false end.

Definition startsWith (p : ascii -> bool) (s : string) : bool :=
  match s with EmptyString => false | String c _ => p c end.

Fixpoint trimStart (s : string) : string :=
  match s with
  | EmptyString => EmptyString
  | String c s' => if isWhiteSpace c then trimStart s' else s
  end.

Fixpoint trimEnd (s : string) : string :=
  match s with
  | EmptyString => EmptyString
  | String c s' =>
      let t := trimEnd s' in
      if isWhiteSpace c && isEmpty t then EmptyString else String c t
  end.

Definition trim (s : string) : string := trimEnd (trimStart s).

(** Puts [c] in front of the first piece of a split. *)
Definition consHead (c : ascii) (pieces : list string) : list string :=
  match pieces with
  | [] => [String c EmptyString]
  | w :: ws => String c w :: ws
  end.

(** [s.split(d)] for a one-character separator [d]. *)
Fixpoint splitChar (d : ascii) (s : string) : list string :=
  match s with
  | EmptyString => [EmptyString]
  | String c s' =>
      if Ascii.eqb c d then EmptyString :: splitChar d s'
      else consHead c (splitChar d s')
  end.

(** [s.split(/\r?\n/)]. *)
Fixpoint splitLines (s : string) : list string :=
  match s with
  | EmptyString => [EmptyString]
  | String c s' =>
      if Ascii.eqb c LF then EmptyString :: splitLines s'
      else if Ascii.eqb c CR && startsWith (Ascii.eqb LF) s' then splitLines s'
      else consHead c (splitLines s')
  end.

(** [s.split(/\s+/)]. *)
Fixpoint splitWs (s : string) : list string :=
  match s with
  | EmptyString => [EmptyString]
  | String c s' =>
      if isWhiteSpace c then
        if startsWith isWhiteSpace s' then splitWs s'
        else EmptyString :: splitWs s'
      else consHead c (splitWs s')
  end.

(** [s.includes(c)] for a one-character [c]. *)
Fixpoint includesChar (d : ascii) (s : string) : bool :=
  match s with
  | EmptyString => false
  | String c s' => Ascii.eqb c d || includesChar d s'
  end.

Definition upperChar (c : ascii) : ascii :=
  let n := nat_of_ascii c in
  if (97 <=? n) && (n <=? 122) then ascii_of_nat (n - 32) else c.

Definition lowerChar (c : ascii) : ascii :=
  let n := nat_of_ascii c in
  if (65 <=? n) && (n <=? 90) then ascii_of_nat (n + 32) else c.

Fixpoint mapChars (f : ascii -> ascii) (s : string) : string :=
  match s with
  | EmptyString => EmptyString
  | String c s' => String (f c) (mapChars f s')
  end.

(** [s.toUpperCase()] on the letters a to z. The other code units are
    kept: none of them becomes a character of the table sentinel. *)
Definition toUpperCase : string -> string := mapChars upperChar.
Definition toLowerCase : string -> string := mapChars lowerChar.

(** [pat] occurs in [s] at some position. *)
Fixpoint includes (pat s : string) : bool :=
  String.prefix pat s ||
  match s with
  | EmptyString => false
  | String _ s' => includes pat s'
  end.

(** [/w1|w2|.../i.test(s)] for literal lower-case alternatives. *)
Definition testAnyCI (alternatives : list string) (s : string) : bool :=
  let low := toLowerCase s in
  existsb (fun w => includes w low) alternatives.

(** *** Numeric literals *)

(** The leading run of decimal digits of [s]: its value continuing from
    [acc], its length, and what follows it. *)
Fixpoint spanDigits (s : string) (acc : Z) (n : nat) : Z * nat * string :=
  match s with
  | EmptyString => (acc, n, s)
  | String c s' =>
      if isDigit c then spanDigits s' (10 * acc + digitValue c)%Z (S n)
      else (acc, n, s)
  end.

(** [m * 10^e] as a reduced fraction. *)
Definition scale10 (m e : Z) : Q :=
  if (0 <=? e)%Z then Qred (inject_Z (m * 10 ^ e))
  else Qred (Qmake m (Z.to_pos (10 ^ (- e)))).

(** The exponent part at the head of [s], if it is well formed:
    [e] or [E], an optional sign and at least one digit. *)
Definition spanExponent (s : string) : Z * string :=
  match s with
  | String c s1 =>
      if Ascii.eqb c "e"%char || Ascii.eqb c "E"%char then
        let '(negative, s2) :=
          match s1 with
          | String "+"%char r => (false, r)
          | String "-"%char r => (true, r)
          | _ => (false, s1)
          end in
        let '(v, n, rest) := spanDigits s2 0%Z 0%nat in
        match n with
        | O => (0%Z, s)
        | _ => ((if negative then - v else v)%Z, rest)
        end
      else (0%Z, s)
  | EmptyString => (0%Z, s)
  end.

(** The longest prefix of [s] that is an unsigned decimal literal
    ([Infinity], digits with an optional fraction and exponent, or a
    fraction starting with the point), with the text after it. *)
Definition spanUnsignedDecimal (s : string) : option (JS.number * string) :=
  if String.prefix "Infinity" s then
    Some (JS.PosInf, String.substring 8 (String.length s - 8) s)
  else
    let '(vi, ni, s1) := spanDigits s 0%Z 0%nat in
    let '(vf, nf, s2) :=
      match s1 with
      | String "."%char r =>
          let '(v, n, r') := spanDigits r vi 0%nat in
          match ni, n with
          | O, O => (vi, 0%nat, s1)
          | _, _ => (v, n, r')
          end
      | _ => (vi, 0%nat, s1)
      end in
    match ni, nf with
    | O, O => None
    | _, _ =>
        let '(e, rest) := spanExponent s2 in
        Some (JS.Fin (scale10 vf (e - Z.of_nat nf)), rest)
    end.

(** The same with an optional sign in front. *)
Definition spanDecimal (s : string) : option (JS.number * string) :=
  match s with
  | String "+"%char r => spanUnsignedDecimal r
  | String "-"%char r =>
      match spanUnsignedDecimal r with
      | Some (v, rest) => Some (JS.neg v, rest)
      | None => None
      end
  | _ => spanUnsignedDecimal s
  end.

(** [parseFloat(s)]. *)
Definition parseFloat (s : string) : JS.number :=
  match spanDecimal (trimStart s) with
  | Some (v, _) => v
  | None => JS.NaN
  end.

(** Digits of a literal in base 2, 8 or 16. *)
Definition digitInBase (base : Z) (c : ascii) : option Z :=
  let n := nat_of_ascii (lowerChar c) in
  let v :=
    if (48 <=? n) && (n <=? 57) then Some (Z.of_nat (n - 48))
    else if (97 <=? n) && (n <=? 102) then Some (Z.of_nat (n - 87))
    else None in
  match v with
  | Some d => if (d <? base)%Z then Some d else None
  | None => None
  end.

Fixpoint digitsInBase (base : Z) (s : string) (acc : Z) : option Z :=
  match s with
  | EmptyString => Some acc
  | String c s' =>
      match digitInBase base c with
      | Some d => digitsInBase base s' (base * acc + d)%Z
      | None => None
      end
  end.

(** A whole literal [0x...], [0o...] or [0b...] (either case). *)
Definition nonDecimalLiteral (s : string) : option JS.number :=
  match s with
  | String "0"%char (String k (String c r)) =>
      let body := String c r in
      let base :=
        match lowerChar k with
        | "x"%char => Some 16%Z
        | "o"%char => Some 8%Z
        | "b"%char => Some 2%Z
        | _ => None
        end in
      match base with
      | Some b =>
          match digitsInBase b body 0%Z with
          | Some v => Some (JS.of_Z v)
          | None => None
          end
      | None => None
      end
  | _ => None
  end.

(** [Number(s)] on a string: the whole trimmed text must be a numeric
    literal; the empty text is zero. *)
Definition toNumber (s : string) : JS.number :=
  let t := trim s in
  if isEmpty t then JS.zero
  else
    match nonDecimalLiteral t with
    | Some v => v
    | None =>
        match spanDecimal t with
        | Some (v, EmptyString) => v
        | _ => JS.NaN
        end
    end.

End Str.

(* ================================================================== *)
(** ** Failures *)
(* ================================================================== *)

(** The errors the engine throws, one constructor per message of the
    source (named after what the message says). *)
Inductive Error : Type :=
| FileContentEmpty            (* File content is empty. *)
| FusionNeedsHeaderAndRow     (* Fusion ATG file must have a header and at least one data row. *)
| CsvNeedsDataRow             (* CSV file must have at least one data row. *)
| NoDataRowsFound             (* No data rows found in the file. *)
| ColumnsNotDetected          (* Could not automatically detect Height and Volume columns. *)
| NoValidNumericData          (* No valid numeric data found. *)
| ValidationColumnsMissing    (* Validation file must have Height and Volume columns. *)
| NoValidValidationPoints     (* No valid validation data points found in the file. *)
| DeliveryColumnsMissing      (* Delivery validation file must have Height and Fuel Delivery columns. *)
| DeliveryNeedsTwoPoints      (* Delivery validation requires at least two data points. *)
| ValidationTypeUnknown       (* Could not determine validation file type. *)
| TypeError.                  (* a property read on undefined *)

Inductive Result (A : Type) : Type :=
| Ok (a : A)
| Err (e : Error).

Arguments Ok {A} a.
Arguments Err {A} e.

Definition bind {A B : Type} (r : Result A) (k : A -> Result B) : Result B :=
  match r with
  | Ok a => k a
  | Err e => Err e
  end.

Notation "x <- r ;; k" := (bind r (fun x => k))
  (at level 61, r at next level, right associativity).

Definition failed {A : Type} (r : Result A) : Prop := exists e, r = Err e.
Definition succeeded {A : Type} (r : Result A) : Prop := exists a, r = Ok a.

(* ================================================================== *)
(** ** Data model ([types.ts]) *)
(* ================================================================== *)

Record ProcessedData : Type := {
  height : JS.number;
  chartVolume : JS.number;
  fieldVolume : option JS.number;
  deviation : option JS.number
}.

Record DeviationPoint : Type := {
  dp_height : JS.number;
  dp_value : JS.number
}.

Record ValidationStats : Type := {
  totalMeasurements : nat;
  averageDeviation : JS.number;
  maxDeviation : DeviationPoint;
  minDeviation : DeviationPoint
}.

Record DeliveryValidationData : Type := {
  heightBefore : JS.number;
  heightAfter : JS.number;
  reportedDelivery : JS.number;
  chartCalculatedDelivery : JS.number;
  dv_deviation : JS.number
}.

(** A dip reading of a delivery sequence: [{ height, delivery }]. *)
Record DeliveryPoint : Type := {
  pt_height : JS.number;
  pt_delivery : JS.number
}.

Inductive ColumnOrder : Type := HeightVolume | VolumeHeight.

(** The part of [ReportConfig] that the ingest fills in. *)
Record InitialConfig : Type := {
  cfg_heightHeader : string;
  cfg_volumeHeader : string;
  cfg_columnOrder : ColumnOrder;
  cfg_decimalPlaces : nat
}.

(** A parsed cell: [string | number]. *)
Inductive Cell : Type :=
| CNum (n : JS.number)
| CStr (s : string).

Record ParsedFile : Type := {
  headers : list string;
  data : list (list Cell)
}.

Record HeaderMapping : Type := {
  heightHeader : string;
  volumeHeader : option string;
  fieldVolumeHeader : option string;
  deliveryHeader : option string
}.

(* ================================================================== *)
(** ** Dialect parser: [parseFileContent] *)
(* ================================================================== *)

Local Open Scope string_scope.

Definition sentinel : string := "[FUSION_ATG_TANK_TABLE]".

(** The conversion of one field: a number when [parseFloat] of the
    trimmed text is one, the trimmed text otherwise. *)
Definition parseCell (field : string) : Cell :=
  let num := Str.parseFloat (Str.trim field) in
  if JS.isNaN num then CStr (Str.trim field) else CNum num.

(** [lines[0]]: the split of a text is never empty. *)
Definition firstLine (lines : list string) : string := nth 0 lines "".

Definition isTaggedTable (lines : list string) : bool :=
  String.eqb (Str.toUpperCase (Str.trim (firstLine lines))) sentinel.

Definition detectDelimiter (lines : list string) : ascii :=
  if Str.includesChar ";" (firstLine lines) then ";"%char else ","%char.

Definition firstLineIsHeader (lines : list string) : bool :=
  existsb (fun field => JS.isNaN (Str.parseFloat (Str.trim field)))
          (Str.splitChar (detectDelimiter lines) (firstLine lines)).

Definition parseFileContent (text : string) : Result ParsedFile :=
  let trimmedText := Str.trim text in
  if Str.isEmpty trimmedText then Err FileContentEmpty
  else
    let lines := Str.splitLines trimmedText in
    if isTaggedTable lines then
      if (List.length lines <? 3)%nat then Err FusionNeedsHeaderAndRow
      else
        let headerLine := nth 1 lines "" in
        let dataLines := skipn 2 lines in
        Ok {| headers := map Str.trim (Str.splitWs headerLine);
              data := map (fun line => map parseCell (Str.splitWs (Str.trim line)))
                          dataLines |}
    else
      let delimiter := detectDelimiter lines in
      if firstLineIsHeader lines then
        if (List.length lines <? 2)%nat then Err CsvNeedsDataRow
        else
          Ok {| headers := map Str.trim (Str.splitChar delimiter (firstLine lines));
                data := map (fun line => map parseCell (Str.splitChar delimiter line))
                            (skipn 1 lines) |}
      else
        let rows :=
          map (fun line => map parseCell (firstn 2 (Str.splitChar delimiter line)))
              lines in
        if (List.length rows =? 0)%nat then Err NoDataRowsFound
        else Ok {| headers := ["Height"; "Volume"]; data := rows |}.

(* ================================================================== *)
(** ** Header mapper: [findHeaders] *)
(* ================================================================== *)

Definition heightRegex : string -> bool :=
  Str.testAnyCI ["height"; "depth"; "level"; "dip"].
Definition volumeRegex : string -> bool :=
  Str.testAnyCI ["volume"; "capacity"; "liters"; "gallons"; "ltrs"].
Definition fieldVolumeRegex : string -> bool :=
  Str.testAnyCI ["field"; "actual"; "measured"; "site"].
Definition deliveryRegex : string -> bool :=
  Str.testAnyCI ["delivery"; "delivered"; "fuel delivery"].

(** ToBoolean on [string | undefined]: the empty string is falsy. *)
Definition truthyStr (s : option string) : bool :=
  match s with
  | Some t => negb (Str.isEmpty t)
  | None => false
  end.

(** [a || b] on [string | undefined]. *)
Definition orStr (a b : option string) : option string :=
  if truthyStr a then a else b.

Definition findHeaders (headerList : list string) : option HeaderMapping :=
  let heightH := find heightRegex headerList in
  let volumeH :=
    orStr (find (fun h => volumeRegex h && negb (fieldVolumeRegex h)) headerList)
          (find volumeRegex headerList) in
  let fieldVolumeH :=
    find (fun h => fieldVolumeRegex h && volumeRegex h) headerList in
  let deliveryH := find deliveryRegex headerList in
  match heightH with
  | Some hh =>
      if truthyStr heightH && truthyStr (orStr volumeH deliveryH) then
        Some {| heightHeader := hh;
                volumeHeader := volumeH;
                fieldVolumeHeader := fieldVolumeH;
                deliveryHeader := deliveryH |}
      else None
  | None => None
  end.

(* ================================================================== *)
(** ** Array helpers *)
(* ================================================================== *)

Section Arrays.
Variable A : Type.

(** [Array.prototype.sort(cmp)]: the stable sort, as an insertion from the
    right. An element moves past those it compares greater than, and stays
    in front of those it compares equal to (a NaN comparison counts as
    equal). This is the result of the engine for a comparison that is
    consistent on the array, as [a.height - b.height] is on heights that
    are numbers; with a NaN height the order of an engine is its own. *)
Fixpoint insertSorted (cmp : A -> A -> JS.number) (x : A) (l : list A) : list A :=
  match l with
  | [] => [x]
  | y :: ys =>
      if (cmp x y >? JS.zero)%js then y :: insertSorted cmp x ys
      else x :: y :: ys
  end.

Definition arraySort (cmp : A -> A -> JS.number) (l : list A) : list A :=
  fold_right (insertSorted cmp) [] l.

(** [l.map(f).filter(x => x !== null)]. *)
Definition filterMap (B : Type) (f : A -> option B) (l : list A) : list B :=
  flat_map (fun a => match f a with Some b => [b] | None => [] end) l.

(** A loop over indices whose body can throw. *)
Fixpoint forIndices (S : Type) (body : S -> nat -> Result S)
         (indices : list nat) (st : S) : Result S :=
  match indices with
  | [] => Ok st
  | i :: rest => st' <- body st i ;; forIndices body rest st'
  end.

End Arrays.

(** [headerList.indexOf(h)]: the first position of [h], or -1. *)
Fixpoint indexOf (h : string) (l : list string) : Z :=
  match l with
  | [] => (-1)%Z
  | x :: xs =>
      if String.eqb x h then 0%Z
      else let r := indexOf h xs in
           if (r =? -1)%Z then (-1)%Z else (r + 1)%Z
  end.

(** [row[i]]: [undefined] outside of the row. *)
Definition rowAt (row : list Cell) (i : Z) : option Cell :=
  if (i <? 0)%Z then None else nth_error row (Z.to_nat i).

(** [Number(row[i])]. *)
Definition cellNumber (c : option Cell) : JS.number :=
  match c with
  | None => JS.NaN
  | Some (CNum n) => n
  | Some (CStr t) => Str.toNumber t
  end.

(* ================================================================== *)
(** ** Statistics aggregator: [calculateStats] *)
(* ================================================================== *)

(** [d !== undefined && d !== null && !isNaN(d)]. *)
Definition isValidDeviation (d : option JS.number) : bool :=
  match d with
  | Some v => negb (JS.isNaN v)
  | None => false
  end.

(** The cast [as number[]] of the kept deviations. *)
Definition asNumbers (l : list (option JS.number)) : list JS.number :=
  filterMap (fun d => d) l.

Definition zeroPoint : DeviationPoint :=
  {| dp_height := JS.zero; dp_value := JS.zero |}.

Definition zeroStats : ValidationStats :=
  {| totalMeasurements := 0;
     averageDeviation := JS.zero;
     maxDeviation := zeroPoint;
     minDeviation := zeroPoint |}.

(** One round of the [forEach] that tracks the two extremes. *)
Definition trackExtremes (acc : DeviationPoint * DeviationPoint) (d : ProcessedData)
  : DeviationPoint * DeviationPoint :=
  let '(maxD, minD) := acc in
  match deviation d with
  | Some dev =>
      if negb (JS.isNaN dev) then
        let maxD' :=
          if (dev >? dp_value maxD)%js
          then {| dp_height := height d; dp_value := dev |} else maxD in
        let minD' :=
          if (dev <? dp_value minD)%js
          then {| dp_height := height d; dp_value := dev |} else minD in
        (maxD', minD')
      else acc
  | None => acc
  end.

Definition sumNumbers (l : list JS.number) : JS.number :=
  fold_left (fun sum dev => (sum + dev)%js) l JS.zero.

Definition calculateStats (data : list ProcessedData) : ValidationStats :=
  let validDeviations :=
    asNumbers (filter isValidDeviation (map deviation data)) in
  let total := List.length validDeviations in
  if (total =? 0)%nat then zeroStats
  else
    let average := (sumNumbers validDeviations / JS.of_nat total)%js in
    let '(maxD, minD) :=
      fold_left trackExtremes data
        ({| dp_height := JS.NegInf; dp_value := JS.NegInf |},
         {| dp_height := JS.PosInf; dp_value := JS.PosInf |}) in
    {| totalMeasurements := total;
       averageDeviation := average;
       maxDeviation := maxD;
       minDeviation := minD |}.

(* ================================================================== *)
(** ** Record normalizer and ingest: [processAndAnalyzeData] *)
(* ================================================================== *)

Record IngestOutcome : Type := {
  in_data : list ProcessedData;
  in_stats : option ValidationStats;
  in_initialConfig : InitialConfig
}.

Definition normalizeRow (heightIndex volumeIndex fieldVolumeIndex : Z)
           (row : list Cell) : option ProcessedData :=
  let h := cellNumber (rowAt row heightIndex) in
  let cv := cellNumber (rowAt row volumeIndex) in
  let fv :=
    if negb (fieldVolumeIndex =? -1)%Z
    then Some (cellNumber (rowAt row fieldVolumeIndex)) else None in
  if JS.isNaN h || JS.isNaN cv then None
  else
    let dev :=
      match fv with
      | Some f => if negb (JS.isNaN f) then Some (f - cv)%js else None
      | None => None
      end in
    Some {| height := h; chartVolume := cv; fieldVolume := fv; deviation := dev |}.

Definition processAndAnalyzeData (fileText : string) : Result IngestOutcome :=
  parsed <- parseFileContent fileText ;;
  let headerList := headers parsed in
  let rawData := data parsed in
  match findHeaders headerList with
  | None => Err ColumnsNotDetected
  | Some hm =>
      match volumeHeader hm with
      | None => Err ColumnsNotDetected
      | Some volumeH =>
          if Str.isEmpty volumeH then Err ColumnsNotDetected
          else
            let heightIndex := indexOf (heightHeader hm) headerList in
            let volumeIndex := indexOf volumeH headerList in
            let fieldVolumeIndex :=
              match fieldVolumeHeader hm with
              | Some f => if Str.isEmpty f then (-1)%Z else indexOf f headerList
              | None => (-1)%Z
              end in
            let rows :=
              filterMap (normalizeRow heightIndex volumeIndex fieldVolumeIndex)
                        rawData in
            if (List.length rows =? 0)%nat then Err NoValidNumericData
            else
              Ok {| in_data := rows;
                    in_stats :=
                      if truthyStr (fieldVolumeHeader hm)
                      then Some (calculateStats rows) else None;
                    in_initialConfig :=
                      {| cfg_heightHeader := heightHeader hm;
                         cfg_volumeHeader := volumeH;
                         cfg_columnOrder := HeightVolume;
                         cfg_decimalPlaces := 2 |} |}
      end
  end.

(* ================================================================== *)
(** ** Interpolator: [interpolate] *)
(* ================================================================== *)

(** The comparison function [(a, b) => a.height - b.height]. *)
Definition byHeight (a b : ProcessedData) : JS.number := (height a - height b)%js.

Definition sortChart (chartData : list ProcessedData) : list ProcessedData :=
  arraySort byHeight chartData.

Definition interpolate (h : JS.number) (chartData : list ProcessedData) : JS.number :=
  let sortedChart := sortChart chartData in
  let upper := find (fun p => (height p >=? h)%js) sortedChart in
  let lower := find (fun p => (height p <=? h)%js) (rev sortedChart) in
  match upper, lower with
  | Some upper, Some lower =>
      if (height upper === height lower)%js then chartVolume upper
      else
        let slope :=
          ((chartVolume upper - chartVolume lower) / (height upper - height lower))%js in
        (chartVolume lower + slope * (h - height lower))%js
  | _, _ =>
      match sortedChart with
      | first :: _ => JS.or (chartVolume first) JS.zero
      | [] => JS.zero
      end
  end.

(* ================================================================== *)
(** ** Resampler: [generateStrappingChartData] *)
(* ================================================================== *)

Definition defaultPoints : nat := 300.

Definition barePoint (h v : JS.number) : ProcessedData :=
  {| height := h; chartVolume := v; fieldVolume := None; deviation := None |}.

Definition generateStrappingChartData (chartData : list ProcessedData) (points : nat)
  : Result (list ProcessedData) :=
  if (List.length chartData <? 2)%nat then Ok chartData
  else
    let sortedChart := sortChart chartData in
    match hd_error sortedChart, nth_error sortedChart (List.length sortedChart - 1) with
    | Some first, Some final =>
        let minHeight := height first in
        let maxHeight := height final in
        let step := ((maxHeight - minHeight) / (JS.of_nat points - JS.of_nat 1))%js in
        Ok (map (fun i =>
                   let currentHeight := (minHeight + JS.of_nat i * step)%js in
                   let currentVolume := interpolate currentHeight chartData in
                   barePoint currentHeight currentVolume)
                (List.seq 0 points))
    | _, _ => Err TypeError
    end.

(* ================================================================== *)
(** ** Validation engine *)
(* ================================================================== *)

Record PointOutcome : Type := {
  po_combinedData : list ProcessedData;
  po_stats : ValidationStats
}.

Record DeliveryOutcome : Type := {
  deliveryData : list DeliveryValidationData;
  do_stats : ValidationStats
}.

Definition processPointValidation (validationFileText : string)
           (chartData : list ProcessedData) : Result PointOutcome :=
  parsed <- parseFileContent validationFileText ;;
  let headerList := headers parsed in
  let rawData := data parsed in
  match findHeaders headerList with
  | None => Err ValidationColumnsMissing
  | Some hm =>
      match volumeHeader hm with
      | None => Err ValidationColumnsMissing
      | Some volumeH =>
          if Str.isEmpty volumeH then Err ValidationColumnsMissing
          else
            let heightIndex := indexOf (heightHeader hm) headerList in
            let volumeIndex := indexOf volumeH headerList in
            let validationPoints :=
              filter (fun p => negb (JS.isNaN (fst p)) && negb (JS.isNaN (snd p)))
                     (map (fun row => (cellNumber (rowAt row heightIndex),
                                       cellNumber (rowAt row volumeIndex)))
                          rawData) in
            if (List.length validationPoints =? 0)%nat then Err NoValidValidationPoints
            else
              let combinedData :=
                map (fun vp =>
                       let cv := interpolate (fst vp) chartData in
                       {| height := fst vp;
                          chartVolume := cv;
                          fieldVolume := Some (snd vp);
                          deviation := Some (snd vp - cv)%js |})
                    validationPoints in
              Ok {| po_combinedData := combinedData;
                    po_stats := calculateStats combinedData |}
      end
  end.

(** The body of the loop over [i], from 1, of [calculateDeliveryValidation]. *)
Definition deliveryStep (deliveryPoints : list DeliveryPoint)
           (chartData : list ProcessedData)
           (acc : list DeliveryValidationData) (i : nat)
  : Result (list DeliveryValidationData) :=
  match nth_error deliveryPoints (i - 1), nth_error deliveryPoints i with
  | Some before, Some after =>
      let hBefore := pt_height before in
      let hAfter := pt_height after in
      let reported := pt_delivery after in
      if (reported === JS.zero)%js && (0 <? i)%nat then Ok acc
      else
        let volumeBefore := interpolate hBefore chartData in
        let volumeAfter := interpolate hAfter chartData in
        let chartCalculated := (volumeAfter - volumeBefore)%js in
        Ok (acc ++ [{| heightBefore := hBefore;
                       heightAfter := hAfter;
                       reportedDelivery := reported;
                       chartCalculatedDelivery := chartCalculated;
                       dv_deviation := (reported - chartCalculated)%js |}])%list
  | _, _ => Err TypeError
  end.

Definition trackDeliveryExtremes (acc : DeviationPoint * DeviationPoint)
           (d : DeliveryValidationData) : DeviationPoint * DeviationPoint :=
  let '(maxD, minD) := acc in
  let maxD' :=
    if (dv_deviation d >? dp_value maxD)%js
    then {| dp_height := heightAfter d; dp_value := dv_deviation d |} else maxD in
  let minD' :=
    if (dv_deviation d <? dp_value minD)%js
    then {| dp_height := heightAfter d; dp_value := dv_deviation d |} else minD in
  (maxD', minD').

Definition calculateDeliveryValidation (deliveryPoints : list DeliveryPoint)
           (chartData : list ProcessedData) : Result DeliveryOutcome :=
  records <- forIndices (deliveryStep deliveryPoints chartData)
               (List.seq 1 (List.length deliveryPoints - 1)) [] ;;
  let totalDeliveries := List.length records in
  if (totalDeliveries =? 0)%nat then
    Ok {| deliveryData := []; do_stats := zeroStats |}
  else
    let deviations := map dv_deviation records in
    let average :=
      (fold_left (fun a b => a + b) deviations JS.zero / JS.of_nat totalDeliveries)%js in
    let '(maxD, minD) :=
      fold_left trackDeliveryExtremes records
        ({| dp_height := JS.Fin (-1); dp_value := JS.NegInf |},
         {| dp_height := JS.Fin (-1); dp_value := JS.PosInf |}) in
    Ok {| deliveryData := records;
          do_stats := {| totalMeasurements := totalDeliveries;
                         averageDeviation := average;
                         maxDeviation := maxD;
                         minDeviation := minD |} |}.

Definition processDeliveryValidation (validationFileText : string)
           (chartData : list ProcessedData) : Result DeliveryOutcome :=
  parsed <- parseFileContent validationFileText ;;
  let headerList := headers parsed in
  let rawData := data parsed in
  match findHeaders headerList with
  | None => Err DeliveryColumnsMissing
  | Some hm =>
      match deliveryHeader hm with
      | None => Err DeliveryColumnsMissing
      | Some deliveryH =>
          if Str.isEmpty deliveryH then Err DeliveryColumnsMissing
          else
            let heightIndex := indexOf (heightHeader hm) headerList in
            let deliveryIndex := indexOf deliveryH headerList in
            let deliveryPoints :=
              filter (fun p => negb (JS.isNaN (pt_height p))
                               && negb (JS.isNaN (pt_delivery p)))
                     (map (fun row =>
                             {| pt_height := cellNumber (rowAt row heightIndex);
                                pt_delivery := cellNumber (rowAt row deliveryIndex) |})
                          rawData) in
            if (List.length deliveryPoints <? 2)%nat then Err DeliveryNeedsTwoPoints
            else calculateDeliveryValidation deliveryPoints chartData
      end
  end.

Inductive ValidationResult : Type :=
| point_validation (r : PointOutcome)
| delivery_validation (r : DeliveryOutcome).

Definition processValidationData (validationFileText : string)
           (chartData : list ProcessedData) : Result ValidationResult :=
  parsed <- parseFileContent validationFileText ;;
  let hdrs := findHeaders (headers parsed) in
  if truthyStr (match hdrs with Some hm => deliveryHeader hm | None => None end) then
    r <- processDeliveryValidation validationFileText chartData ;;
    Ok (delivery_validation r)
  else if truthyStr (match hdrs with Some hm => volumeHeader hm | None => None end) then
    r <- processPointValidation validationFileText chartData ;;
    Ok (point_validation r)
  else Err ValidationTypeUnknown.

(** The handler of manually entered delivery points in the application
    shell: its guard and its call of the engine; a thrown error is what the
    shell reports, a result is what it stores. *)
Definition handleManualValidationSubmit (points : list DeliveryPoint)
           (processedData : list ProcessedData) : Result DeliveryOutcome :=
  if (List.length points <? 2)%nat then Err DeliveryNeedsTwoPoints
  else calculateDeliveryValidation points processedData.

(* ================================================================== *)
(** ** Report configuration and wizard steps ([types.ts]) *)
(* ================================================================== *)

Record ReportConfig : Type := {
  rc_clientName : string;
  rc_tankCode : string;
  rc_tankDiameter : string;
  rc_tankHeight : string;
  rc_tankLength : string;
  rc_tankCapacity : string;
  rc_calibrationDate : string;
  rc_calibrationCompany : string;
  rc_heightHeader : string;
  rc_volumeHeader : string;
  rc_columnOrder : ColumnOrder;
  rc_decimalPlaces : nat
}.

Inductive Step : Type :=
| UploadChart
| Configure
| Analysis
| ValidateData
| FinalReport.

(** The numbers of the enumeration: [UploadChart = 1] and counting. *)
Definition stepValue (s : Step) : Z :=
  match s with
  | UploadChart => 1
  | Configure => 2
  | Analysis => 3
  | ValidateData => 4
  | FinalReport => 5
  end.

(* ================================================================== *)
(** ** More of JavaScript: replacements, [Math.abs], [Math.max] *)
(* ================================================================== *)

Module Builtins.

(** [s.replace(/\s+/g, r)]. *)
Fixpoint replaceWhiteSpaceRuns (r : string) (s : string) : string :=
  match s with
  | EmptyString => EmptyString
  | String c s' =>
      if Str.isWhiteSpace c then
        if Str.startsWith Str.isWhiteSpace s' then replaceWhiteSpaceRuns r s'
        else r ++ replaceWhiteSpaceRuns r s'
      else String c (replaceWhiteSpaceRuns r s')
  end.

(** [s.replace(/[...]/g, r)] for the class of characters [p]. *)
Fixpoint replaceEach (p : ascii -> bool) (r : string) (s : string) : string :=
  match s with
  | EmptyString => EmptyString
  | String c s' =>
      if p c then r ++ replaceEach p r s' else String c (replaceEach p r s')
  end.

(** [s || d] on strings. *)
Definition orString (s d : string) : string :=
  if Str.isEmpty s then d else s.

(** [Math.abs]. *)
Definition abs (a : JS.number) : JS.number :=
  match a with
  | JS.NaN => JS.NaN
  | JS.Fin q => JS.Fin (if JS.Qlt_bool q 0 then - q else q)
  | _ => JS.PosInf
  end.

Definition max2 (a b : JS.number) : JS.number :=
  if JS.isNaN a || JS.isNaN b then JS.NaN
  else if (a <? b)%js then b else a.

(** [Math.max(...l)]: minus infinity without arguments, NaN with a NaN
    among them. *)
Definition max (l : list JS.number) : JS.number := fold_left max2 l JS.NegInf.

(** [a[i] = v] for an index [i] that [indexOf] returned: inside the array
    the element is replaced, and -1 names no element. *)
Fixpoint setAt (A : Type) (l : list A) (i : Z) (v : A) : list A :=
  match l with
  | [] => []
  | x :: xs => if (i =? 0)%Z then v :: xs else x :: setAt xs (i - 1) v
  end.

(** [Math.ceil(n / k)] for natural numbers and [k] not 0. *)
Definition ceilDiv (n k : nat) : nat := ((n + k - 1) / k)%nat.

End Builtins.

(* ================================================================== *)
(** ** Export service: file names, headers, strapping table *)
(* ================================================================== *)

(** The characters a file name must not have: slash, backslash, question
    mark, percent, star, colon, bar, double quote and the angle brackets. *)
Definition isForbiddenInFileName (c : ascii) : bool :=
  existsb (Nat.eqb (nat_of_ascii c)) [47; 92; 63; 37; 42; 58; 124; 34; 60; 62]%nat.

Definition sanitizeForFileName (s : string) : string :=
  Builtins.replaceEach isForbiddenInFileName "-" (Builtins.replaceWhiteSpaceRuns "_" s).

Definition generateBaseFilename (config : ReportConfig) : string :=
  let client := Builtins.orString (sanitizeForFileName (rc_clientName config)) "Client" in
  let tank := Builtins.orString (sanitizeForFileName (rc_tankCode config)) "Tank" in
  if (String.eqb client "Client" || String.eqb client "Default_Client")
     && String.eqb tank "Tank"
  then "Untitled"
  else client ++ "_" ++ tank.

Definition generateHeaders (config : ReportConfig) (hasValidationData : bool)
  : list string :=
  let chartLabel :=
    if hasValidationData then "Chart " ++ rc_volumeHeader config
    else rc_volumeHeader config in
  let headers0 :=
    match rc_columnOrder config with
    | HeightVolume => [rc_heightHeader config; chartLabel]
    | VolumeHeight => [chartLabel; rc_heightHeader config]
    end in
  if hasValidationData
  then (headers0 ++ [("Field " ++ rc_volumeHeader config)%string; "Deviation"])%list
  else headers0.

(** [reshapeStrappingData]: the points laid out column after column, in
    [numColumnPairs] pairs of cells per row. Without columns the row count
    is [ceil(n / 0)]: NaN for no point, and the loop does not start;
    infinite otherwise, and the loop does not end ([None]). *)
Definition reshapeStrappingData (strappingData : list ProcessedData)
           (numColumnPairs : nat) (formatter : JS.number -> Cell)
  : option (list (list Cell)) :=
  match numColumnPairs, strappingData with
  | O, [] => Some []
  | O, _ :: _ => None
  | _, _ =>
      let rowsPerColumn := Builtins.ceilDiv (List.length strappingData) numColumnPairs in
      Some (map (fun i =>
                   flat_map (fun j =>
                               let dataIndex := (i + j * rowsPerColumn)%nat in
                               match nth_error strappingData dataIndex with
                               | Some point =>
                                   [formatter (height point);
                                    formatter (chartVolume point)]
                               | None => [CStr ""; CStr ""]
                               end)
                            (List.seq 0 numColumnPairs))
                (List.seq 0 rowsPerColumn))
  end.

(** The table of the strapping chart exports: the default resampling, in
    six pairs of columns. *)
Definition strappingTable (data : list ProcessedData) (formatter : JS.number -> Cell)
  : Result (option (list (list Cell))) :=
  strappingData <- generateStrappingChartData data defaultPoints ;;
  Ok (reshapeStrappingData strappingData 6 formatter).

(* ================================================================== *)
(** ** Data table: headers and deviation colours *)
(* ================================================================== *)

Inductive Color : Type :=
| bg_white
| bg_red_200
| bg_yellow_100
| bg_green_100.

Definition getDeviationColor (dev maxAbsDeviation : JS.number) : Color :=
  if (dev === JS.zero)%js || (maxAbsDeviation === JS.zero)%js then bg_white
  else
    let percentage := (Builtins.abs dev / maxAbsDeviation)%js in
    if (percentage >? JS.Fin (3 # 4))%js then bg_red_200
    else if (percentage >? JS.Fin (1 # 4))%js then bg_yellow_100
    else bg_green_100.

(** [d.deviation || 0]. *)
Definition deviationOrZero (d : ProcessedData) : JS.number :=
  match deviation d with
  | Some v => JS.or v JS.zero
  | None => JS.zero
  end.

Definition maxAbsDeviation (data : list ProcessedData) (hasValidationData : bool)
  : JS.number :=
  if hasValidationData then Builtins.max (map (fun d => Builtins.abs (deviationOrZero d)) data)
  else JS.zero.

Definition deviationColor (data : list ProcessedData) (hasValidationData : bool)
           (row : ProcessedData) : Color :=
  match deviation row with
  | Some dev =>
      if hasValidationData
      then getDeviationColor dev (maxAbsDeviation data hasValidationData)
      else bg_white
  | None => bg_white
  end.

Definition tableHeaders (config : ReportConfig) (hasValidationData : bool)
  : list string :=
  let headers0 :=
    ((match rc_columnOrder config with
      | HeightVolume => [rc_heightHeader config]
      | VolumeHeight => []
      end)
     ++ [rc_volumeHeader config]
     ++ (match rc_columnOrder config with
         | VolumeHeight => [rc_heightHeader config]
         | HeightVolume => []
         end))%list in
  if hasValidationData then
    (Builtins.setAt headers0 (indexOf (rc_volumeHeader config) headers0)
              ("Chart " ++ rc_volumeHeader config)%string
     ++ [("Field " ++ rc_volumeHeader config)%string; "Deviation"])%list
  else headers0.

(* ================================================================== *)
(** ** Wizard navigation *)
(* ================================================================== *)

(** [handleBack]: the step it sets, or the same step where it returns
    without setting one. *)
Definition handleBack (step : Step) : Step :=
  match step with
  | Configure => UploadChart
  | Analysis => Configure
  | ValidateData => Analysis
  | FinalReport => ValidateData
  | _ => step
  end.

(** [showNavigationButtons = step > Step.UploadChart]. *)
Definition showNavigationButtons (step : Step) : bool :=
  (stepValue UploadChart <? stepValue step)%Z.

Definition getStepNumber (step : Step) : Z :=
  match step with
  | UploadChart => 1
  | Configure => 2
  | Analysis => 3
  | ValidateData => 4
  | FinalReport => 5
  end.

(* ================================================================== *)
(** ** Manual entry of delivery readings *)
(* ================================================================== *)

Record ManualEntryRow : Type := {
  row_id : nat;
  row_height : string;
  row_delivery : string
}.

(** The state of the form: its rows and the identifier of the next row. *)
Record EntryState : Type := {
  es_rows : list ManualEntryRow;
  es_nextId : nat
}.

Definition initialEntryState : EntryState :=
  {| es_rows := [ {| row_id := 1; row_height := "109"; row_delivery := "0" |};
                  {| row_id := 2; row_height := "235"; row_delivery := "7150" |};
                  {| row_id := 3; row_height := "436"; row_delivery := "7199" |} ];
     es_nextId := 4 |}.

Inductive EntryField : Type := HeightField | DeliveryField.

Definition handleRowChange (id : nat) (field : EntryField) (value : string)
           (st : EntryState) : EntryState :=
  {| es_rows :=
       map (fun row =>
              if (row_id row =? id)%nat then
                match field with
                | HeightField =>
                    {| row_id := row_id row; row_height := value;
                       row_delivery := row_delivery row |}
                | DeliveryField =>
                    {| row_id := row_id row; row_height := row_height row;
                       row_delivery := value |}
                end
              else row)
           (es_rows st);
     es_nextId := es_nextId st |}.

Definition handleAddRow (st : EntryState) : EntryState :=
  {| es_rows := (es_rows st
                 ++ [{| row_id := es_nextId st; row_height := ""; row_delivery := "" |}])%list;
     es_nextId := es_nextId st + 1 |}.

Definition handleRemoveRow (id : nat) (st : EntryState) : EntryState :=
  {| es_rows := filter (fun row => negb (row_id row =? id)%nat) (es_rows st);
     es_nextId := es_nextId st |}.

(** [handleSubmit]: the readings handed to [onManualSubmit]. *)
Definition handleSubmit (st : EntryState) : list DeliveryPoint :=
  filter (fun d => negb (JS.isNaN (pt_height d)) && negb (JS.isNaN (pt_delivery d)))
         (map (fun row =>
                 {| pt_height := Str.parseFloat (row_height row);
                    pt_delivery := Str.parseFloat (row_delivery row) |})
              (es_rows st)).

(** The form wired to the handler of the application shell. *)
Definition submitManualEntry (st : EntryState) (processedData : list ProcessedData)
  : Result DeliveryOutcome :=
  handleManualValidationSubmit (handleSubmit st) processedData.

Unset Implicit Arguments.
Local Close Scope string_scope.

(* ================================================================== *)
(** ** Vocabulary of the properties *)
(* ================================================================== *)

(** *** Charts *)

Definition heightLe (p q : ProcessedData) : Prop :=
  (height p <=? height q)%js = true.

Definition heightsAreNumbers (chart : list ProcessedData) : Prop :=
  Forall (fun p => JS.isNaN (height p) = false) chart.

Definition volumesAreNumbers (chart : list ProcessedData) : Prop :=
  Forall (fun p => JS.isNaN (chartVolume p) = false) chart.

(** The target is strictly under every height, or strictly over every one. *)
Definition outsideRange (h : JS.number) (chart : list ProcessedData) : Prop :=
  (forall p, In p chart -> (h <? height p)%js = true) \/
  (forall p, In p chart -> (height p <? h)%js = true).

(** *** Interpolation as a piecewise-linear function *)

Definition lerpQ (x1 y1 x2 y2 t : Q) : Q :=
  y1 + (y2 - y1) / (x2 - x1) * (t - x1).

(** Height and chart volume of a point with finite fields, as rationals. *)
Definition qh (p : ProcessedData) : Q :=
  match height p with JS.Fin q => q | _ => 0 end.
Definition qv (p : ProcessedData) : Q :=
  match chartVolume p with JS.Fin q => q | _ => 0 end.

Definition finitePoint (p : ProcessedData) : Prop :=
  JS.isFinite (height p) = true /\ JS.isFinite (chartVolume p) = true.

Definition finiteChart (chart : list ProcessedData) : Prop :=
  Forall finitePoint chart.

(** The value [interpolate] computes from its two neighbours. *)
Definition blend (h : JS.number) (upper lower : ProcessedData) : JS.number :=
  if (height upper === height lower)%js then chartVolume upper
  else
    let slope :=
      ((chartVolume upper - chartVolume lower) / (height upper - height lower))%js in
    (chartVolume lower + slope * (h - height lower))%js.

(** The piecewise-linear function through a chart in ascending order, read
    from the point [prev] on, for a target over the height of [prev]. *)
Fixpoint segments (t : Q) (prev : ProcessedData) (l : list ProcessedData) : Q :=
  match l with
  | [] => qv prev
  | q :: rest =>
      if JS.Qlt_bool (qh q) t then segments t q rest
      else if Qeq_bool (qh q) t then qv q
      else lerpQ (qh prev) (qv prev) (qh q) (qv q) t
  end.

Definition piecewise (t : Q) (chart : list ProcessedData) : Q :=
  match chart with
  | [] => 0
  | p0 :: rest => if Qeq_bool (qh p0) t then qv p0 else segments t p0 rest
  end.

Definition heightQLe (p q : ProcessedData) : Prop := qh p <= qh q.

(** The two tests of [interpolate] for a finite target [t]. *)
Definition atOrAbove (t : Q) (p : ProcessedData) : bool := (height p >=? JS.Fin t)%js.
Definition atOrBelow (t : Q) (p : ProcessedData) : bool := (height p <=? JS.Fin t)%js.

(** Consecutive volumes related by [R]. *)
Definition volumeR (R : Q -> Q -> Prop) (p q : ProcessedData) : Prop :=
  R (qv p) (qv q).

Definition sortedByHeight (chart : list ProcessedData) : Prop :=
  Sorted heightLe chart.

Definition volumeLe (p q : ProcessedData) : Prop :=
  (chartVolume p <=? chartVolume q)%js = true.
Definition volumeGe (p q : ProcessedData) : Prop :=
  (chartVolume p >=? chartVolume q)%js = true.

Definition volumesNondecreasing (chart : list ProcessedData) : Prop :=
  Sorted volumeLe chart.
Definition volumesNonincreasing (chart : list ProcessedData) : Prop :=
  Sorted volumeGe chart.

(** The target is strictly under every height of the chart. *)
Definition belowRange (h : JS.number) (chart : list ProcessedData) : Prop :=
  forall p, In p chart -> (h <? height p)%js = true.

(** The target is not over every height of the chart. *)
Definition notAboveRange (h : JS.number) (chart : list ProcessedData) : Prop :=
  exists q, In q chart /\ (h <=? height q)%js = true.

(** The target is the height of a point of the chart. *)
Definition atSample (h : JS.number) (chart : list ProcessedData) : Prop :=
  exists p, In p chart /\ (height p === h)%js = true.

(** The two targets lie strictly between the same two consecutive points. *)
Definition betweenSamples (h1 h2 : JS.number) (chart : list ProcessedData) : Prop :=
  exists a p q b, chart = (a ++ p :: q :: b)%list /\
                  (height p <? h1)%js = true /\ (h2 <? height q)%js = true.

(** *** Delivery validation *)

(** The pairs [(reading i-1, reading i)], for [i] from 1. *)
Definition consecutivePairs (pts : list DeliveryPoint)
  : list (DeliveryPoint * DeliveryPoint) :=
  combine pts (tl pts).

(** A pair is a delivery unless its second reading reports 0. *)
Definition isDelivery (pair : DeliveryPoint * DeliveryPoint) : bool :=
  negb (pt_delivery (snd pair) === JS.zero)%js.

Definition recordOf (chart : list ProcessedData)
           (pair : DeliveryPoint * DeliveryPoint) : DeliveryValidationData :=
  let calculated :=
    (interpolate (pt_height (snd pair)) chart
     - interpolate (pt_height (fst pair)) chart)%js in
  {| heightBefore := pt_height (fst pair);
     heightAfter := pt_height (snd pair);
     reportedDelivery := pt_delivery (snd pair);
     chartCalculatedDelivery := calculated;
     dv_deviation := (pt_delivery (snd pair) - calculated)%js |}.

Definition expectedRecords (chart : list ProcessedData) (pts : list DeliveryPoint)
  : list DeliveryValidationData :=
  map (recordOf chart) (filter isDelivery (consecutivePairs pts)).

(** The normalized readings of a delivery file, as
    [processDeliveryValidation] extracts them. *)
Definition deliveryPointsOfFile (validationFileText : string)
  : Result (list DeliveryPoint) :=
  parsed <- parseFileContent validationFileText ;;
  let headerList := headers parsed in
  match findHeaders headerList with
  | None => Err DeliveryColumnsMissing
  | Some hm =>
      match deliveryHeader hm with
      | None => Err DeliveryColumnsMissing
      | Some deliveryH =>
          if Str.isEmpty deliveryH then Err DeliveryColumnsMissing
          else
            let heightIndex := indexOf (heightHeader hm) headerList in
            let deliveryIndex := indexOf deliveryH headerList in
            Ok (filter (fun p => negb (JS.isNaN (pt_height p))
                                 && negb (JS.isNaN (pt_delivery p)))
                       (map (fun row =>
                               {| pt_height := cellNumber (rowAt row heightIndex);
                                  pt_delivery := cellNumber (rowAt row deliveryIndex) |})
                            (data parsed)))
      end
  end.

(** *** Ingest *)

(** The volume header a parsed header row resolves to, if any. *)
Definition resolvedVolumeHeader (headerList : list string) : option string :=
  match findHeaders headerList with
  | Some hm => volumeHeader hm
  | None => None
  end.

(** *** Statistics *)

Definition hasDeviation (d : ProcessedData) : bool := isValidDeviation (deviation d).

(** The records that carry a deviation that is a number. *)
Definition validRecords (data : list ProcessedData) : list ProcessedData :=
  filter hasDeviation data.

Definition devOf (d : ProcessedData) : JS.number :=
  match deviation d with Some v => v | None => JS.NaN end.

Definition pointOf (d : ProcessedData) : DeviationPoint :=
  {| dp_height := height d; dp_value := devOf d |}.

(** [P] is taken from the earliest record of [l] whose deviation no other
    record of [l] is beyond, [beyond a b] reading: [a] is beyond [b]. *)
Definition earliestExtreme (beyond : JS.number -> JS.number -> bool)
           (l : list ProcessedData) (P : DeviationPoint) : Prop :=
  exists pre d post,
    l = pre ++ d :: post /\ P = pointOf d /\
    (forall x, In x pre -> beyond (devOf d) (devOf x) = true) /\
    (forall x, In x post -> beyond (devOf x) (devOf d) = false).

(** The point an extreme starts from, [{ height: v, value: v }]. *)
Definition startPoint (v : JS.number) : DeviationPoint :=
  {| dp_height := v; dp_value := v |}.

Definition initialExtremes : DeviationPoint * DeviationPoint :=
  (startPoint JS.NegInf, startPoint JS.PosInf).

(** *** Parsed texts *)

(** Every code unit of the text is white space. *)
Fixpoint allWhiteSpace (s : string) : bool :=
  match s with
  | EmptyString => true
  | String c s' => Str.isWhiteSpace c && allWhiteSpace s'
  end.

(** A cell as the parser builds it: a number that is not NaN, or a
    trimmed text that does not start with a number. *)
Definition wellFormedCell (c : Cell) : Prop :=
  match c with
  | CNum n => JS.isNaN n = false
  | CStr s => JS.isNaN (Str.parseFloat s) = true /\ Str.trim s = s
  end.

Definition wellFormedRow (row : list Cell) : Prop :=
  row <> [] /\ Forall wellFormedCell row.

(** *** Header detection *)

(** [h] is at position [k] of the header row, where [indexOf] finds it. *)
Definition locatedAt (headerList : list string) (h : string) (k : nat) : Prop :=
  indexOf h headerList = Z.of_nat k /\ nth_error headerList k = Some h /\
  forall j, (j < k)%nat -> nth_error headerList j <> Some h.

(** A header of the row that passes the test [re], with its position. *)
Definition headerMatching (re : string -> bool) (headerList : list string)
           (h : string) : Prop :=
  In h headerList /\ re h = true /\ h <> EmptyString /\
  exists k, locatedAt headerList h k.

Definition noneMatches (re : string -> bool) (headerList : list string) : Prop :=
  forall h, In h headerList -> re h = false.

Definition plainVolume (h : string) : bool := volumeRegex h && negb (fieldVolumeRegex h).
Definition fieldVolumeLike (h : string) : bool := fieldVolumeRegex h && volumeRegex h.

(** *** Ingested records *)

(** The deviation the normalizer attaches to a record. *)
Definition deviationOf (p : ProcessedData) : option JS.number :=
  match fieldVolume p with
  | Some f => if JS.isNaN f then None else Some (f - chartVolume p)%js
  | None => None
  end.

(** A record as the normalizer lets it through. *)
Definition normalizedRecord (p : ProcessedData) : Prop :=
  JS.isNaN (height p) = false /\ JS.isNaN (chartVolume p) = false /\
  deviation p = deviationOf p.

(** *** Validation files *)

(** A record of a point validation against [chart]. *)
Definition validatedRecord (chart : list ProcessedData) (p : ProcessedData) : Prop :=
  JS.isNaN (height p) = false /\
  chartVolume p = interpolate (height p) chart /\
  exists f, JS.isNaN f = false /\ fieldVolume p = Some f /\
            deviation p = Some (f - chartVolume p)%js.

(** The delivery header a header row resolves to, if any. *)
Definition resolvedDeliveryHeader (headerList : list string) : option string :=
  match findHeaders headerList with
  | Some hm => deliveryHeader hm
  | None => None
  end.

(** *** Delivery records *)

(** A record of a delivery validation against [chart]. *)
Definition deliveryRecord (chart : list ProcessedData) (r : DeliveryValidationData) : Prop :=
  (reportedDelivery r === JS.zero)%js = false /\
  chartCalculatedDelivery r
  = (interpolate (heightAfter r) chart - interpolate (heightBefore r) chart)%js /\
  dv_deviation r = (reportedDelivery r - chartCalculatedDelivery r)%js.

(** *** Export: file names and headers *)

(** Every character of the text passes the test. *)
Fixpoint allChars (p : ascii -> bool) (s : string) : bool :=
  match s with
  | EmptyString => true
  | String c s' => p c && allChars p s'
  end.

(** Neither white space nor forbidden in a file name. *)
Definition safeChar (c : ascii) : bool :=
  negb (Str.isWhiteSpace c) && negb (isForbiddenInFileName c).

(** *** Export: strapping table *)

(** The two cells of the table for the point of index [dataIndex]. *)
Definition cellPair (strappingData : list ProcessedData) (formatter : JS.number -> Cell)
           (dataIndex : nat) : list Cell :=
  match nth_error strappingData dataIndex with
  | Some point => [formatter (height point); formatter (chartVolume point)]
  | None => [CStr ""; CStr ""]
  end.

(** A cell that the formatter produced. *)
Definition formattedCell (formatter : JS.number -> Cell) (c : Cell) : Prop :=
  exists x, c = formatter x.

(** *** Wizard navigation and manual entry *)

(** An action of the user on the manual entry form. *)
Inductive EntryAction : Type :=
| AddRow
| RemoveRow (id : nat)
| ChangeRow (id : nat) (field : EntryField) (value : string).

Definition applyEntryAction (st : EntryState) (a : EntryAction) : EntryState :=
  match a with
  | AddRow => handleAddRow st
  | RemoveRow id => handleRemoveRow id st
  | ChangeRow id field value => handleRowChange id field value st
  end.

(** The identifiers of the rows are distinct and below the next one. *)
Definition entryIdsFresh (st : EntryState) : Prop :=
  NoDup (map row_id (es_rows st)) /\
  Forall (fun row => (row_id row < es_nextId st)%nat) (es_rows st).

(** Going back [n] times. *)
Fixpoint backTimes (n : nat) (step : Step) : Step :=
  match n with
  | O => step
  | S n' => backTimes n' (handleBack step)
  end.

(** *** Deviation colours *)

(** How strong a colour of the deviation column is. *)
Definition severity (c : Color) : nat :=
  match c with
  | bg_white => 0
  | bg_green_100 => 1
  | bg_yellow_100 => 2
  | bg_red_200 => 3
  end%nat.

(** The deviation of a record is absent or a finite number. *)
Definition finiteDeviation (d : ProcessedData) : Prop :=
  match deviation d with
  | None => True
  | Some v => JS.isFinite v = true
  end.

(** The deviation of a record as a rational, zero when it is absent. *)
Definition deviationQ (d : ProcessedData) : Q :=
  match deviation d with
  | Some (JS.Fin q) => q
  | _ => 0
  end.

Definition absQ (q : Q) : Q := if JS.Qlt_bool q 0 then - q else q.

(** *** Sample inputs *)

Definition pt (h v : Z) : ProcessedData := barePoint (JS.of_Z h) (JS.of_Z v).

Definition rampChart : list ProcessedData := [pt 0 0; pt 100 1000].

Definition descendingChart : list ProcessedData := [pt 0 1000; pt 100 0].

Definition dpt (h d : Z) : DeliveryPoint :=
  {| pt_height := JS.of_Z h; pt_delivery := JS.of_Z d |}.

Definition shortDeliveryFile : string :=
  ("Dip,Fuel Delivery" ++ String Str.LF "100,0")%string.

Definition flatChart : list ProcessedData := [pt 1 10; pt 1 20].

Definition headeredCsv : string :=
  ("Height,Volume" ++ String Str.LF "1,100" ++ String Str.LF "2,200")%string.
Definition headerlessCsv : string :=
  ("1;100" ++ String Str.LF "2;200")%string.

Definition deliveryOnlyFile : string :=
  ("Dip,Fuel Delivery" ++ String Str.LF "100,0" ++ String Str.LF "200,5000")%string.

Definition check (h : Z) (dev : option JS.number) : ProcessedData :=
  {| height := JS.of_Z h; chartVolume := JS.zero;
     fieldVolume := dev; deviation := dev |}.

Definition tiedChecks : list ProcessedData :=
  [check 1 (Some (JS.of_Z 5)); check 2 None; check 3 (Some (JS.of_Z 5));
   check 4 (Some JS.NaN); check 5 (Some (JS.of_Z (-2))); check 6 (Some (JS.of_Z (-2)))].

Definition bottomlessChecks : list ProcessedData :=
  [check 5 (Some JS.NegInf)].

Definition bottomlessFile : string :=
  ("Dip,Chart Volume,Field Volume" ++ String Str.LF "5,10,-Infinity")%string.

Definition combinedFile : string :=
  ("Dip,Chart Volume,Field Volume" ++ String Str.LF "100,10,11"
   ++ String Str.LF "x,50,48" ++ String Str.LF "200,50,48")%string.

Definition fieldOnlyFile : string :=
  ("Dip,Field Volume" ++ String Str.LF "100,11" ++ String Str.LF "200,48")%string.

Definition rampCheckFile : string :=
  ("Height,Volume" ++ String Str.LF "50,520" ++ String Str.LF "n/a,3"
   ++ String Str.LF "100,990")%string.

Definition sameLabelConfig : ReportConfig :=
  {| rc_clientName := "Depot"; rc_tankCode := "T 1/2"; rc_tankDiameter := "";
     rc_tankHeight := ""; rc_tankLength := ""; rc_tankCapacity := "";
     rc_calibrationDate := ""; rc_calibrationCompany := "";
     rc_heightHeader := "Reading"; rc_volumeHeader := "Reading";
     rc_columnOrder := VolumeHeight; rc_decimalPlaces := 2 |}.

(** A validated table with the deviations 1, -4 and none. *)
Definition validatedSample : list ProcessedData :=
  [ {| height := JS.Fin 0; chartVolume := JS.Fin 10;
       fieldVolume := Some (JS.Fin 11); deviation := Some (JS.Fin 1) |};
    {| height := JS.Fin 1; chartVolume := JS.Fin 20;
       fieldVolume := Some (JS.Fin 16); deviation := Some (JS.Fin (-4)) |};
    {| height := JS.Fin 2; chartVolume := JS.Fin 30;
       fieldVolume := None; deviation := None |} ].

(* ================================================================== *)
(** ** Properties *)
(* ================================================================== *)

(* ------------------------------------------------------------------ *)
(** *** Order and arithmetic of numbers *)
(* ------------------------------------------------------------------ *)

Module JSFacts.
Import JS.

Lemma Qlt_bool_iff x y : Qlt_bool x y = true <-> x < y.
Proof.
  unfold Qlt_bool. rewrite negb_true_iff.
  split; intro H.
  - apply Qnot_le_lt. intro Hle. apply Qle_bool_iff in Hle. congruence.
  - destruct (Qle_bool y x) eqn:E; [|reflexivity].
    apply Qle_bool_iff in E. exfalso. apply (Qlt_not_le _ _ H E).
Qed.

Lemma Qlt_bool_false_iff x y : Qlt_bool x y = false <-> y <= x.
Proof.
  unfold Qlt_bool. rewrite negb_false_iff. apply Qle_bool_iff.
Qed.

Lemma leb_refl a : isNaN a = false -> (a <=? a)%js = true.
Proof. destruct a; simpl; try congruence. intros _. apply Qle_bool_iff, Qle_refl. Qed.

Lemma leb_trans a b c :
  (a <=? b)%js = true -> (b <=? c)%js = true -> (a <=? c)%js = true.
Proof.
  destruct a, b, c; simpl; try congruence.
  rewrite !Qle_bool_iff. apply Qle_trans.
Qed.

Lemma leb_antisym a b :
  (a <=? b)%js = true -> (b <=? a)%js = true -> (a === b)%js = true.
Proof.
  destruct a, b; simpl; try congruence.
  rewrite !Qle_bool_iff, Qeq_bool_iff. apply Qle_antisym.
Qed.

Lemma leb_total a b :
  isNaN a = false -> isNaN b = false -> (a <? b)%js = false -> (b <=? a)%js = true.
Proof.
  destruct a, b; simpl; try congruence.
  intros _ _. rewrite Qlt_bool_false_iff, Qle_bool_iff. auto.
Qed.

Lemma ltb_leb a b : (a <? b)%js = true -> (a <=? b)%js = true.
Proof.
  destruct a, b; simpl; try congruence.
  rewrite Qlt_bool_iff, Qle_bool_iff. apply Qlt_le_weak.
Qed.

Lemma ltb_not_geb a b : (a <? b)%js = true -> (b <=? a)%js = false.
Proof.
  destruct a, b; simpl; try congruence.
  unfold Qlt_bool. now rewrite negb_true_iff.
Qed.

Lemma seq_sym a b : (a === b)%js = (b === a)%js.
Proof. destruct a, b; simpl; auto. apply Qeq_bool_comm. Qed.

Lemma seq_leb a b : (a === b)%js = true -> (a <=? b)%js = true.
Proof.
  destruct a, b; simpl; try congruence.
  rewrite Qeq_bool_iff, Qle_bool_iff. intros ->. apply Qle_refl.
Qed.

Lemma seq_not_NaN a b : (a === b)%js = true -> isNaN a = false /\ isNaN b = false.
Proof. destruct a, b; simpl; try congruence; auto. Qed.

(** The comparison by subtraction orders exactly as [<] does. *)
Lemma sub_gtb_zero a b : (a - b >? zero)%js = (b <? a)%js.
Proof.
  destruct a as [| |x|], b as [| |y|]; try reflexivity.
  unfold gtb, zero, sub, ltb. apply eq_true_iff_eq.
  rewrite !Qlt_bool_iff. split; intro H; lra.
Qed.

Lemma or_zero_seq a : isNaN a = false -> (or a zero === a)%js = true.
Proof.
  destruct a; simpl; try congruence; intros _; unfold or; simpl; auto.
  destruct (Qeq_bool q 0) eqn:E; simpl.
  - rewrite Qeq_bool_comm. exact E.
  - apply Qeq_bool_refl.
Qed.

Lemma leb_not_ltb a b : (a <=? b)%js = true -> (b <? a)%js = false.
Proof.
  intros H. destruct (b <? a)%js eqn:E; [|reflexivity].
  apply ltb_not_geb in E. congruence.
Qed.

Lemma seq_trans a b c :
  (a === b)%js = true -> (b === c)%js = true -> (a === c)%js = true.
Proof.
  intros H1 H2. apply leb_antisym.
  - eapply leb_trans; apply seq_leb; eassumption.
  - rewrite seq_sym in H1. rewrite seq_sym in H2.
    eapply leb_trans; apply seq_leb; eassumption.
Qed.

Lemma leb_Fin x y : (JS.Fin x <=? JS.Fin y)%js = Qle_bool x y.
Proof. reflexivity. Qed.

Lemma sub_zero_same a : JS.same (a - JS.Fin (0 - 0))%js a.
Proof.
  destruct a as [| |q|]; unfold JS.sub, JS.same; auto. lra.
Qed.

Lemma ltb_trans a b c :
  (a <? b)%js = true -> (b <? c)%js = true -> (a <? c)%js = true.
Proof.
  destruct a, b, c; unfold JS.ltb; try congruence.
  rewrite !Qlt_bool_iff. apply Qlt_trans.
Qed.

Lemma leb_ltb_trans a b c :
  (b <? a)%js = false -> (b <? c)%js = true ->
  JS.isNaN a = false -> (a <? c)%js = true.
Proof.
  destruct a, b, c; unfold JS.ltb; simpl; try congruence.
  rewrite Qlt_bool_false_iff, !Qlt_bool_iff. intros. lra.
Qed.

Lemma ltb_leb_trans a b c :
  (a <? b)%js = true -> (c <? b)%js = false ->
  JS.isNaN c = false -> (a <? c)%js = true.
Proof.
  destruct a, b, c; unfold JS.ltb; simpl; try congruence.
  rewrite Qlt_bool_false_iff, !Qlt_bool_iff. intros. lra.
Qed.

Lemma finite_not_NaN a : JS.isFinite a = true -> JS.isNaN a = false.
Proof. now destruct a. Qed.

End JSFacts.
Import JSFacts.

Arguments JS.gtb : simpl never.
Arguments JS.geb : simpl never.
Arguments JS.ltb : simpl never.
Arguments JS.leb : simpl never.
Arguments JS.seq : simpl never.
Arguments JS.add : simpl never.
Arguments JS.sub : simpl never.
Arguments JS.mul : simpl never.
Arguments JS.div : simpl never.
Arguments JS.or : simpl never.

(* ------------------------------------------------------------------ *)
(** *** Arrays: searching and sorting *)
(* ------------------------------------------------------------------ *)

Section FindFacts.
Variable A : Type.
Variable f : A -> bool.

Lemma find_all_false (l : list A) :
  (forall x, In x l -> f x = false) -> find f l = None.
Proof.
  induction l as [|a l IH]; simpl; intros H; [reflexivity|].
  rewrite (H a (or_introl eq_refl)). apply IH. intros x Hx. apply H. now right.
Qed.

Lemma filter_all_false (l : list A) :
  (forall x, In x l -> f x = false) -> filter f l = [].
Proof.
  induction l as [|a l IH]; simpl; intros H; [reflexivity|].
  rewrite (H a (or_introl eq_refl)). apply IH. intros x Hx. apply H. now right.
Qed.

Lemma find_app (l1 l2 : list A) :
  find f (l1 ++ l2) =
  match find f l1 with Some x => Some x | None => find f l2 end.
Proof.
  induction l1 as [|a l1 IH]; simpl; [reflexivity|].
  destruct (f a); [reflexivity|exact IH].
Qed.

Lemma find_rev_cons (a : A) (l : list A) :
  find f (rev (a :: l)) =
  match find f (rev l) with
  | Some x => Some x
  | None => if f a then Some a else None
  end.
Proof. simpl rev. rewrite find_app. reflexivity. Qed.

Lemma find_is_Some (l : list A) (x : A) :
  In x l -> f x = true -> exists y, find f l = Some y.
Proof.
  intros Hin Hf. destruct (find f l) eqn:E; [eauto|].
  pose proof (find_none _ _ E _ Hin). congruence.
Qed.

(** What [find] returns heads the elements that pass the test. *)
Lemma find_split (l : list A) (u : A) :
  find f l = Some u ->
  exists a b, l = a ++ u :: b /\ (forall x, In x a -> f x = false) /\ f u = true.
Proof.
  induction l as [|y l IH]; simpl; [discriminate|].
  destruct (f y) eqn:E.
  - intros [= ->]. exists [], l. simpl. intuition.
  - intros H. destruct (IH H) as (a & b & -> & Ha & Hu).
    exists (y :: a), b. simpl. split; [reflexivity|]. split; [|exact Hu].
    intros x [<-|Hx]; auto.
Qed.

Variable R : A -> A -> Prop.

Lemma find_first_sorted (l : list A) (u p : A) :
  StronglySorted R l -> find f l = Some u -> In p l -> f p = true ->
  u = p \/ R u p.
Proof.
  induction 1 as [|y l Hs IH Hall]; simpl; [discriminate|].
  destruct (f y) eqn:E.
  - intros [= ->] [->|Hin] _; [now left|right].
    rewrite Forall_forall in Hall. now apply Hall.
  - intros Hf [->|Hin] Hp; [congruence|]. now apply IH.
Qed.

Lemma find_last_sorted (l : list A) (lo p : A) :
  StronglySorted R l -> find f (rev l) = Some lo -> In p l -> f p = true ->
  lo = p \/ R p lo.
Proof.
  induction 1 as [|y l Hs IH Hall]; [simpl; discriminate|].
  rewrite find_rev_cons. rewrite Forall_forall in Hall.
  destruct (find f (rev l)) as [x|] eqn:E.
  - intros [= ->] [->|Hin] Hp.
    + right. apply Hall. apply in_rev. now apply (find_some _ _ E).
    + now apply IH.
  - destruct (f y) eqn:Ey; [|discriminate].
    intros [= ->] [->|Hin] Hp; [now left|].
    pose proof (find_none _ _ E p). rewrite <- in_rev in H.
    specialize (H Hin). congruence.
Qed.

End FindFacts.

Section SortFacts.
Variable A : Type.
Variable cmp : A -> A -> JS.number.

Lemma insertSorted_perm (x : A) (l : list A) :
  Permutation (insertSorted cmp x l) (x :: l).
Proof.
  induction l as [|y ys IH]; simpl; [apply Permutation_refl|].
  destruct (cmp x y >? JS.zero)%js; [|apply Permutation_refl].
  eapply Permutation_trans; [apply perm_skip, IH|apply perm_swap].
Qed.

Lemma arraySort_perm (l : list A) : Permutation (arraySort cmp l) l.
Proof.
  induction l as [|x l IH]; simpl; [constructor|].
  eapply Permutation_trans; [apply insertSorted_perm|now apply perm_skip].
Qed.

End SortFacts.

Lemma sortChart_perm chart : Permutation (sortChart chart) chart.
Proof. apply arraySort_perm. Qed.

Lemma sortChart_In chart p : In p (sortChart chart) <-> In p chart.
Proof.
  split; apply Permutation_in; [|apply Permutation_sym]; apply sortChart_perm.
Qed.

Lemma sortChart_length chart : List.length (sortChart chart) = List.length chart.
Proof. apply Permutation_length, sortChart_perm. Qed.

Lemma sortChart_cons chart :
  chart <> [] -> exists first rest, sortChart chart = first :: rest.
Proof.
  intros H. destruct (sortChart chart) as [|a r] eqn:E; [|eauto].
  exfalso. apply H. apply length_zero_iff_nil.
  now rewrite <- sortChart_length, E.
Qed.

Lemma byHeight_gtb x y : (byHeight x y >? JS.zero)%js = (height y <? height x)%js.
Proof. apply sub_gtb_zero. Qed.

Lemma heightLe_trans p q r : heightLe p q -> heightLe q r -> heightLe p r.
Proof. apply leb_trans. Qed.

Lemma insertSorted_sorted x l :
  JS.isNaN (height x) = false -> heightsAreNumbers l ->
  StronglySorted heightLe l ->
  StronglySorted heightLe (insertSorted byHeight x l).
Proof.
  intros Hx Hnum Hs. induction Hs as [|y ys Hs IH Hall]; simpl.
  - repeat constructor.
  - inversion Hnum as [|? ? Hy Hys]; subst.
    rewrite byHeight_gtb. destruct (height y <? height x)%js eqn:E.
    + constructor; [now apply IH|].
      eapply Permutation_Forall;
        [apply Permutation_sym, insertSorted_perm|].
      constructor; [now apply ltb_leb|exact Hall].
    + assert (Hxy : heightLe x y) by now apply leb_total.
      constructor; [now constructor|].
      constructor; [exact Hxy|].
      eapply Forall_impl; [|exact Hall].
      intros a Ha. now apply heightLe_trans with y.
Qed.

Lemma sortChart_sorted chart :
  heightsAreNumbers chart -> StronglySorted heightLe (sortChart chart).
Proof.
  induction 1 as [|x l Hx Hl IH]; simpl; [constructor|].
  apply insertSorted_sorted; auto.
  eapply Permutation_Forall; [apply Permutation_sym, sortChart_perm|exact Hl].
Qed.

(** A chart already in ascending order is its own sorted copy. *)
Lemma sortChart_sorted_id chart : Sorted heightLe chart -> sortChart chart = chart.
Proof.
  induction 1 as [|x l Hs IH Hrel]; [reflexivity|].
  unfold sortChart in *. simpl. rewrite IH.
  destruct Hrel as [|y ys Hxy]; simpl; [reflexivity|].
  rewrite byHeight_gtb, (leb_not_ltb _ _ Hxy). reflexivity.
Qed.

(** Stability: the points of one height keep their input order. *)
Lemma insertSorted_filter_height h x l :
  filter (fun q => (height q === h)%js) (insertSorted byHeight x l) =
  filter (fun q => (height q === h)%js) (x :: l).
Proof.
  induction l as [|y ys IH]; [reflexivity|].
  cbn [insertSorted]. rewrite byHeight_gtb.
  destruct (height y <? height x)%js eqn:E; [|reflexivity].
  cbn [filter] in *. rewrite IH.
  destruct (height x === h)%js eqn:Ex, (height y === h)%js eqn:Ey; try reflexivity.
  exfalso. apply ltb_not_geb in E.
  rewrite seq_sym in Ey.
  assert ((height x <=? height y)%js = true).
  { eapply leb_trans; [apply seq_leb, Ex|apply seq_leb, Ey]. }
  congruence.
Qed.

Lemma sortChart_filter_height h chart :
  filter (fun q => (height q === h)%js) (sortChart chart) =
  filter (fun q => (height q === h)%js) chart.
Proof.
  induction chart as [|x l IH]; [reflexivity|].
  unfold sortChart in *. cbn [arraySort fold_right].
  change (fold_right (insertSorted byHeight) [] l) with (arraySort byHeight l).
  rewrite insertSorted_filter_height. cbn [filter]. now rewrite IH.
Qed.

Lemma find_hd_filter (A : Type) (f : A -> bool) (l : list A) :
  find f l = hd_error (filter f l).
Proof.
  induction l as [|a l IH]; [reflexivity|]. simpl.
  destruct (f a); [reflexivity|exact IH].
Qed.

(* ------------------------------------------------------------------ *)
(** *** Interpolation outside the range and at the points of the chart *)
(* ------------------------------------------------------------------ *)

(** With one of the two neighbours missing, [interpolate] falls back on
    the first point of the sorted copy. *)
Lemma interpolate_fallback h chart :
  find (fun p => (height p >=? h)%js) (sortChart chart) = None \/
  find (fun p => (height p <=? h)%js) (rev (sortChart chart)) = None ->
  interpolate h chart =
  match sortChart chart with
  | first :: _ => JS.or (chartVolume first) JS.zero
  | [] => JS.zero
  end.
Proof.
  unfold interpolate. intros [-> | ->]; [reflexivity|].
  destruct (find _ (sortChart chart)); reflexivity.
Qed.

(** C1. Out of range, the first volume. For a non-empty chart whose chart
    volumes are numbers and a target height strictly under every height of
    the chart, or strictly over every one, [interpolate] returns the chart
    volume of the first point of the sorted copy of the chart. *)
Theorem interpolate_outside_range_first_volume h chart :
  chart <> [] -> volumesAreNumbers chart -> outsideRange h chart ->
  exists first rest,
    sortChart chart = first :: rest /\
    (interpolate h chart === chartVolume first)%js = true.
Proof.
  intros Hne Hvol Hout.
  destruct (sortChart_cons chart Hne) as (first & rest & Hs).
  exists first, rest. split; [exact Hs|].
  rewrite interpolate_fallback, Hs.
  - apply or_zero_seq.
    unfold volumesAreNumbers in Hvol. rewrite Forall_forall in Hvol.
    apply Hvol, sortChart_In. rewrite Hs. now left.
  - destruct Hout as [Hlow | Hhigh]; [right | left]; apply find_all_false.
    + intros x Hx. rewrite <- in_rev, sortChart_In in Hx.
      apply ltb_not_geb. now apply Hlow.
    + intros x Hx. rewrite sortChart_In in Hx.
      unfold JS.geb. apply ltb_not_geb. now apply Hhigh.
Qed.

Lemma interpolate_outside_range_first_volume_witness :
  exists first rest,
    sortChart [pt 100 1000; pt 0 7] = first :: rest /\
    chartVolume first = JS.of_Z 7 /\
    (interpolate (JS.of_Z 150) [pt 100 1000; pt 0 7] === chartVolume first)%js = true.
Proof.
  destruct (@interpolate_outside_range_first_volume
              (JS.of_Z 150) [pt 100 1000; pt 0 7]) as (first & rest & Hs & Hv).
  - discriminate.
  - repeat constructor.
  - right. intros p [<-|[<-|[]]]; reflexivity.
  - exists first, rest. repeat split; try assumption.
    vm_compute in Hs. now injection Hs as <- _.
Defined.

(** At the height of a point of the chart, both neighbours exist and have
    that height. *)
Lemma interpolate_knot_neighbours chart p :
  heightsAreNumbers chart -> In p chart ->
  exists u lo,
    find (fun q => (height q >=? height p)%js) (sortChart chart) = Some u /\
    find (fun q => (height q <=? height p)%js) (rev (sortChart chart)) = Some lo /\
    (height u === height p)%js = true /\
    (height lo === height p)%js = true.
Proof.
  intros Hnum Hin.
  assert (Hp : JS.isNaN (height p) = false).
  { unfold heightsAreNumbers in Hnum. rewrite Forall_forall in Hnum. auto. }
  pose proof (sortChart_sorted _ Hnum) as Hsorted.
  assert (Hin' : In p (sortChart chart)) by now apply sortChart_In.
  assert (Hpp : (height p <=? height p)%js = true) by now apply leb_refl.
  destruct (find_is_Some _ (fun q => (height q >=? height p)%js) _ _ Hin' Hpp)
    as [u Hu].
  destruct (find_is_Some _ (fun q => (height q <=? height p)%js)
              (rev (sortChart chart)) p) as [lo Hlo];
    [now apply in_rev in Hin'|exact Hpp|].
  exists u, lo. repeat split; try assumption.
  - pose proof (find_some _ _ Hu) as [_ Hge]. unfold JS.geb in Hge.
    destruct (find_first_sorted _ _ _ _ _ _ Hsorted Hu Hin' Hpp) as [->|Hle].
    + now apply leb_antisym.
    + now apply leb_antisym.
  - pose proof (find_some _ _ Hlo) as [_ Hle].
    destruct (find_last_sorted _ _ _ _ _ _ Hsorted Hlo Hin' Hpp) as [->|Hge].
    + now apply leb_antisym.
    + now apply leb_antisym.
Qed.

(** C4, with the tie between equal heights resolved. For a chart whose
    heights are numbers and a point [p] of it, [interpolate] at the height
    of [p] returns the chart volume of the first point of the chart, in
    input order, whose height equals that of [p]; it is the chart volume
    of [p] when all points of that height carry the same volume, so in
    particular when no other point has that height. *)
Theorem interpolate_at_knot_first_of_height chart p :
  heightsAreNumbers chart -> In p chart ->
  exists u,
    find (fun q => (height q === height p)%js) chart = Some u /\
    interpolate (height p) chart = chartVolume u /\
    ((forall q, In q chart -> (height q === height p)%js = true ->
                chartVolume q = chartVolume p) ->
     interpolate (height p) chart = chartVolume p).
Proof.
  intros Hnum Hin.
  destruct (interpolate_knot_neighbours chart p Hnum Hin) as (u & lo & Hu & Hlo & Eu & Elo).
  assert (Hval : interpolate (height p) chart = chartVolume u).
  { unfold interpolate. rewrite Hu, Hlo.
    rewrite (seq_trans _ _ _ Eu); [reflexivity|]. now rewrite seq_sym. }
  exists u. split; [|split].
  - rewrite find_hd_filter, <- sortChart_filter_height.
    destruct (find_split _ _ _ _ Hu) as (a & b & Hs & Ha & _).
    rewrite Hs, filter_app. cbn [filter]. rewrite Eu.
    rewrite filter_all_false; [reflexivity|].
    intros x Hx.
    destruct (height x === height p)%js eqn:E; [|reflexivity].
    rewrite seq_sym in E. apply seq_leb in E.
    specialize (Ha x Hx). unfold JS.geb in Ha. congruence.
  - exact Hval.
  - intros Hsame. rewrite Hval. apply Hsame; [|exact Eu].
    apply sortChart_In. now apply (find_some _ _ Hu).
Qed.

Lemma interpolate_at_knot_first_of_height_witness :
  interpolate (JS.of_Z 100) [pt 100 1000; pt 0 7] = JS.of_Z 1000.
Proof.
  destruct (@interpolate_at_knot_first_of_height
              [pt 100 1000; pt 0 7] (pt 100 1000)) as (u & _ & _ & H).
  - repeat constructor.
  - now left.
  - apply H. intros q [<-|[<-|[]]]; [reflexivity|discriminate].
Defined.

(** C4 as stated fails on duplicate heights. *)
Lemma interpolate_duplicate_height_not_exact :
  let chart := [pt 1 10; pt 1 20] in
  let p := pt 1 20 in
  In p chart /\
  interpolate (height p) chart = JS.of_Z 10 /\
  (interpolate (height p) chart === chartVolume p)%js = false.
Proof. repeat split; [right; now left]. Qed.

(* ------------------------------------------------------------------ *)
(** *** Interpolation within the range of the chart *)
(* ------------------------------------------------------------------ *)

Lemma lerpQ_slope x1 y1 x2 y2 :
  x1 < x2 -> ((y2 - y1) / (x2 - x1)) * (x2 - x1) == y2 - y1.
Proof. intros H. field. lra. Qed.

Lemma lerpQ_between_le x1 y1 x2 y2 t :
  x1 < t -> t < x2 -> y1 <= y2 ->
  y1 <= lerpQ x1 y1 x2 y2 t /\ lerpQ x1 y1 x2 y2 t <= y2.
Proof.
  intros H1 H2 Hy. unfold lerpQ.
  assert (Hd : x1 < x2) by lra.
  pose proof (lerpQ_slope x1 y1 x2 y2 Hd) as Hk.
  set (k := (y2 - y1) / (x2 - x1)) in *.
  assert (0 <= k) by nra.
  split; nra.
Qed.

Lemma lerpQ_between_ge x1 y1 x2 y2 t :
  x1 < t -> t < x2 -> y2 <= y1 ->
  lerpQ x1 y1 x2 y2 t <= y1 /\ y2 <= lerpQ x1 y1 x2 y2 t.
Proof.
  intros H1 H2 Hy. unfold lerpQ.
  assert (Hd : x1 < x2) by lra.
  pose proof (lerpQ_slope x1 y1 x2 y2 Hd) as Hk.
  set (k := (y2 - y1) / (x2 - x1)) in *.
  assert (k <= 0) by nra.
  split; nra.
Qed.

Lemma lerpQ_mono_le x1 y1 x2 y2 t1 t2 :
  x1 < t1 -> t1 <= t2 -> t2 < x2 -> y1 <= y2 ->
  lerpQ x1 y1 x2 y2 t1 <= lerpQ x1 y1 x2 y2 t2.
Proof.
  intros H1 H2 H3 Hy. unfold lerpQ.
  assert (Hd : x1 < x2) by lra.
  pose proof (lerpQ_slope x1 y1 x2 y2 Hd) as Hk.
  set (k := (y2 - y1) / (x2 - x1)) in *.
  assert (0 <= k) by nra.
  nra.
Qed.

Lemma lerpQ_mono_ge x1 y1 x2 y2 t1 t2 :
  x1 < t1 -> t1 <= t2 -> t2 < x2 -> y2 <= y1 ->
  lerpQ x1 y1 x2 y2 t2 <= lerpQ x1 y1 x2 y2 t1.
Proof.
  intros H1 H2 H3 Hy. unfold lerpQ.
  assert (Hd : x1 < x2) by lra.
  pose proof (lerpQ_slope x1 y1 x2 y2 Hd) as Hk.
  set (k := (y2 - y1) / (x2 - x1)) in *.
  assert (k <= 0) by nra.
  nra.
Qed.

Lemma finite_fields p :
  finitePoint p -> height p = JS.Fin (qh p) /\ chartVolume p = JS.Fin (qv p).
Proof.
  unfold finitePoint, qh, qv. intros [H1 H2].
  destruct (height p), (chartVolume p); simpl in *; try discriminate; auto.
Qed.

Lemma interpolate_blend h chart :
  interpolate h chart =
  match find (fun p => (height p >=? h)%js) (sortChart chart),
        find (fun p => (height p <=? h)%js) (rev (sortChart chart)) with
  | Some u, Some lo => blend h u lo
  | _, _ =>
      match sortChart chart with
      | first :: _ => JS.or (chartVolume first) JS.zero
      | [] => JS.zero
      end
  end.
Proof. reflexivity. Qed.

Lemma blend_lerp t u lo :
  finitePoint u -> finitePoint lo -> qh lo < qh u ->
  blend (JS.Fin t) u lo = JS.Fin (lerpQ (qh lo) (qv lo) (qh u) (qv u) t).
Proof.
  intros Hu Hlo Hlt.
  destruct (finite_fields u Hu) as [Eh Ev], (finite_fields lo Hlo) as [Eh' Ev'].
  unfold blend. rewrite Eh, Ev, Eh', Ev'.
  unfold JS.seq, JS.sub, JS.div, JS.mul, JS.add.
  assert (Qeq_bool (qh u) (qh lo) = false) as ->.
  { destruct (Qeq_bool (qh u) (qh lo)) eqn:E; [|reflexivity].
    apply Qeq_bool_iff in E. lra. }
  assert (Qeq_bool (qh u - qh lo) 0 = false) as ->.
  { destruct (Qeq_bool (qh u - qh lo) 0) eqn:E; [|reflexivity].
    apply Qeq_bool_iff in E. lra. }
  reflexivity.
Qed.

Lemma blend_same_height h u lo :
  (height u === height lo)%js = true -> blend h u lo = chartVolume u.
Proof. unfold blend. now intros ->. Qed.

Lemma heightLe_Q p q : finitePoint p -> finitePoint q -> heightLe p q -> qh p <= qh q.
Proof.
  intros Hp Hq. unfold heightLe.
  rewrite (proj1 (finite_fields p Hp)), (proj1 (finite_fields q Hq)), leb_Fin.
  apply Qle_bool_iff.
Qed.

Section Walk.
Variable t : Q.

Lemma above_Q p : finitePoint p -> atOrAbove t p = Qle_bool t (qh p).
Proof.
  intros Hp. unfold atOrAbove, JS.geb. now rewrite (proj1 (finite_fields p Hp)).
Qed.

Lemma below_Q p : finitePoint p -> atOrBelow t p = Qle_bool (qh p) t.
Proof.
  intros Hp. unfold atOrBelow. now rewrite (proj1 (finite_fields p Hp)).
Qed.

(** A point at the target height heads the list: it is the upper
    neighbour, and the lower neighbour has the same height. *)
Lemma neighbours_at_knot q rest :
  finiteChart (q :: rest) -> StronglySorted heightLe (q :: rest) ->
  qh q == t ->
  find (atOrAbove t) (q :: rest) = Some q /\
  exists lo, find (atOrBelow t) (rev (q :: rest)) = Some lo /\
             (height q === height lo)%js = true.
Proof.
  intros Hfin Hs Hq.
  assert (Hfq : finitePoint q) by now inversion Hfin.
  assert (Ha : atOrAbove t q = true).
  { rewrite above_Q by assumption. apply Qle_bool_iff. lra. }
  assert (Hb : atOrBelow t q = true).
  { rewrite below_Q by assumption. apply Qle_bool_iff. lra. }
  split; [simpl; now rewrite Ha|].
  destruct (find_is_Some _ (atOrBelow t) (rev (q :: rest)) q) as [lo Hlo];
    [apply -> in_rev; now left|exact Hb|].
  exists lo. split; [exact Hlo|].
  destruct (find_some _ _ Hlo) as [Hin Hle].
  apply in_rev in Hin.
  assert (Hflo : finitePoint lo).
  { unfold finiteChart in Hfin. rewrite Forall_forall in Hfin. auto. }
  apply leb_antisym.
  - destruct (find_last_sorted _ (atOrBelow t) heightLe _ _ q Hs Hlo) as [->|H];
      auto; [now left|]. apply leb_refl.
    now rewrite (proj1 (finite_fields q Hfq)).
  - rewrite below_Q in Hle by assumption. apply Qle_bool_iff in Hle.
    rewrite (proj1 (finite_fields q Hfq)), (proj1 (finite_fields lo Hflo)), leb_Fin.
    apply Qle_bool_iff. lra.
Qed.

(** Every point is over the target: there is no lower neighbour. *)
Lemma no_lower_neighbour q rest :
  finiteChart (q :: rest) -> StronglySorted heightLe (q :: rest) ->
  t < qh q -> find (atOrBelow t) (rev (q :: rest)) = None.
Proof.
  intros Hfin Hs Hq. apply find_all_false. intros x Hx. apply in_rev in Hx.
  unfold finiteChart in Hfin. rewrite Forall_forall in Hfin.
  rewrite below_Q by auto.
  destruct (Qle_bool (qh x) t) eqn:E; [|reflexivity].
  apply Qle_bool_iff in E.
  assert (qh q <= qh x); [|lra].
  destruct Hx as [<-|Hx]; [lra|].
  apply heightLe_Q; auto using in_eq, in_cons.
  inversion Hs as [|? ? _ Hall]; subst. rewrite Forall_forall in Hall. auto.
Qed.

Lemma walk_spec rest : forall prev,
  finiteChart (prev :: rest) -> StronglySorted heightLe (prev :: rest) ->
  qh prev < t -> (exists q, In q rest /\ t <= qh q) ->
  exists u,
    find (atOrAbove t) rest = Some u /\
    blend (JS.Fin t) u
      (match find (atOrBelow t) (rev rest) with Some lo => lo | None => prev end)
    = JS.Fin (segments t prev rest).
Proof.
  induction rest as [|q rest IH]; intros prev Hfin Hs Hprev [w [Hw Htw]];
    [destruct Hw|].
  assert (Hfp : finitePoint prev) by now inversion Hfin.
  assert (Hfin' : finiteChart (q :: rest)) by now inversion Hfin.
  assert (Hs' : StronglySorted heightLe (q :: rest)) by now inversion Hs.
  assert (Hfq : finitePoint q) by now inversion Hfin'.
  cbn [segments].
  destruct (JS.Qlt_bool (qh q) t) eqn:Elt.
  - apply Qlt_bool_iff in Elt.
    destruct (IH q Hfin' Hs' Elt) as (u & Hu & Hb).
    { destruct Hw as [<-|Hw]; [lra|eauto]. }
    exists u. split.
    + cbn [find]. rewrite above_Q by assumption.
      assert (Qle_bool t (qh q) = false) as ->; [|exact Hu].
      destruct (Qle_bool t (qh q)) eqn:E; [|reflexivity].
      apply Qle_bool_iff in E. lra.
    + rewrite find_rev_cons, <- Hb.
      destruct (find (atOrBelow t) (rev rest)); [reflexivity|].
      rewrite below_Q by assumption.
      assert (Qle_bool (qh q) t = true) as ->; [|reflexivity].
      apply Qle_bool_iff. lra.
  - apply Qlt_bool_false_iff in Elt.
    destruct (Qeq_bool (qh q) t) eqn:Eeq.
    + apply Qeq_bool_iff in Eeq.
      destruct (neighbours_at_knot q rest Hfin' Hs' Eeq) as (Hu & lo & Hlo & Hsame).
      exists q. split; [exact Hu|]. rewrite Hlo.
      rewrite blend_same_height by assumption.
      apply (finite_fields q Hfq).
    + apply Qeq_bool_neq in Eeq.
      assert (Hgt : t < qh q).
      { apply Qle_lt_or_eq in Elt. destruct Elt as [H|H]; [exact H|].
        exfalso. apply Eeq. now symmetry. }
      exists q. split.
      * cbn [find]. rewrite above_Q by assumption.
        assert (Qle_bool t (qh q) = true) as ->; [|reflexivity].
        apply Qle_bool_iff. lra.
      * rewrite (no_lower_neighbour q rest Hfin' Hs' Hgt).
        apply blend_lerp; auto. lra.
Qed.

(** On a finite chart in ascending order and a target within its range,
    [interpolate] is the piecewise-linear function. *)
Lemma interpolate_piecewise chart :
  finiteChart chart -> StronglySorted heightLe chart ->
  (exists p, In p chart /\ qh p <= t) ->
  (exists q, In q chart /\ t <= qh q) ->
  interpolate (JS.Fin t) chart = JS.Fin (piecewise t chart).
Proof.
  intros Hfin Hs [p [Hp Hpt]] [w [Hw Hwt]].
  rewrite interpolate_blend.
  rewrite (sortChart_sorted_id chart) by now apply StronglySorted_Sorted.
  change (fun p => (height p >=? JS.Fin t)%js) with (atOrAbove t).
  change (fun p => (height p <=? JS.Fin t)%js) with (atOrBelow t).
  destruct chart as [|p0 rest]; [destruct Hp|].
  assert (Hf0 : finitePoint p0) by now inversion Hfin.
  assert (H0 : qh p0 <= t).
  { destruct Hp as [<-|Hp]; [exact Hpt|].
    apply Qle_trans with (qh p); [|exact Hpt].
    unfold finiteChart in Hfin. rewrite Forall_forall in Hfin.
    apply heightLe_Q; auto using in_eq, in_cons.
    inversion Hs as [|? ? _ Hall]; subst. rewrite Forall_forall in Hall. auto. }
  cbn [piecewise].
  destruct (Qeq_bool (qh p0) t) eqn:Eeq.
  - apply Qeq_bool_iff in Eeq.
    destruct (neighbours_at_knot p0 rest Hfin Hs Eeq) as (Hu & lo & Hlo & Hsame).
    rewrite Hu, Hlo, blend_same_height by assumption.
    apply (finite_fields p0 Hf0).
  - apply Qeq_bool_neq in Eeq.
    assert (Hlt : qh p0 < t).
    { apply Qle_lt_or_eq in H0. destruct H0 as [H|H]; [exact H|contradiction]. }
    destruct (walk_spec rest p0 Hfin Hs Hlt) as (u & Hu & Hb).
    { destruct Hw as [<-|Hw]; [lra|eauto]. }
    rewrite find_rev_cons. cbn [find]. rewrite above_Q by assumption.
    assert (Qle_bool t (qh p0) = false) as ->.
    { destruct (Qle_bool t (qh p0)) eqn:E; [|reflexivity].
      apply Qle_bool_iff in E. lra. }
    rewrite Hu, <- Hb.
    destruct (find (atOrBelow t) (rev rest)); [reflexivity|].
    rewrite below_Q by assumption.
    assert (Qle_bool (qh p0) t = true) as ->; [|reflexivity].
    apply Qle_bool_iff. lra.
Qed.

End Walk.

Ltac split_head q t :=
  let Elt := fresh "Elt" in
  let Eeq := fresh "Eeq" in
  destruct (JS.Qlt_bool (qh q) t) eqn:Elt;
  [apply Qlt_bool_iff in Elt
  |apply Qlt_bool_false_iff in Elt;
   destruct (Qeq_bool (qh q) t) eqn:Eeq;
   [apply Qeq_bool_iff in Eeq|apply Qeq_bool_neq in Eeq]].

(** Monotonicity of the piecewise-linear function, for volumes ordered by
    [R] along the chart: [R] is [<=] for non-decreasing volumes and its
    converse for non-increasing ones. *)
Section Monotone.
Variable R : Q -> Q -> Prop.
Hypothesis R_refl : forall y, R y y.
Hypothesis R_trans : forall a b c, R a b -> R b c -> R a c.
Hypothesis R_between : forall x1 y1 x2 y2 t,
  x1 < t -> t < x2 -> R y1 y2 ->
  R y1 (lerpQ x1 y1 x2 y2 t) /\ R (lerpQ x1 y1 x2 y2 t) y2.
Hypothesis R_mono : forall x1 y1 x2 y2 t1 t2,
  x1 < t1 -> t1 <= t2 -> t2 < x2 -> R y1 y2 ->
  R (lerpQ x1 y1 x2 y2 t1) (lerpQ x1 y1 x2 y2 t2).

Lemma segments_lower_bound t rest : forall prev,
  StronglySorted heightQLe (prev :: rest) ->
  StronglySorted (volumeR R) (prev :: rest) ->
  qh prev < t -> (exists q, In q rest /\ t <= qh q) ->
  R (qv prev) (segments t prev rest).
Proof.
  induction rest as [|q rest IH]; intros prev Hh Hv Hprev [w [Hw Htw]];
    [destruct Hw|].
  assert (Hh' : StronglySorted heightQLe (q :: rest)) by now inversion Hh.
  assert (Hv' : StronglySorted (volumeR R) (q :: rest)) by now inversion Hv.
  assert (Hpq : R (qv prev) (qv q)).
  { inversion Hv as [|? ? _ Hall]; subst. now inversion Hall. }
  cbn [segments]. split_head q t.
  - apply R_trans with (qv q); [exact Hpq|]. apply IH; auto.
    destruct Hw as [<-|Hw]; [lra|eauto].
  - exact Hpq.
  - apply R_between; auto. lra.
Qed.

Lemma segments_monotone t1 t2 rest : forall prev,
  StronglySorted heightQLe (prev :: rest) ->
  StronglySorted (volumeR R) (prev :: rest) ->
  qh prev < t1 -> t1 <= t2 -> (exists q, In q rest /\ t2 <= qh q) ->
  R (segments t1 prev rest) (segments t2 prev rest).
Proof.
  induction rest as [|q rest IH]; intros prev Hh Hv Hprev Ht [w [Hw Htw]];
    [destruct Hw|].
  assert (Hh' : StronglySorted heightQLe (q :: rest)) by now inversion Hh.
  assert (Hv' : StronglySorted (volumeR R) (q :: rest)) by now inversion Hv.
  assert (Hpq : R (qv prev) (qv q)).
  { inversion Hv as [|? ? _ Hall]; subst. now inversion Hall. }
  assert (Hrest : qh q < t2 -> exists q', In q' rest /\ t2 <= qh q').
  { intros Hq. destruct Hw as [<-|Hw]; [lra|eauto]. }
  cbn [segments]. split_head q t1; split_head q t2; try (exfalso; lra).
  - apply IH; auto.
  - apply segments_lower_bound; auto.
  - apply R_refl.
  - apply R_trans with (qv q).
    + apply R_between; auto. lra.
    + apply segments_lower_bound; auto.
  - apply R_between; auto. lra.
  - apply R_mono; auto. lra.
Qed.

Lemma piecewise_monotone t1 t2 chart :
  StronglySorted heightQLe chart -> StronglySorted (volumeR R) chart ->
  (exists p, In p chart /\ qh p <= t1) -> t1 <= t2 ->
  (exists q, In q chart /\ t2 <= qh q) ->
  R (piecewise t1 chart) (piecewise t2 chart).
Proof.
  intros Hh Hv [p [Hp Hpt]] Ht [w [Hw Htw]].
  destruct chart as [|p0 rest]; [destruct Hp|].
  assert (H0 : qh p0 <= t1).
  { destruct Hp as [<-|Hp]; [exact Hpt|].
    apply Qle_trans with (qh p); [|exact Hpt].
    inversion Hh as [|? ? _ Hall]; subst. rewrite Forall_forall in Hall.
    now apply Hall. }
  assert (Hrest : qh p0 < t2 -> exists q', In q' rest /\ t2 <= qh q').
  { intros Hq. destruct Hw as [<-|Hw]; [lra|eauto]. }
  cbn [piecewise].
  destruct (Qeq_bool (qh p0) t1) eqn:E1;
    [apply Qeq_bool_iff in E1|apply Qeq_bool_neq in E1];
    (destruct (Qeq_bool (qh p0) t2) eqn:E2;
     [apply Qeq_bool_iff in E2|apply Qeq_bool_neq in E2]).
  - apply R_refl.
  - apply segments_lower_bound; auto; [|apply Hrest]; lra.
  - exfalso. lra.
  - apply segments_monotone; auto; [|apply Hrest]; lra.
Qed.

End Monotone.

Lemma StronglySorted_weaken (A : Type) (R R' : A -> A -> Prop) (l : list A) :
  (forall x y, In x l -> In y l -> R x y -> R' x y) ->
  StronglySorted R l -> StronglySorted R' l.
Proof.
  intros Himp Hs. induction Hs as [|a l Hs IH Hall]; constructor.
  - apply IH. intros x y Hx Hy. apply Himp; now right.
  - rewrite Forall_forall in *. intros x Hx.
    apply Himp; [now left|now right|now apply Hall].
Qed.

Lemma volumeLe_trans p q r : volumeLe p q -> volumeLe q r -> volumeLe p r.
Proof. apply leb_trans. Qed.

Lemma volumeGe_trans p q r : volumeGe p q -> volumeGe q r -> volumeGe p r.
Proof. unfold volumeGe, JS.geb. intros H1 H2. now apply leb_trans with (chartVolume q). Qed.

(** The piecewise-linear function through a chart of monotonic volumes is
    monotonic from the first height of the chart to the last. *)
Lemma piecewise_order chart t1 t2 :
  finiteChart chart -> StronglySorted heightLe chart ->
  (exists p, In p chart /\ qh p <= t1) -> t1 <= t2 ->
  (exists q, In q chart /\ t2 <= qh q) ->
  (volumesNondecreasing chart -> piecewise t1 chart <= piecewise t2 chart) /\
  (volumesNonincreasing chart -> piecewise t2 chart <= piecewise t1 chart).
Proof.
  intros Hfin Hs Hlo Hle Hhi.
  assert (HsQ : StronglySorted heightQLe chart).
  { revert Hs. apply StronglySorted_weaken. intros x y Hx Hy.
    unfold finiteChart in Hfin. rewrite Forall_forall in Hfin.
    apply heightLe_Q; auto. }
  unfold finiteChart in Hfin. rewrite Forall_forall in Hfin.
  split; intros Hvol.
  - apply (piecewise_monotone Qle); auto using Qle_refl, lerpQ_between_le, lerpQ_mono_le.
    + intros a b c. apply Qle_trans.
    + apply Sorted_StronglySorted in Hvol; [|intros p q r; apply volumeLe_trans].
      revert Hvol. apply StronglySorted_weaken. intros x y Hx Hy.
      unfold volumeLe, volumeR.
      rewrite (proj2 (finite_fields x (Hfin x Hx))),
              (proj2 (finite_fields y (Hfin y Hy))), leb_Fin.
      apply Qle_bool_iff.
  - apply (piecewise_monotone (fun a b => b <= a)); auto using Qle_refl.
    + intros a b c H1 H2. now apply Qle_trans with b.
    + intros. split; now apply lerpQ_between_ge.
    + intros. now apply lerpQ_mono_ge.
    + apply Sorted_StronglySorted in Hvol; [|intros p q r; apply volumeGe_trans].
      revert Hvol. apply StronglySorted_weaken. intros x y Hx Hy.
      unfold volumeGe, volumeR, JS.geb.
      rewrite (proj2 (finite_fields x (Hfin x Hx))),
              (proj2 (finite_fields y (Hfin y Hy))), leb_Fin.
      apply Qle_bool_iff.
Qed.

(** Under every height of a chart in ascending order, [interpolate] falls
    back on the volume of its first point. *)
Lemma interpolate_below_range h p0 rest :
  finiteChart (p0 :: rest) -> sortedByHeight (p0 :: rest) ->
  belowRange h (p0 :: rest) ->
  exists v, interpolate h (p0 :: rest) = JS.Fin v /\ v == qv p0.
Proof.
  intros Hfin Hsorted Hbelow.
  rewrite interpolate_fallback, (sortChart_sorted_id _ Hsorted).
  - assert (Hp0 : finitePoint p0) by now inversion Hfin.
    rewrite (proj2 (finite_fields p0 Hp0)). unfold JS.or, JS.truthy, JS.zero.
    destruct (Qeq_bool (qv p0) 0) eqn:E; cbn [negb].
    + exists 0. split; [reflexivity|]. apply Qeq_bool_iff in E. now symmetry.
    + exists (qv p0). split; reflexivity.
  - right. apply find_all_false. intros x Hx.
    rewrite <- in_rev, sortChart_In in Hx. apply ltb_not_geb. now apply Hbelow.
Qed.

(** The first point of a chart in ascending order has the lowest height. *)
Lemma first_height_lowest p0 rest p :
  finiteChart (p0 :: rest) -> StronglySorted heightLe (p0 :: rest) ->
  In p (p0 :: rest) -> qh p0 <= qh p.
Proof.
  intros Hfin Hs [<-|Hp]; [apply Qle_refl|].
  unfold finiteChart in Hfin. rewrite Forall_forall in Hfin.
  apply heightLe_Q; auto using in_eq, in_cons.
  inversion Hs as [|? ? _ Hall]; subst. rewrite Forall_forall in Hall. auto.
Qed.


Lemma rampChart_finite : finiteChart rampChart.
Proof. repeat constructor. Qed.

Lemma rampChart_sorted : sortedByHeight rampChart.
Proof. repeat constructor. Qed.



(* ------------------------------------------------------------------ *)
(** *** Delivery validation *)
(* ------------------------------------------------------------------ *)

Lemma delivery_loop chart rest : forall pre a acc,
  forIndices (deliveryStep (pre ++ a :: rest) chart)
    (List.seq (S (List.length pre)) (List.length rest)) acc
  = Ok (acc ++ map (recordOf chart) (filter isDelivery (combine (a :: rest) rest))).
Proof.
  induction rest as [|b rest IH]; intros pre a acc.
  - simpl. now rewrite app_nil_r.
  - cbn [List.length List.seq forIndices].
    unfold deliveryStep at 1.
    replace (S (List.length pre) - 1)%nat with (List.length pre) by lia.
    rewrite !nth_error_app2 by lia. rewrite Nat.sub_diag.
    replace (S (List.length pre) - List.length pre)%nat with 1%nat by lia.
    cbn [nth_error].
    specialize (IH (pre ++ [a]) b).
    rewrite <- app_assoc in IH. cbn [app] in IH.
    rewrite length_app in IH. cbn [List.length] in IH.
    rewrite Nat.add_1_r in IH.
    change (combine (a :: b :: rest) (b :: rest))
      with ((a, b) :: combine (b :: rest) rest).
    set (later := combine (b :: rest) rest) in *.
    cbn [filter]. unfold isDelivery at 1. cbn [snd].
    change (0 <? S (List.length pre))%nat with true. rewrite andb_true_r.
    destruct (pt_delivery b === JS.zero)%js; cbn [negb bind].
    + apply IH.
    + rewrite IH. cbn [map]. now rewrite <- app_assoc.
Qed.

Lemma delivery_loop_all chart pts :
  forIndices (deliveryStep pts chart)
    (List.seq 1 (List.length pts - 1)) []
  = Ok (expectedRecords chart pts).
Proof.
  destruct pts as [|a rest]; [reflexivity|].
  cbn [List.length]. rewrite Nat.sub_succ, Nat.sub_0_r.
  apply (delivery_loop chart rest [] a []).
Qed.

(** [calculateDeliveryValidation] never throws, and its records are those
    of the deliveries among the consecutive pairs. *)
Lemma calculateDeliveryValidation_records pts chart :
  exists stats,
    calculateDeliveryValidation pts chart =
    Ok {| deliveryData := expectedRecords chart pts; do_stats := stats |}.
Proof.
  unfold calculateDeliveryValidation. rewrite delivery_loop_all. cbn [bind].
  destruct (expectedRecords chart pts) as [|r rs] eqn:E.
  - eexists. reflexivity.
  - cbn [List.length Nat.eqb].
    destruct (fold_left trackDeliveryExtremes (r :: rs) _) as [maxD minD].
    eexists. reflexivity.
Qed.

(** C5. Records of a delivery validation. The validation always returns,
    and its records are, in sequence order, one per consecutive pair of
    readings whose second reading does not report 0, with the height of the
    first reading, the height of the second and the delivery reported by
    the second; pairs whose second reading reports 0 give nothing. On the
    readings (100,0), (200,5000), (400,7300) that is the two records
    (100,200,5000) and (200,400,7300), whatever the chart. *)
Theorem delivery_records_follow_pairs :
  (forall pts chart, exists out,
     calculateDeliveryValidation pts chart = Ok out /\
     map (fun r => (heightBefore r, heightAfter r, reportedDelivery r))
         (deliveryData out)
     = map (fun pair => (pt_height (fst pair), pt_height (snd pair),
                         pt_delivery (snd pair)))
           (filter isDelivery (consecutivePairs pts))) /\
  (forall chart, exists out r1 r2,
     calculateDeliveryValidation [dpt 100 0; dpt 200 5000; dpt 400 7300] chart
     = Ok out /\
     deliveryData out = [r1; r2] /\
     (heightBefore r1, heightAfter r1, reportedDelivery r1)
     = (JS.of_Z 100, JS.of_Z 200, JS.of_Z 5000) /\
     (heightBefore r2, heightAfter r2, reportedDelivery r2)
     = (JS.of_Z 200, JS.of_Z 400, JS.of_Z 7300)).
Proof.
  split.
  - intros pts chart.
    destruct (calculateDeliveryValidation_records pts chart) as [stats H].
    eexists. split; [exact H|]. cbn [deliveryData].
    unfold expectedRecords. rewrite map_map. reflexivity.
  - intros chart.
    destruct (calculateDeliveryValidation_records
                [dpt 100 0; dpt 200 5000; dpt 400 7300] chart) as [stats H].
    do 3 eexists. split; [exact H|]. cbn [deliveryData].
    split; [reflexivity|]. split; reflexivity.
Qed.

Lemma interpolate_empty h : interpolate h [] = JS.zero.
Proof.
  unfold interpolate. cbn. reflexivity.
Qed.

(** C8. The empty chart. [interpolate] on an empty chart is 0 for every
    target; so a delivery validation against an empty chart returns
    normally for any readings (two or more included), and each record it
    emits has a chart-calculated delivery of 0 and a deviation equal to the
    reported delivery. *)
Theorem empty_chart_interpolates_to_zero :
  (forall h, interpolate h [] = JS.zero) /\
  (forall pts, exists out,
     calculateDeliveryValidation pts [] = Ok out /\
     Forall (fun r => chartCalculatedDelivery r = JS.zero /\
                      JS.same (dv_deviation r) (reportedDelivery r))
            (deliveryData out)).
Proof.
  split; [exact interpolate_empty|].
  intros pts.
  destruct (calculateDeliveryValidation_records pts []) as [stats H].
  eexists. split; [exact H|]. cbn [deliveryData].
  unfold expectedRecords. apply Forall_forall. intros r Hr.
  apply in_map_iff in Hr. destruct Hr as (pair & <- & _).
  unfold recordOf. cbn [chartCalculatedDelivery dv_deviation reportedDelivery].
  rewrite !interpolate_empty. split; [reflexivity|].
  apply sub_zero_same.
Qed.

Lemma processDeliveryValidation_points text chart :
  processDeliveryValidation text chart =
  (pts <- deliveryPointsOfFile text ;;
   if (List.length pts <? 2)%nat then Err DeliveryNeedsTwoPoints
   else calculateDeliveryValidation pts chart).
Proof.
  unfold processDeliveryValidation, deliveryPointsOfFile.
  destruct (parseFileContent text) as [parsed|e]; [|reflexivity]. cbn [bind].
  destruct (findHeaders (headers parsed)) as [hm|]; [|reflexivity].
  destruct (deliveryHeader hm) as [d|]; [|reflexivity].
  destruct (Str.isEmpty d); reflexivity.
Qed.

Lemma deliveryPointsOfFile_dispatch text pts chart :
  deliveryPointsOfFile text = Ok pts ->
  processValidationData text chart =
  (r <- processDeliveryValidation text chart ;; Ok (delivery_validation r)).
Proof.
  unfold deliveryPointsOfFile, processValidationData.
  destruct (parseFileContent text) as [parsed|e]; [|discriminate]. cbn [bind].
  destruct (findHeaders (headers parsed)) as [hm|]; [|discriminate].
  destruct (deliveryHeader hm) as [d|]; [|discriminate].
  cbn [truthyStr].
  destruct (Str.isEmpty d); [discriminate|reflexivity].
Qed.

Lemma short_length_ltb (A : Type) (l : list A) :
  (List.length l < 2)%nat -> (List.length l <? 2)%nat = true.
Proof. intros H. now apply Nat.ltb_lt. Qed.

(** C2, with the guard where the code has it. With fewer than two
    readings, the handler of manually entered points fails with
    [DeliveryNeedsTwoPoints], and so do [processDeliveryValidation] and
    [processValidationData] on a delivery file whose normalized readings
    are fewer than two; [calculateDeliveryValidation] itself, called with
    fewer than two readings, returns no record and the all-zero
    statistics. *)
Theorem delivery_validation_short_input chart :
  (forall pts, (List.length pts < 2)%nat ->
     handleManualValidationSubmit pts chart = Err DeliveryNeedsTwoPoints) /\
  (forall text pts, deliveryPointsOfFile text = Ok pts ->
     (List.length pts < 2)%nat ->
     processDeliveryValidation text chart = Err DeliveryNeedsTwoPoints /\
     processValidationData text chart = Err DeliveryNeedsTwoPoints) /\
  (forall pts, (List.length pts < 2)%nat ->
     calculateDeliveryValidation pts chart =
     Ok {| deliveryData := []; do_stats := zeroStats |}).
Proof.
  split; [|split].
  - intros pts H. unfold handleManualValidationSubmit.
    now rewrite short_length_ltb.
  - intros text pts Hpts H.
    assert (Hp : processDeliveryValidation text chart = Err DeliveryNeedsTwoPoints).
    { rewrite processDeliveryValidation_points, Hpts. cbn [bind].
      now rewrite short_length_ltb. }
    split; [exact Hp|].
    rewrite (deliveryPointsOfFile_dispatch text pts chart Hpts), Hp. reflexivity.
  - intros pts H. destruct pts as [|a [|b rest]]; [reflexivity|reflexivity|].
    cbn [List.length] in H. lia.
Qed.

Lemma delivery_validation_short_input_witness :
  handleManualValidationSubmit [dpt 100 0] rampChart = Err DeliveryNeedsTwoPoints /\
  processValidationData shortDeliveryFile rampChart = Err DeliveryNeedsTwoPoints /\
  calculateDeliveryValidation [dpt 100 0] rampChart =
  Ok {| deliveryData := []; do_stats := zeroStats |}.
Proof.
  destruct (delivery_validation_short_input rampChart) as (Hm & Hf & Hc).
  split; [|split].
  - apply Hm. simpl. lia.
  - apply (Hf shortDeliveryFile [dpt 100 0]); [reflexivity|simpl; lia].
  - apply Hc. simpl. lia.
Defined.

(** C2 as stated fails for the direct call of the engine. *)
Lemma calculateDeliveryValidation_accepts_short_input :
  ~ (forall pts chart, (List.length pts < 2)%nat ->
       failed (calculateDeliveryValidation pts chart)).
Proof.
  intros H. destruct (H [] [] ltac:(simpl; lia)) as [e He]. discriminate He.
Qed.

(* ------------------------------------------------------------------ *)
(** *** Resampler, dialect parser and ingest *)
(* ------------------------------------------------------------------ *)

(** From two points on, the resampler always builds a grid. *)
Lemma generateStrappingChartData_grid chart points :
  (2 <= List.length chart)%nat ->
  exists grid,
    generateStrappingChartData chart points = Ok grid /\
    List.length grid = points /\
    Forall (fun p => chartVolume p = interpolate (height p) chart) grid.
Proof.
  intros H. unfold generateStrappingChartData.
  assert (E : (List.length chart <? 2)%nat = false) by now apply Nat.ltb_ge.
  rewrite E.
  pose proof (sortChart_length chart) as Hlen.
  destruct (sortChart chart) as [|first rest] eqn:Es;
    [cbn [List.length] in Hlen; lia|].
  cbn [hd_error].
  destruct (nth_error (first :: rest) (List.length (first :: rest) - 1))
    as [final|] eqn:En.
  - eexists. split; [reflexivity|]. split.
    + now rewrite length_map, length_seq.
    + apply Forall_forall. intros p Hp. apply in_map_iff in Hp.
      destruct Hp as (i & <- & _). reflexivity.
  - apply nth_error_None in En. cbn [List.length] in En. lia.
Qed.

(** C6, with the guard the code has. A chart of fewer than two points is
    returned unchanged. A chart of two points or more, whatever its
    heights, is resampled: the result has exactly [points] points, each
    carrying the interpolated volume of its height. *)
Theorem resampler_guard_counts_points chart points :
  ((List.length chart < 2)%nat ->
   generateStrappingChartData chart points = Ok chart) /\
  ((2 <= List.length chart)%nat ->
   exists grid,
     generateStrappingChartData chart points = Ok grid /\
     List.length grid = points /\
     Forall (fun p => chartVolume p = interpolate (height p) chart) grid).
Proof.
  split; intros H.
  - unfold generateStrappingChartData. apply Nat.ltb_lt in H. now rewrite H.
  - now apply generateStrappingChartData_grid.
Qed.

Lemma resampler_guard_counts_points_witness :
  generateStrappingChartData [pt 1 10] defaultPoints = Ok [pt 1 10] /\
  exists grid,
    generateStrappingChartData flatChart defaultPoints = Ok grid /\
    List.length grid = defaultPoints.
Proof.
  split.
  - apply (resampler_guard_counts_points [pt 1 10] defaultPoints). simpl. lia.
  - destruct (proj2 (resampler_guard_counts_points flatChart defaultPoints))
      as (grid & Hg & Hl & _); [simpl; lia|].
    exists grid. split; assumption.
Defined.

(** C6 as stated fails: two points of one height are resampled. *)
Lemma resampler_resamples_single_height :
  (forall p q, In p flatChart -> In q flatChart ->
               (height p === height q)%js = true) /\
  generateStrappingChartData flatChart defaultPoints <> Ok flatChart.
Proof.
  split.
  - intros p q [<-|[<-|[]]] [<-|[<-|[]]]; reflexivity.
  - destruct (generateStrappingChartData_grid flatChart defaultPoints)
      as (grid & Hg & Hl & _); [simpl; lia|].
    rewrite Hg. intros [= ->]. discriminate Hl.
Qed.

Lemma consHead_nonempty c pieces : Str.consHead c pieces <> [].
Proof. destruct pieces; discriminate. Qed.

Lemma splitLines_nonempty s : Str.splitLines s <> [].
Proof.
  induction s as [|c s IH]; cbn [Str.splitLines]; [discriminate|].
  destruct (Ascii.eqb c Str.LF); [discriminate|].
  destruct (Ascii.eqb c Str.CR && Str.startsWith (Ascii.eqb Str.LF) s);
    [exact IH|apply consHead_nonempty].
Qed.

(** C7. Header detection of the delimited dialect. For a non-blank text
    that is not a tagged table: the first line is taken as a header row
    exactly when one of its delimiter-split fields does not parse as a
    number; then the headers are its trimmed fields and the data rows are
    the lines after it (an error when there is none). Otherwise the headers
    are Height and Volume, no line is consumed, and every line gives one
    row made of its first two fields. The text Height,Volume / 1,100 /
    2,200 is headered with two data rows; the text 1;100 / 2;200 is
    headerless with the synthesized headers. *)
Theorem csv_header_detection :
  (forall text,
     let lines := Str.splitLines (Str.trim text) in
     let delimiter := detectDelimiter lines in
     Str.isEmpty (Str.trim text) = false -> isTaggedTable lines = false ->
     (firstLineIsHeader lines = true <->
      exists field, In field (Str.splitChar delimiter (firstLine lines)) /\
                    JS.isNaN (Str.parseFloat (Str.trim field)) = true) /\
     (firstLineIsHeader lines = true ->
      parseFileContent text =
      if (List.length lines <? 2)%nat then Err CsvNeedsDataRow
      else Ok {| headers := map Str.trim (Str.splitChar delimiter (firstLine lines));
                 data := map (fun line => map parseCell (Str.splitChar delimiter line))
                             (tl lines) |}) /\
     (firstLineIsHeader lines = false ->
      exists rows,
        parseFileContent text = Ok {| headers := ["Height"; "Volume"]%string;
                                      data := rows |} /\
        rows = map (fun line => map parseCell (firstn 2 (Str.splitChar delimiter line)))
                   lines /\
        List.length rows = List.length lines /\
        Forall (fun row => (List.length row <= 2)%nat) rows)) /\
  (firstLineIsHeader (Str.splitLines (Str.trim headeredCsv)) = true /\
   parseFileContent headeredCsv =
   Ok {| headers := ["Height"; "Volume"]%string;
         data := [[CNum (JS.of_Z 1); CNum (JS.of_Z 100)];
                  [CNum (JS.of_Z 2); CNum (JS.of_Z 200)]] |}) /\
  (firstLineIsHeader (Str.splitLines (Str.trim headerlessCsv)) = false /\
   parseFileContent headerlessCsv =
   Ok {| headers := ["Height"; "Volume"]%string;
         data := [[CNum (JS.of_Z 1); CNum (JS.of_Z 100)];
                  [CNum (JS.of_Z 2); CNum (JS.of_Z 200)]] |}).
Proof.
  split; [|split; split; reflexivity].
  intros text lines delimiter Hne Htag. split; [|split].
  - unfold firstLineIsHeader. fold delimiter. apply existsb_exists.
  - intros Hh. unfold parseFileContent. rewrite Hne. fold lines.
    rewrite Htag, Hh. fold delimiter.
    destruct (List.length lines <? 2)%nat; [reflexivity|].
    destruct lines; reflexivity.
  - intros Hh. unfold parseFileContent. rewrite Hne. fold lines.
    rewrite Htag, Hh. fold delimiter.
    assert (Hlen : List.length
              (map (fun line => map parseCell (firstn 2 (Str.splitChar delimiter line)))
                   lines) = List.length lines) by apply length_map.
    assert (Hlines : lines <> []) by apply splitLines_nonempty.
    set (rows := map _ lines) in *.
    exists rows. split; [|split; [reflexivity|split; [exact Hlen|]]].
    + destruct rows; [|reflexivity].
      destruct lines; [contradiction|discriminate Hlen].
    + apply Forall_forall. intros row Hrow. apply in_map_iff in Hrow.
      destruct Hrow as (line & <- & _).
      rewrite length_map, length_firstn. apply Nat.le_min_l.
Qed.

Lemma csv_header_detection_witness :
  exists rows,
    parseFileContent headerlessCsv =
    Ok {| headers := ["Height"; "Volume"]%string; data := rows |} /\
    List.length rows = 2%nat.
Proof.
  destruct (proj1 csv_header_detection headerlessCsv) as (_ & _ & H);
    [reflexivity|reflexivity|].
  destruct (H eq_refl) as (rows & Hp & _ & Hl & _).
  exists rows. split; [exact Hp|exact Hl].
Defined.

(** A mapping without a usable volume header owes its existence to a
    delivery header. *)
Lemma findHeaders_without_volume headerList hm :
  findHeaders headerList = Some hm ->
  truthyStr (volumeHeader hm) = false ->
  truthyStr (deliveryHeader hm) = true.
Proof.
  unfold findHeaders. cbv zeta.
  destruct (find heightRegex headerList) as [hh|]; [|intros H; discriminate H].
  destruct (truthyStr (Some hh) && _) eqn:E; [|intros H; discriminate H].
  intros H. injection H as <-. cbn [volumeHeader deliveryHeader]. intros Hv.
  apply andb_true_iff in E. destruct E as [_ E].
  unfold orStr at 1 in E. now rewrite Hv in E.
Qed.

(** C9. The ingest needs a volume header. Whenever the parsed header row
    resolves no volume header, [processAndAnalyzeData] fails with
    [ColumnsNotDetected]; this includes the header rows for which
    [findHeaders] does return a mapping: such a mapping always rests on a
    height header and a delivery header, as for the file
    Dip,Fuel Delivery / 100,0 / 200,5000. *)
Theorem ingest_requires_volume_header :
  (forall text parsed,
     parseFileContent text = Ok parsed ->
     truthyStr (resolvedVolumeHeader (headers parsed)) = false ->
     processAndAnalyzeData text = Err ColumnsNotDetected) /\
  (forall headerList hm,
     findHeaders headerList = Some hm ->
     truthyStr (volumeHeader hm) = false ->
     truthyStr (deliveryHeader hm) = true) /\
  (exists parsed hm d,
     parseFileContent deliveryOnlyFile = Ok parsed /\
     findHeaders (headers parsed) = Some hm /\
     deliveryHeader hm = Some d /\
     volumeHeader hm = None /\
     processAndAnalyzeData deliveryOnlyFile = Err ColumnsNotDetected).
Proof.
  split; [|split].
  - intros text parsed Hp Hv. unfold processAndAnalyzeData.
    rewrite Hp. cbn [bind]. unfold resolvedVolumeHeader in Hv.
    destruct (findHeaders (headers parsed)) as [hm|]; [|reflexivity].
    destruct (volumeHeader hm) as [v|]; [|reflexivity].
    cbn [truthyStr] in Hv. apply negb_false_iff in Hv. now rewrite Hv.
  - exact findHeaders_without_volume.
  - do 3 eexists. repeat split; reflexivity.
Qed.

Lemma ingest_requires_volume_header_witness :
  processAndAnalyzeData deliveryOnlyFile = Err ColumnsNotDetected.
Proof.
  apply (proj1 ingest_requires_volume_header deliveryOnlyFile
           {| headers := ["Dip"; "Fuel Delivery"]%string;
              data := [[CNum (JS.of_Z 100); CNum (JS.of_Z 0)];
                       [CNum (JS.of_Z 200); CNum (JS.of_Z 5000)]] |});
    reflexivity.
Defined.

(* ------------------------------------------------------------------ *)
(** *** Statistics aggregator *)
(* ------------------------------------------------------------------ *)

Lemma asNumbers_valid data :
  asNumbers (filter isValidDeviation (map deviation data)) =
  map devOf (validRecords data).
Proof.
  induction data as [|d data IH]; [reflexivity|].
  unfold validRecords, hasDeviation, devOf in *. cbn [map filter].
  destruct (deviation d) as [v|] eqn:E; cbn [isValidDeviation]; [|exact IH].
  destruct (JS.isNaN v); cbn [negb]; [exact IH|].
  cbn [map]. rewrite E, <- IH. reflexivity.
Qed.

Lemma trackExtremes_invalid acc d :
  hasDeviation d = false -> trackExtremes acc d = acc.
Proof.
  unfold hasDeviation, trackExtremes. destruct acc as [maxD minD].
  destruct (deviation d) as [v|]; cbn [isValidDeviation]; [|reflexivity].
  now intros ->.
Qed.

Lemma trackExtremes_valid maxD minD d :
  hasDeviation d = true ->
  trackExtremes (maxD, minD) d =
  (if (devOf d >? dp_value maxD)%js then pointOf d else maxD,
   if (devOf d <? dp_value minD)%js then pointOf d else minD).
Proof.
  unfold hasDeviation, trackExtremes, pointOf, devOf.
  destruct (deviation d) as [v|]; cbn [isValidDeviation]; [|discriminate].
  now intros ->.
Qed.

Lemma fold_extremes_valid data : forall acc,
  fold_left trackExtremes data acc =
  fold_left trackExtremes (validRecords data) acc.
Proof.
  induction data as [|d data IH]; intros acc; [reflexivity|].
  unfold validRecords in *. cbn [fold_left filter].
  destruct (hasDeviation d) eqn:E; cbn [fold_left].
  - apply IH.
  - rewrite trackExtremes_invalid by assumption. apply IH.
Qed.

Lemma validRecords_idem data : validRecords (validRecords data) = validRecords data.
Proof.
  unfold validRecords. induction data as [|d data IH]; [reflexivity|].
  cbn [filter]. destruct (hasDeviation d) eqn:E; [|exact IH].
  cbn [filter]. now rewrite E, IH.
Qed.

Lemma calculateStats_valid data :
  calculateStats data = calculateStats (validRecords data).
Proof.
  unfold calculateStats.
  rewrite !asNumbers_valid, validRecords_idem.
  now rewrite (fold_extremes_valid data), (fold_extremes_valid (validRecords data)),
    validRecords_idem.
Qed.

Lemma valid_not_NaN d : hasDeviation d = true -> JS.isNaN (devOf d) = false.
Proof.
  unfold hasDeviation, devOf. destruct (deviation d) as [v|]; cbn [isValidDeviation].
  - now rewrite negb_true_iff.
  - discriminate.
Qed.

Lemma not_above_NegInf a :
  JS.isNaN a = false -> (a >? JS.NegInf)%js = false -> a = JS.NegInf.
Proof. now destruct a. Qed.

Lemma not_below_PosInf a :
  JS.isNaN a = false -> (a <? JS.PosInf)%js = false -> a = JS.PosInf.
Proof. now destruct a. Qed.

(** The two extremes after the [forEach] over valid records: each is still
    its start point, every deviation being the start value, or it is taken
    from the earliest record that no record is beyond. *)
Lemma fold_extremes_earliest l :
  Forall (fun d => hasDeviation d = true) l ->
  let maxD := fst (fold_left trackExtremes l initialExtremes) in
  let minD := snd (fold_left trackExtremes l initialExtremes) in
  (Forall (fun d => devOf d = JS.NegInf) l /\ maxD = startPoint JS.NegInf \/
   earliestExtreme JS.gtb l maxD /\ (dp_value maxD >? JS.NegInf)%js = true) /\
  (Forall (fun d => devOf d = JS.PosInf) l /\ minD = startPoint JS.PosInf \/
   earliestExtreme JS.ltb l minD /\ (dp_value minD <? JS.PosInf)%js = true).
Proof.
  induction l as [|x l IH] using rev_ind; intros Hval.
  { cbn. split; left; split; constructor. }
  rewrite fold_left_app. cbn [fold_left].
  apply Forall_app in Hval. destruct Hval as [Hval Hx].
  inversion Hx as [|? ? Hvx _]; subst.
  pose proof (valid_not_NaN x Hvx) as Hnx.
  assert (Hnl : forall z, In z l -> JS.isNaN (devOf z) = false).
  { intros z Hz. apply valid_not_NaN. rewrite Forall_forall in Hval. now apply Hval. }
  specialize (IH Hval). cbv zeta in IH. destruct IH as [Hmax Hmin].
  destruct (fold_left trackExtremes l initialExtremes) as [maxD minD].
  cbn [fst snd] in *.
  rewrite trackExtremes_valid by assumption. cbn [fst snd].
  split.
  - destruct Hmax as [[Hall ->] | [(pre & d & post & El & -> & Hpre & Hpost) Hd]].
    + cbn [startPoint dp_value].
      destruct (devOf x >? JS.NegInf)%js eqn:E.
      * right. split; [|exact E].
        exists l, x, []. repeat split; [|intros ? []].
        intros z Hz. rewrite Forall_forall in Hall. now rewrite (Hall z Hz).
      * left. split; [|reflexivity].
        apply Forall_app. split; [exact Hall|].
        constructor; [|constructor]. now apply not_above_NegInf.
    + right. cbn [pointOf dp_value] in *.
      assert (Hnd : JS.isNaN (devOf d) = false).
      { apply Hnl. rewrite El. apply in_elt. }
      destruct (devOf x >? devOf d)%js eqn:E.
      * split; [|unfold JS.gtb in *; now apply ltb_trans with (devOf d)].
        exists l, x, []. repeat split; [|intros ? []].
        intros z Hz. rewrite El in Hz. unfold JS.gtb in *.
        apply in_app_or in Hz. destruct Hz as [Hz|[<-|Hz]].
        -- apply ltb_trans with (devOf d); auto.
        -- exact E.
        -- apply leb_ltb_trans with (devOf d); auto.
           apply Hnl. rewrite El. apply in_or_app. right. now right.
      * split; [|exact Hd].
        exists pre, d, (post ++ [x]). repeat split.
        -- rewrite El, <- app_assoc. reflexivity.
        -- exact Hpre.
        -- intros z Hz. apply in_app_or in Hz. destruct Hz as [Hz|[<-|[]]]; auto.
  - destruct Hmin as [[Hall ->] | [(pre & d & post & El & -> & Hpre & Hpost) Hd]].
    + cbn [startPoint dp_value].
      destruct (devOf x <? JS.PosInf)%js eqn:E.
      * right. split; [|exact E].
        exists l, x, []. repeat split; [|intros ? []].
        intros z Hz. rewrite Forall_forall in Hall. now rewrite (Hall z Hz).
      * left. split; [|reflexivity].
        apply Forall_app. split; [exact Hall|].
        constructor; [|constructor]. now apply not_below_PosInf.
    + right. cbn [pointOf dp_value] in *.
      assert (Hnd : JS.isNaN (devOf d) = false).
      { apply Hnl. rewrite El. apply in_elt. }
      destruct (devOf x <? devOf d)%js eqn:E.
      * split; [|now apply ltb_trans with (devOf d)].
        exists l, x, []. repeat split; [|intros ? []].
        intros z Hz. rewrite El in Hz.
        apply in_app_or in Hz. destruct Hz as [Hz|[<-|Hz]].
        -- apply ltb_trans with (devOf d); auto.
        -- exact E.
        -- apply ltb_leb_trans with (devOf d); auto.
           apply Hnl. rewrite El. apply in_or_app. right. now right.
      * split; [|exact Hd].
        exists pre, d, (post ++ [x]). repeat split.
        -- rewrite El, <- app_assoc. reflexivity.
        -- exact Hpre.
        -- intros z Hz. apply in_app_or in Hz. destruct Hz as [Hz|[<-|[]]]; auto.
Qed.

Lemma validRecords_all_valid data :
  Forall (fun d => hasDeviation d = true) (validRecords data).
Proof.
  apply Forall_forall. intros d Hd. now apply filter_In in Hd.
Qed.

Lemma earliestExtreme_member beyond l P :
  earliestExtreme beyond l P -> exists d, In d l /\ P = pointOf d.
Proof.
  intros (pre & d & post & -> & -> & _). exists d. split; [apply in_elt|reflexivity].
Qed.

(** C10, with the start values of the extremes. With [valid] the records
    whose deviation is present and not NaN, in input order: the count is
    the length of [valid]; the statistics of the data are those of [valid]
    alone; they are the all-zero record when [valid] is empty; otherwise
    the average is the sum of the deviations of [valid], added from 0 in
    input order, over their number. As soon as one deviation is over minus
    infinity, the maximum is the height and deviation of the earliest
    record of [valid] that no record exceeds: every earlier record is
    strictly under it. When every deviation is minus infinity the maximum
    stays its start point, of height and value minus infinity, which no
    record supplies. The minimum likewise, with plus infinity. *)
Theorem stats_over_valid_deviations data :
  let valid := validRecords data in
  let stats := calculateStats data in
  totalMeasurements stats = List.length valid /\
  stats = calculateStats valid /\
  (valid = [] -> stats = zeroStats) /\
  (valid <> [] ->
   averageDeviation stats
   = (fold_left JS.add (map devOf valid) JS.zero
      / JS.of_nat (List.length valid))%js) /\
  (Exists (fun d => (devOf d >? JS.NegInf)%js = true) valid ->
   earliestExtreme JS.gtb valid (maxDeviation stats)) /\
  (Exists (fun d => (devOf d <? JS.PosInf)%js = true) valid ->
   earliestExtreme JS.ltb valid (minDeviation stats)) /\
  (valid <> [] -> Forall (fun d => devOf d = JS.NegInf) valid ->
   maxDeviation stats = startPoint JS.NegInf) /\
  (valid <> [] -> Forall (fun d => devOf d = JS.PosInf) valid ->
   minDeviation stats = startPoint JS.PosInf).
Proof.
  intros valid stats.
  assert (Hs : stats = calculateStats valid) by apply calculateStats_valid.
  assert (Hunf : stats =
    if (List.length valid =? 0)%nat then zeroStats
    else
      {| totalMeasurements := List.length valid;
         averageDeviation :=
           (fold_left JS.add (map devOf valid) JS.zero
            / JS.of_nat (List.length valid))%js;
         maxDeviation := fst (fold_left trackExtremes valid initialExtremes);
         minDeviation := snd (fold_left trackExtremes valid initialExtremes) |}).
  { unfold stats, calculateStats. rewrite asNumbers_valid, length_map.
    fold valid. rewrite (fold_extremes_valid data). fold valid.
    destruct (List.length valid =? 0)%nat; [reflexivity|].
    change ({| dp_height := JS.NegInf; dp_value := JS.NegInf |},
            {| dp_height := JS.PosInf; dp_value := JS.PosInf |})
      with initialExtremes.
    destruct (fold_left trackExtremes valid initialExtremes). reflexivity. }
  assert (Hne0 : valid <> [] -> (List.length valid =? 0)%nat = false).
  { destruct valid; [congruence|reflexivity]. }
  pose proof (fold_extremes_earliest valid (validRecords_all_valid data)) as Hext.
  cbv zeta in Hext. destruct Hext as [Hmax Hmin].
  assert (Hsome : forall (P : ProcessedData -> Prop), Exists P valid -> valid <> []).
  { intros P HP ->. inversion HP. }
  split; [|split; [exact Hs|split; [|split; [|split; [|split; [|split]]]]]].
  - rewrite Hunf. destruct valid as [|v vs]; reflexivity.
  - intros E. rewrite Hunf, E. reflexivity.
  - intros Hne. rewrite Hunf, (Hne0 Hne). reflexivity.
  - intros Hex. rewrite Hunf, (Hne0 (Hsome _ Hex)). cbn [maxDeviation].
    destruct Hmax as [[Hall _] | [Hmax _]]; [exfalso|exact Hmax].
    apply Exists_exists in Hex. destruct Hex as (d & Hd & Habove).
    rewrite Forall_forall in Hall. rewrite (Hall d Hd) in Habove. discriminate.
  - intros Hex. rewrite Hunf, (Hne0 (Hsome _ Hex)). cbn [minDeviation].
    destruct Hmin as [[Hall _] | [Hmin _]]; [exfalso|exact Hmin].
    apply Exists_exists in Hex. destruct Hex as (d & Hd & Hbelow).
    rewrite Forall_forall in Hall. rewrite (Hall d Hd) in Hbelow. discriminate.
  - intros Hne Hall. rewrite Hunf, (Hne0 Hne). cbn [maxDeviation].
    destruct Hmax as [[_ E] | [Hmax Habove]]; [exact E|exfalso].
    destruct (earliestExtreme_member _ _ _ Hmax) as (d & Hd & E).
    rewrite Forall_forall in Hall. rewrite E in Habove. cbn [pointOf dp_value] in Habove.
    rewrite (Hall d Hd) in Habove. discriminate.
  - intros Hne Hall. rewrite Hunf, (Hne0 Hne). cbn [minDeviation].
    destruct Hmin as [[_ E] | [Hmin Hbelow]]; [exact E|exfalso].
    destruct (earliestExtreme_member _ _ _ Hmin) as (d & Hd & E).
    rewrite Forall_forall in Hall. rewrite E in Hbelow. cbn [pointOf dp_value] in Hbelow.
    rewrite (Hall d Hd) in Hbelow. discriminate.
Qed.

Lemma stats_over_valid_deviations_witness :
  earliestExtreme JS.gtb (validRecords tiedChecks)
                  (maxDeviation (calculateStats tiedChecks)) /\
  maxDeviation (calculateStats tiedChecks) = pointOf (check 1 (Some (JS.of_Z 5))) /\
  minDeviation (calculateStats tiedChecks) = pointOf (check 5 (Some (JS.of_Z (-2)))) /\
  totalMeasurements (calculateStats tiedChecks) = 4%nat /\
  (averageDeviation (calculateStats tiedChecks) === JS.Fin (3 # 2))%js = true.
Proof.
  destruct (stats_over_valid_deviations tiedChecks) as (_ & _ & _ & _ & Hmax & _).
  split; [apply Hmax; left; reflexivity|]. repeat split.
Defined.

(** C10 as stated fails on a deviation of minus infinity: it is a number,
    the record is counted, and no record supplies the maximum. The ingest
    of a file with such a field volume returns these statistics. *)
Lemma stats_maximum_of_no_record :
  validRecords bottomlessChecks = bottomlessChecks /\
  totalMeasurements (calculateStats bottomlessChecks) = 1%nat /\
  maxDeviation (calculateStats bottomlessChecks) = startPoint JS.NegInf /\
  ~ (exists d, In d bottomlessChecks /\
               maxDeviation (calculateStats bottomlessChecks) = pointOf d) /\
  exists out stats,
    processAndAnalyzeData bottomlessFile = Ok out /\
    in_stats out = Some stats /\
    totalMeasurements stats = 1%nat /\
    maxDeviation stats = startPoint JS.NegInf /\
    ~ (exists d, In d (in_data out) /\ maxDeviation stats = pointOf d).
Proof.
  split; [reflexivity|]. split; [reflexivity|]. split; [reflexivity|]. split.
  - intros (d & [<-|[]] & E). discriminate E.
  - eexists. eexists. split; [vm_compute; reflexivity|].
    split; [reflexivity|]. split; [reflexivity|]. split; [reflexivity|].
    intros (d & [<-|[]] & E). discriminate E.
Qed.

(* ------------------------------------------------------------------ *)
(** *** Dialect parser: failures and shape of the result *)
(* ------------------------------------------------------------------ *)

Lemma trimStart_empty s : Str.isEmpty (Str.trimStart s) = allWhiteSpace s.
Proof.
  induction s as [|c s IH]; [reflexivity|]. cbn [Str.trimStart allWhiteSpace].
  destruct (Str.isWhiteSpace c); [exact IH|reflexivity].
Qed.

(** [trimStart] leaves nothing, or a text that starts with a visible
    character. *)
Lemma trimStart_head s :
  Str.trimStart s = EmptyString \/
  exists c t, Str.trimStart s = String c t /\ Str.isWhiteSpace c = false.
Proof.
  induction s as [|c s IH]; [now left|]. cbn [Str.trimStart].
  destruct (Str.isWhiteSpace c) eqn:E; [exact IH|right; eauto].
Qed.

Lemma trimEnd_visible_head c t :
  Str.isWhiteSpace c = false -> Str.trimEnd (String c t) = String c (Str.trimEnd t).
Proof. intros E. cbn [Str.trimEnd]. now rewrite E. Qed.

Lemma trim_empty s : Str.isEmpty (Str.trim s) = allWhiteSpace s.
Proof.
  unfold Str.trim. rewrite <- trimStart_empty.
  destruct (trimStart_head s) as [->|(c & t & -> & Hc)]; [reflexivity|].
  now rewrite trimEnd_visible_head.
Qed.

Lemma trimEnd_idem s : Str.trimEnd (Str.trimEnd s) = Str.trimEnd s.
Proof.
  induction s as [|c s IH]; [reflexivity|]. cbn [Str.trimEnd].
  destruct (Str.isWhiteSpace c && Str.isEmpty (Str.trimEnd s)) eqn:E; [reflexivity|].
  cbn [Str.trimEnd]. now rewrite IH, E.
Qed.

Lemma trimStart_fixed s :
  (s = EmptyString \/ exists c t, s = String c t /\ Str.isWhiteSpace c = false) ->
  Str.trimStart s = s.
Proof.
  intros [->|(c & t & -> & Hc)]; [reflexivity|]. cbn [Str.trimStart]. now rewrite Hc.
Qed.

Lemma trim_idem s : Str.trim (Str.trim s) = Str.trim s.
Proof.
  unfold Str.trim. rewrite trimStart_fixed; [apply trimEnd_idem|].
  destruct (trimStart_head s) as [->|(c & t & -> & Hc)]; [now left|right].
  rewrite trimEnd_visible_head by assumption. eauto.
Qed.

Lemma splitChar_nonempty d s : Str.splitChar d s <> [].
Proof.
  destruct s as [|c s]; cbn [Str.splitChar]; [discriminate|].
  destruct (Ascii.eqb c d); [discriminate|apply consHead_nonempty].
Qed.

Lemma splitWs_nonempty s : Str.splitWs s <> [].
Proof.
  induction s as [|c s IH]; cbn [Str.splitWs]; [discriminate|].
  destruct (Str.isWhiteSpace c); [|apply consHead_nonempty].
  destruct (Str.startsWith Str.isWhiteSpace s); [exact IH|discriminate].
Qed.

Lemma parseCell_wellFormed field : wellFormedCell (parseCell field).
Proof.
  unfold parseCell.
  destruct (JS.isNaN (Str.parseFloat (Str.trim field))) eqn:E; cbn [wellFormedCell].
  - split; [exact E|apply trim_idem].
  - exact E.
Qed.

Lemma map_nonempty (A B : Type) (f : A -> B) (l : list A) : l <> [] -> map f l <> [].
Proof. destruct l; [contradiction|discriminate]. Qed.

Lemma skipn_nonempty (A : Type) (n : nat) (l : list A) :
  (n < List.length l)%nat -> skipn n l <> [].
Proof.
  intros H E. apply (f_equal (@List.length A)) in E.
  rewrite length_skipn in E. cbn in E. lia.
Qed.

Lemma firstn_nonempty (A : Type) (n : nat) (l : list A) :
  (0 < n)%nat -> l <> [] -> firstn n l <> [].
Proof. destruct n, l; cbn; intros; try lia; try contradiction; discriminate. Qed.

Lemma cells_wellFormedRow (fields : list string) :
  fields <> [] -> wellFormedRow (map parseCell fields).
Proof.
  intros H. split; [now apply map_nonempty|].
  apply Forall_forall. intros c Hc. apply in_map_iff in Hc.
  destruct Hc as (f & <- & _). apply parseCell_wellFormed.
Qed.

Lemma rows_wellFormed (split : string -> list string) (lines : list string) :
  (forall line, split line <> []) ->
  Forall wellFormedRow (map (fun line => map parseCell (split line)) lines).
Proof.
  intros H. apply Forall_forall. intros row Hrow. apply in_map_iff in Hrow.
  destruct Hrow as (line & <- & _). apply cells_wellFormedRow, H.
Qed.

(** X2. Shape of a parsed text. When [parseFileContent] succeeds, the
    list of headers is not empty, there is at least one data row, and every
    data row is not empty and made of cells that are either a number other
    than NaN or a trimmed string that does not parse as a number. *)
Theorem parse_success_shape text parsed :
  parseFileContent text = Ok parsed ->
  headers parsed <> [] /\ data parsed <> [] /\
  Forall wellFormedRow (data parsed).
Proof.
  unfold parseFileContent.
  destruct (Str.isEmpty (Str.trim text)); [discriminate|].
  set (lines := Str.splitLines (Str.trim text)).
  assert (Hlines : lines <> []) by apply splitLines_nonempty.
  destruct (isTaggedTable lines).
  - destruct (List.length lines <? 3)%nat eqn:E; [discriminate|].
    apply Nat.ltb_ge in E. intros [= <-]. cbn [headers data].
    split; [apply map_nonempty, splitWs_nonempty|].
    split; [apply map_nonempty; apply (skipn_nonempty _ 2 lines); lia|].
    apply (rows_wellFormed (fun line => Str.splitWs (Str.trim line))).
    intros line. apply splitWs_nonempty.
  - destruct (firstLineIsHeader lines).
    + destruct (List.length lines <? 2)%nat eqn:E; [discriminate|].
      apply Nat.ltb_ge in E. intros [= <-]. cbn [headers data].
      split; [apply map_nonempty, splitChar_nonempty|].
      split; [apply map_nonempty; apply (skipn_nonempty _ 1 lines); lia|].
      apply (rows_wellFormed (Str.splitChar (detectDelimiter lines))).
      intros line. apply splitChar_nonempty.
    + destruct (List.length (map _ lines) =? 0)%nat; [discriminate|].
      intros [= <-]. cbn [headers data].
      split; [discriminate|]. split; [now apply map_nonempty|].
      apply (rows_wellFormed
               (fun line => firstn 2 (Str.splitChar (detectDelimiter lines) line))).
      intros line. apply firstn_nonempty; [lia|apply splitChar_nonempty].
Qed.

Lemma parse_success_shape_witness :
  exists parsed,
    parseFileContent headeredCsv = Ok parsed /\ data parsed <> [] /\
    Forall wellFormedRow (data parsed).
Proof.
  eexists. split; [reflexivity|].
  eapply (parse_success_shape headeredCsv). reflexivity.
Defined.

(** The parser fails in three ways only: the headerless branch always has
    a row. *)
Lemma parseFileContent_error_kinds text e :
  parseFileContent text = Err e ->
  e = FileContentEmpty \/ e = FusionNeedsHeaderAndRow \/ e = CsvNeedsDataRow.
Proof.
  unfold parseFileContent.
  destruct (Str.isEmpty (Str.trim text)); [intros [= <-]; tauto|].
  set (lines := Str.splitLines (Str.trim text)).
  destruct (isTaggedTable lines).
  - destruct (List.length lines <? 3)%nat; [intros [= <-]; tauto|discriminate].
  - destruct (firstLineIsHeader lines).
    + destruct (List.length lines <? 2)%nat; [intros [= <-]; tauto|discriminate].
    + rewrite length_map.
      destruct (List.length lines =? 0)%nat eqn:E; [|discriminate].
      apply Nat.eqb_eq, length_zero_iff_nil in E.
      now apply splitLines_nonempty in E.
Qed.

(** X1. Failures of the dialect parser. [parseFileContent] fails with
    [FileContentEmpty] exactly when the text is made of white space only;
    with [FusionNeedsHeaderAndRow] exactly when the trimmed text is a
    tagged table of fewer than three lines; with [CsvNeedsDataRow] exactly
    when the trimmed text is a delimited text of a single line and that
    line is a header row. It raises no other error, so its guard on an
    empty list of data rows never fires. *)
Theorem parse_failure_cases text :
  let lines := Str.splitLines (Str.trim text) in
  (parseFileContent text = Err FileContentEmpty <-> allWhiteSpace text = true) /\
  (parseFileContent text = Err FusionNeedsHeaderAndRow <->
   allWhiteSpace text = false /\ isTaggedTable lines = true /\
   (List.length lines < 3)%nat) /\
  (parseFileContent text = Err CsvNeedsDataRow <->
   allWhiteSpace text = false /\ isTaggedTable lines = false /\
   firstLineIsHeader lines = true /\ List.length lines = 1%nat) /\
  (forall e, parseFileContent text = Err e ->
             e = FileContentEmpty \/ e = FusionNeedsHeaderAndRow \/ e = CsvNeedsDataRow).
Proof.
  intros lines. unfold parseFileContent. rewrite trim_empty. fold lines.
  assert (Hlines : lines <> []) by apply splitLines_nonempty.
  assert (Hlen : (List.length lines <> 0)%nat).
  { destruct lines; [contradiction|discriminate]. }
  destruct (allWhiteSpace text).
  { repeat split; try discriminate; try tauto.
    - intros (H & _); discriminate H.
    - intros (H & _); discriminate H.
    - intros e [= <-]. now left. }
  destruct (isTaggedTable lines).
  { destruct (List.length lines <? 3)%nat eqn:E;
      [apply Nat.ltb_lt in E|apply Nat.ltb_ge in E].
    - repeat split; try discriminate; try tauto.
      + intros (_ & H & _); discriminate H.
      + intros e [= <-]. right. now left.
    - repeat split; try discriminate; try tauto.
      + intros (_ & _ & H). lia.
      + intros (_ & H & _); discriminate H. }
  destruct (firstLineIsHeader lines).
  { destruct (List.length lines <? 2)%nat eqn:E;
      [apply Nat.ltb_lt in E|apply Nat.ltb_ge in E].
    - repeat split; try discriminate; try tauto.
      + intros (_ & H & _); discriminate H.
      + lia.
      + intros e [= <-]. right. now right.
    - repeat split; try discriminate; try tauto.
      + intros (_ & H & _); discriminate H.
      + intros (_ & _ & _ & H). lia. }
  rewrite length_map.
  destruct (List.length lines =? 0)%nat eqn:E; [apply Nat.eqb_eq in E; contradiction|].
  repeat split; try discriminate; try tauto.
  - intros (_ & H & _); discriminate H.
  - intros (_ & _ & H & _); discriminate H.
Qed.

(* ------------------------------------------------------------------ *)
(** *** Header detection *)
(* ------------------------------------------------------------------ *)

Lemma indexOf_nonneg h l : (-1 <= indexOf h l)%Z.
Proof.
  induction l as [|x xs IH]; cbn [indexOf]; [lia|].
  destruct (String.eqb x h); [lia|].
  destruct (indexOf h xs =? -1)%Z; lia.
Qed.

Lemma indexOf_absent h l : indexOf h l = (-1)%Z <-> ~ In h l.
Proof.
  induction l as [|x xs IH]; cbn [indexOf In]; [tauto|].
  destruct (String.eqb x h) eqn:E.
  - apply String.eqb_eq in E. split; [discriminate|]. intros Hn. exfalso. auto.
  - apply String.eqb_neq in E.
    destruct (indexOf h xs =? -1)%Z eqn:E1.
    + apply Z.eqb_eq in E1. rewrite E1 in IH. split; [|reflexivity].
      intros _ [Hx|Hx]; [contradiction|]. now apply IH.
    + apply Z.eqb_neq in E1. pose proof (indexOf_nonneg h xs) as Hge.
      split; [lia|]. intros Hn. exfalso. apply E1, IH. tauto.
Qed.

Lemma indexOf_located h l : In h l -> exists k, locatedAt l h k.
Proof.
  unfold locatedAt. induction l as [|x xs IH]; [intros []|].
  intros Hin. cbn [indexOf]. destruct (String.eqb x h) eqn:E.
  - apply String.eqb_eq in E. subst x. exists 0%nat.
    repeat split. intros j Hj. lia.
  - apply String.eqb_neq in E. destruct Hin as [->|Hin]; [contradiction|].
    destruct (IH Hin) as (k & Hk & Hn & Hfirst). exists (S k).
    rewrite Hk. assert ((Z.of_nat k =? -1)%Z = false) as -> by (apply Z.eqb_neq; lia).
    repeat split; [lia|exact Hn|].
    intros [|j] Hj; cbn [nth_error]; [congruence|]. apply Hfirst. lia.
Qed.

(** The four patterns match no empty header. *)
Lemma regex_nonempty (re : string -> bool) h :
  re EmptyString = false -> re h = true -> h <> EmptyString.
Proof. intros H0 Hh ->. congruence. Qed.

Lemma find_headerMatching (re : string -> bool) headerList h :
  re EmptyString = false -> find re headerList = Some h ->
  headerMatching re headerList h.
Proof.
  intros H0 Hf. destruct (find_some _ _ Hf) as [Hin Hre].
  repeat split; auto.
  - now apply (regex_nonempty re).
  - now apply indexOf_located.
Qed.

Lemma truthy_found (re : string -> bool) headerList :
  re EmptyString = false ->
  truthyStr (find re headerList) = true <-> exists h, In h headerList /\ re h = true.
Proof.
  intros H0. destruct (find re headerList) as [h|] eqn:E; cbn [truthyStr].
  - destruct (find_some _ _ E) as [Hin Hre].
    assert (h <> EmptyString) by now apply (regex_nonempty re).
    split; [eauto|]. intros _. destruct h; [contradiction|reflexivity].
  - split; [discriminate|]. intros (h & Hin & Hre).
    pose proof (find_none _ _ E h Hin). congruence.
Qed.

Lemma findHeaders_eq headerList :
  findHeaders headerList =
  match find heightRegex headerList with
  | Some hh =>
      if truthyStr (find heightRegex headerList)
         && truthyStr (orStr (orStr (find plainVolume headerList)
                                    (find volumeRegex headerList))
                             (find deliveryRegex headerList))
      then Some {| heightHeader := hh;
                   volumeHeader := orStr (find plainVolume headerList)
                                         (find volumeRegex headerList);
                   fieldVolumeHeader := find fieldVolumeLike headerList;
                   deliveryHeader := find deliveryRegex headerList |}
      else None
  | None => None
  end.
Proof. reflexivity. Qed.

Lemma orStr_cases a b : orStr a b = a /\ truthyStr a = true \/ orStr a b = b /\ truthyStr a = false.
Proof. unfold orStr. destruct (truthyStr a); auto. Qed.

Lemma volume_resolution headerList v :
  orStr (find plainVolume headerList) (find volumeRegex headerList) = Some v ->
  headerMatching volumeRegex headerList v.
Proof.
  intros H. destruct (orStr_cases (find plainVolume headerList)
                                  (find volumeRegex headerList)) as [[E _]|[E _]];
    rewrite E in H.
  - destruct (find_headerMatching plainVolume headerList v eq_refl H)
      as (Hin & Hre & Hne & Hk).
    repeat split; auto. unfold plainVolume in Hre.
    now apply andb_true_iff in Hre.
  - now apply find_headerMatching.
Qed.

Lemma findHeaders_sound_volume headerList hm :
  findHeaders headerList = Some hm ->
  forall v, volumeHeader hm = Some v -> headerMatching volumeRegex headerList v.
Proof.
  rewrite findHeaders_eq.
  destruct (find heightRegex headerList) as [hh|] eqn:Eh; [|discriminate].
  destruct (truthyStr (Some hh) && _) eqn:E; [|discriminate].
  intros [= <-]. cbn [volumeHeader]. apply volume_resolution.
Qed.

(** X3. What [findHeaders] returns. Every header of a returned mapping
    is a non-empty header of the list that matches the pattern of its role
    (the field-volume header matches the field pattern and the volume
    pattern), and [indexOf] locates it at its first occurrence in the list;
    a mapping always has a volume header or a delivery header. *)
Theorem findHeaders_sound headerList hm :
  findHeaders headerList = Some hm ->
  headerMatching heightRegex headerList (heightHeader hm) /\
  (forall v, volumeHeader hm = Some v -> headerMatching volumeRegex headerList v) /\
  (forall f, fieldVolumeHeader hm = Some f ->
             headerMatching fieldVolumeLike headerList f) /\
  (forall d, deliveryHeader hm = Some d ->
             headerMatching deliveryRegex headerList d) /\
  (volumeHeader hm <> None \/ deliveryHeader hm <> None).
Proof.
  rewrite findHeaders_eq.
  destruct (find heightRegex headerList) as [hh|] eqn:Eh; [|discriminate].
  destruct (truthyStr (Some hh) && _) eqn:E; [|discriminate].
  intros [= <-]. cbn [heightHeader volumeHeader fieldVolumeHeader deliveryHeader].
  split; [now apply find_headerMatching|].
  split; [apply volume_resolution|].
  split; [intros f Hf; now apply find_headerMatching|].
  split; [intros d Hd; now apply find_headerMatching|].
  apply andb_true_iff in E. destruct E as [_ E].
  destruct (orStr_cases (orStr (find plainVolume headerList) (find volumeRegex headerList))
                        (find deliveryRegex headerList)) as [[E1 T]|[E1 T]];
    rewrite E1 in E.
  - left. intros H. rewrite H in E. discriminate.
  - right. intros H. rewrite H in E. discriminate.
Qed.

Lemma findHeaders_sound_witness :
  exists hm,
    findHeaders ["Dip(mm)"; "Chart Volume(L)"; "Field Volume(L)"]%string = Some hm /\
    headerMatching heightRegex ["Dip(mm)"; "Chart Volume(L)"; "Field Volume(L)"]%string
                   (heightHeader hm).
Proof.
  eexists. split; [reflexivity|].
  eapply (findHeaders_sound ["Dip(mm)"; "Chart Volume(L)"; "Field Volume(L)"]%string).
  reflexivity.
Defined.

Lemma truthy_volume_resolution headerList :
  truthyStr (orStr (find plainVolume headerList) (find volumeRegex headerList)) = true
  <-> exists h, In h headerList /\ volumeRegex h = true.
Proof.
  destruct (orStr_cases (find plainVolume headerList) (find volumeRegex headerList))
    as [[E T]|[E T]]; rewrite E.
  - split; [|intros _; exact T]. intros _.
    apply (truthy_found plainVolume headerList eq_refl) in T.
    destruct T as (h & Hin & Hre). exists h. split; [exact Hin|].
    unfold plainVolume in Hre. now apply andb_true_iff in Hre.
  - now apply truthy_found.
Qed.

(** X4. When [findHeaders] returns nothing: exactly when no header
    matches the height pattern, or none matches the volume pattern and none
    the delivery pattern. *)
Theorem findHeaders_none_iff headerList :
  findHeaders headerList = None <->
  noneMatches heightRegex headerList \/
  (noneMatches volumeRegex headerList /\ noneMatches deliveryRegex headerList).
Proof.
  rewrite findHeaders_eq.
  pose proof (truthy_found heightRegex headerList eq_refl) as Hh.
  pose proof (truthy_volume_resolution headerList) as Hv.
  pose proof (truthy_found deliveryRegex headerList eq_refl) as Hd.
  assert (Hnone : forall re, (exists h, In h headerList /\ re h = true) \/
                             noneMatches re headerList).
  { intros re. destruct (find re headerList) as [h|] eqn:E.
    - left. exists h. now apply (find_some _ _ E).
    - right. intros h Hin. now apply (find_none _ _ E). }
  assert (Hex : forall re, noneMatches re headerList ->
                           (exists h, In h headerList /\ re h = true) -> False).
  { intros re Hn (h & Hin & Hre). rewrite (Hn h Hin) in Hre. discriminate. }
  destruct (find heightRegex headerList) as [hh|] eqn:Eh.
  - assert (Th : truthyStr (Some hh) = true) by (apply Hh; destruct (find_some _ _ Eh); eauto).
    rewrite Th. cbn [andb].
    set (vol := orStr (find plainVolume headerList) (find volumeRegex headerList)) in *.
    destruct (orStr_cases vol (find deliveryRegex headerList)) as [[E T]|[E T]];
      rewrite E.
    + rewrite T. split; [discriminate|].
      intros [H|[H _]]; exfalso.
      * apply (Hex _ H). apply Hh. exact Th.
      * apply (Hex _ H). apply Hv. exact T.
    + destruct (truthyStr (find deliveryRegex headerList)) eqn:Td.
      * split; [discriminate|]. intros [H|[_ H]]; exfalso.
        -- apply (Hex _ H). apply Hh. exact Th.
        -- apply (Hex _ H). apply Hd. reflexivity.
      * split; [|reflexivity]. intros _. right. split.
        -- destruct (Hnone volumeRegex) as [H|H]; [|exact H].
           apply Hv in H. congruence.
        -- destruct (Hnone deliveryRegex) as [H|H]; [|exact H].
           apply Hd in H. congruence.
  - split; [|reflexivity]. intros _. left.
    intros h Hin. now apply (find_none _ _ Eh).
Qed.

Lemma find_ext_in (A : Type) (f g : A -> bool) (l : list A) :
  (forall x, In x l -> f x = g x) -> find f l = find g l.
Proof.
  induction l as [|a l IH]; [reflexivity|]. intros H. cbn [find].
  rewrite (H a (or_introl eq_refl)).
  destruct (g a); [reflexivity|]. apply IH. intros x Hx. apply H. now right.
Qed.

(** With a plain volume header in the row, the volume column is the first
    of them and is not the field volume column. *)
Lemma findHeaders_plain_volume headerList hm :
  findHeaders headerList = Some hm ->
  (exists h, In h headerList /\ plainVolume h = true) ->
  exists v, volumeHeader hm = Some v /\ find plainVolume headerList = Some v /\
            fieldVolumeHeader hm <> Some v.
Proof.
  rewrite findHeaders_eq.
  destruct (find heightRegex headerList) as [hh|] eqn:Eh; [|discriminate].
  destruct (truthyStr (Some hh) && _) eqn:E; [|discriminate].
  intros [= <-]. cbn [volumeHeader fieldVolumeHeader].
  intros Hex. pose proof (proj2 (truthy_found plainVolume headerList eq_refl) Hex) as T.
  unfold orStr. rewrite T.
  destruct (find plainVolume headerList) as [v|] eqn:Ev; [|discriminate].
  exists v. repeat split. intros Hf.
  destruct (find_some _ _ Ev) as [_ Hp]. destruct (find_some _ _ Hf) as [_ Hq].
  unfold plainVolume in Hp. unfold fieldVolumeLike in Hq.
  apply andb_true_iff in Hp. apply andb_true_iff in Hq.
  destruct Hp as [_ Hp]. destruct Hq as [Hq _]. rewrite Hq in Hp. discriminate.
Qed.

(** Without one, the volume column and the field volume column are the
    same column. *)
Lemma findHeaders_shared_volume headerList hm :
  findHeaders headerList = Some hm ->
  noneMatches plainVolume headerList ->
  volumeHeader hm = fieldVolumeHeader hm.
Proof.
  rewrite findHeaders_eq.
  destruct (find heightRegex headerList) as [hh|] eqn:Eh; [|discriminate].
  destruct (truthyStr (Some hh) && _) eqn:E; [|discriminate].
  intros [= <-]. cbn [volumeHeader fieldVolumeHeader].
  intros Hnone. rewrite (find_all_false _ plainVolume headerList Hnone).
  unfold orStr. cbn [truthyStr]. apply find_ext_in.
  intros h Hin. specialize (Hnone h Hin). unfold plainVolume in Hnone.
  unfold fieldVolumeLike.
  destruct (volumeRegex h), (fieldVolumeRegex h); cbn in *; congruence.
Qed.

(** X5. Which volume header is chosen. When some header matches the
    volume pattern without matching the field pattern, the volume header is
    the first such header and it is not the field-volume header; when there
    is none, the volume header and the field-volume header are the same
    (both absent, or one and the same header). *)
Theorem findHeaders_volume_preference headerList hm :
  findHeaders headerList = Some hm ->
  ((exists h, In h headerList /\ plainVolume h = true) ->
   exists v, volumeHeader hm = Some v /\ find plainVolume headerList = Some v /\
             fieldVolumeHeader hm <> Some v) /\
  (noneMatches plainVolume headerList ->
   volumeHeader hm = fieldVolumeHeader hm).
Proof.
  intros H. split.
  - now apply findHeaders_plain_volume.
  - now apply findHeaders_shared_volume.
Qed.

Lemma findHeaders_volume_preference_witness :
  exists hm,
    findHeaders ["Dip"; "Field Volume"]%string = Some hm /\
    volumeHeader hm = fieldVolumeHeader hm.
Proof.
  eexists. split; [reflexivity|].
  eapply (findHeaders_volume_preference ["Dip"; "Field Volume"]%string); [reflexivity|].
  intros h [<-|[<-|[]]]; reflexivity.
Defined.

(* ------------------------------------------------------------------ *)
(** *** Ingest *)
(* ------------------------------------------------------------------ *)

Lemma filterMap_In (A B : Type) (f : A -> option B) (l : list A) (b : B) :
  In b (filterMap f l) <-> exists a, In a l /\ f a = Some b.
Proof.
  unfold filterMap. rewrite in_flat_map. split.
  - intros (a & Ha & Hb). exists a. split; [exact Ha|].
    destruct (f a) as [b'|]; [|destruct Hb].
    destruct Hb as [->|[]]. reflexivity.
  - intros (a & Ha & Hb). exists a. split; [exact Ha|]. rewrite Hb. now left.
Qed.

Lemma filterMap_length (A B : Type) (f : A -> option B) (l : list A) :
  (List.length (filterMap f l) <= List.length l)%nat.
Proof.
  induction l as [|a l IH]; [cbn; lia|].
  unfold filterMap in *. cbn [flat_map]. rewrite length_app.
  destruct (f a); cbn [List.length]; lia.
Qed.

Lemma normalizeRow_normalized hi vi fi row p :
  normalizeRow hi vi fi row = Some p ->
  normalizedRecord p /\
  (fieldVolume p = None <-> fi = (-1)%Z) /\
  height p = cellNumber (rowAt row hi) /\
  chartVolume p = cellNumber (rowAt row vi) /\
  (fi <> (-1)%Z -> fieldVolume p = Some (cellNumber (rowAt row fi))).
Proof.
  unfold normalizeRow, normalizedRecord, deviationOf.
  destruct (JS.isNaN (cellNumber (rowAt row hi))) eqn:Eh; [discriminate|].
  destruct (JS.isNaN (cellNumber (rowAt row vi))) eqn:Ev; [discriminate|].
  cbn [orb]. intros [= <-]. cbn [height chartVolume fieldVolume deviation].
  destruct (fi =? -1)%Z eqn:E; cbn [negb];
    [apply Z.eqb_eq in E|apply Z.eqb_neq in E].
  - repeat split; auto. contradiction.
  - repeat split; auto; try discriminate; try contradiction.
    destruct (JS.isNaN (cellNumber (rowAt row fi))); reflexivity.
Qed.

(** What a successful ingest went through. *)
Lemma processAndAnalyzeData_stages text out :
  processAndAnalyzeData text = Ok out ->
  exists parsed hm v,
    parseFileContent text = Ok parsed /\
    findHeaders (headers parsed) = Some hm /\
    volumeHeader hm = Some v /\
    in_data out =
      filterMap (normalizeRow (indexOf (heightHeader hm) (headers parsed))
                              (indexOf v (headers parsed))
                              (match fieldVolumeHeader hm with
                               | Some f => if Str.isEmpty f then (-1)%Z
                                           else indexOf f (headers parsed)
                               | None => (-1)%Z
                               end))
                (data parsed) /\
    in_data out <> [] /\
    in_stats out = (if truthyStr (fieldVolumeHeader hm)
                    then Some (calculateStats (in_data out)) else None) /\
    cfg_heightHeader (in_initialConfig out) = heightHeader hm /\
    cfg_volumeHeader (in_initialConfig out) = v.
Proof.
  unfold processAndAnalyzeData.
  destruct (parseFileContent text) as [parsed|e]; [|discriminate]. cbn [bind].
  destruct (findHeaders (headers parsed)) as [hm|] eqn:Ef; [|discriminate].
  destruct (volumeHeader hm) as [v|] eqn:Ev; [|discriminate].
  destruct (Str.isEmpty v); [discriminate|].
  match goal with
  | |- context [(List.length ?r =? 0)%nat] =>
      destruct (List.length r =? 0)%nat eqn:E; [intros Habs; discriminate Habs|]
  end.
  intros Hout. injection Hout as <-. exists parsed, hm, v.
  cbn [in_data in_stats in_initialConfig cfg_heightHeader cfg_volumeHeader].
  split; [reflexivity|]. split; [exact Ef|]. split; [exact Ev|].
  split; [reflexivity|].
  split; [|repeat split].
  intros H. rewrite H in E. discriminate E.
Qed.

(** X6. A successful ingest. When [processAndAnalyzeData] succeeds, its
    data is not empty; every record has a height and a chart volume other
    than NaN; its deviation is the field volume minus the chart volume when
    the field volume is a number other than NaN, and absent otherwise;
    there are at most as many records as parsed rows; the statistics, when
    present, are those of the data, and when they are absent no record has
    a field volume or a deviation. *)
Theorem ingest_records_normalized text out :
  processAndAnalyzeData text = Ok out ->
  in_data out <> [] /\
  heightsAreNumbers (in_data out) /\ volumesAreNumbers (in_data out) /\
  Forall (fun p => deviation p = deviationOf p) (in_data out) /\
  (exists parsed, parseFileContent text = Ok parsed /\
                  (List.length (in_data out) <= List.length (data parsed))%nat) /\
  (forall s, in_stats out = Some s -> s = calculateStats (in_data out)) /\
  (in_stats out = None ->
   Forall (fun p => fieldVolume p = None /\ deviation p = None) (in_data out)).
Proof.
  intros H.
  destruct (processAndAnalyzeData_stages text out H)
    as (parsed & hm & v & Hp & Hf & Hv & Hd & Hne & Hs & _).
  assert (Hall : forall p, In p (in_data out) ->
            normalizedRecord p /\
            (truthyStr (fieldVolumeHeader hm) = false -> fieldVolume p = None)).
  { intros p Hin. rewrite Hd in Hin. apply filterMap_In in Hin.
    destruct Hin as (row & _ & Hrow).
    destruct (normalizeRow_normalized _ _ _ _ _ Hrow) as (Hn & Hfv & _).
    split; [exact Hn|]. intros T. apply Hfv.
    destruct (fieldVolumeHeader hm) as [f|]; [|reflexivity].
    cbn [truthyStr] in T. apply negb_false_iff in T. now rewrite T. }
  split; [exact Hne|].
  split; [apply Forall_forall; intros p Hp'; apply (Hall p Hp')|].
  split; [apply Forall_forall; intros p Hp'; apply (Hall p Hp')|].
  split; [apply Forall_forall; intros p Hp'; apply (Hall p Hp')|].
  split; [exists parsed; split; [exact Hp|rewrite Hd; apply filterMap_length]|].
  rewrite Hs. destruct (truthyStr (fieldVolumeHeader hm)) eqn:T.
  - split; [now intros s [= <-]|discriminate].
  - split; [discriminate|]. intros _. apply Forall_forall. intros p Hp'.
    destruct (Hall p Hp') as ((_ & _ & Hdev) & Hnone).
    specialize (Hnone eq_refl). split; [exact Hnone|].
    rewrite Hdev. unfold deviationOf. now rewrite Hnone.
Qed.

Lemma ingest_records_normalized_witness :
  exists out,
    processAndAnalyzeData combinedFile = Ok out /\
    List.length (in_data out) = 2%nat /\
    heightsAreNumbers (in_data out).
Proof.
  eexists. split; [reflexivity|]. split; [reflexivity|].
  eapply (ingest_records_normalized combinedFile). reflexivity.
Defined.

(** X7. A file whose only volume column is a field-volume column (no
    header matches the volume pattern without the field pattern). When its
    ingest succeeds, the same column is read as chart volume and as field
    volume: every record has a field volume equal to its chart volume, the
    deviation of that volume from itself, and statistics are present. *)
Theorem ingest_field_volume_only text parsed out :
  parseFileContent text = Ok parsed ->
  noneMatches plainVolume (headers parsed) ->
  processAndAnalyzeData text = Ok out ->
  Forall (fun p => fieldVolume p = Some (chartVolume p) /\
                   deviation p = Some (chartVolume p - chartVolume p)%js)
         (in_data out) /\
  exists s, in_stats out = Some s.
Proof.
  intros Hparse Hnone H.
  destruct (processAndAnalyzeData_stages text out H)
    as (parsed' & hm & v & Hp & Hf & Hv & Hd & Hne & Hs & _).
  rewrite Hparse in Hp. injection Hp as <-.
  pose proof (findHeaders_shared_volume _ _ Hf Hnone) as Hshare.
  rewrite Hv in Hshare.
  destruct (findHeaders_sound_volume _ _ Hf v Hv) as (_ & _ & Hvne & _).
  assert (Ev : Str.isEmpty v = false) by (destruct v; [contradiction|reflexivity]).
  split.
  - apply Forall_forall. intros p Hin. rewrite Hd in Hin.
    apply filterMap_In in Hin. destruct Hin as (row & _ & Hrow).
    rewrite <- Hshare, Ev in Hrow.
    destruct (normalizeRow_normalized _ _ _ _ _ Hrow)
      as ((_ & Hcv & Hdev) & _ & _ & Ecv & Efv).
    assert (Hidx : indexOf v (headers parsed) <> (-1)%Z).
    { intros Habs. apply indexOf_absent in Habs. apply Habs.
      destruct (findHeaders_sound_volume _ _ Hf v Hv) as (Hin & _). exact Hin. }
    specialize (Efv Hidx). rewrite <- Ecv in Efv.
    split; [exact Efv|]. rewrite Hdev. unfold deviationOf. now rewrite Efv, Hcv.
  - rewrite Hs, <- Hshare. cbn [truthyStr]. rewrite Ev. cbn [negb]. eauto.
Qed.

Lemma ingest_field_volume_only_witness :
  exists out,
    processAndAnalyzeData fieldOnlyFile = Ok out /\
    Forall (fun p => fieldVolume p = Some (chartVolume p) /\
                     deviation p = Some (chartVolume p - chartVolume p)%js)
           (in_data out).
Proof.
  eexists. split; [reflexivity|].
  eapply (ingest_field_volume_only fieldOnlyFile); [reflexivity| |reflexivity].
  intros h [<-|[<-|[]]]; reflexivity.
Defined.

(* ------------------------------------------------------------------ *)
(** *** Validation files *)
(* ------------------------------------------------------------------ *)

Lemma calculateDeliveryValidation_succeeds pts chart :
  exists out, calculateDeliveryValidation pts chart = Ok out.
Proof.
  destruct (calculateDeliveryValidation_records pts chart) as [stats H]. eauto.
Qed.

Lemma processValidationData_cases text chart :
  processValidationData text chart =
  match parseFileContent text with
  | Err e => Err e
  | Ok parsed =>
      if truthyStr (resolvedDeliveryHeader (headers parsed)) then
        r <- processDeliveryValidation text chart ;; Ok (delivery_validation r)
      else if truthyStr (resolvedVolumeHeader (headers parsed)) then
        r <- processPointValidation text chart ;; Ok (point_validation r)
      else Err ValidationTypeUnknown
  end.
Proof.
  unfold processValidationData, resolvedDeliveryHeader, resolvedVolumeHeader.
  destruct (parseFileContent text); reflexivity.
Qed.

(** The errors of [processDeliveryValidation] behind a delivery header. *)
Lemma processDeliveryValidation_errors text chart parsed e :
  parseFileContent text = Ok parsed ->
  truthyStr (resolvedDeliveryHeader (headers parsed)) = true ->
  processDeliveryValidation text chart = Err e -> e = DeliveryNeedsTwoPoints.
Proof.
  unfold processDeliveryValidation, resolvedDeliveryHeader. intros -> T. cbn [bind].
  destruct (findHeaders (headers parsed)) as [hm|]; [|discriminate T].
  destruct (deliveryHeader hm) as [d|]; [|discriminate T].
  cbn [truthyStr] in T. apply negb_true_iff in T. rewrite T.
  match goal with
  | |- context [(List.length ?l <? 2)%nat] => destruct (List.length l <? 2)%nat; set (pts := l)
  end.
  - now intros [= <-].
  - destruct (calculateDeliveryValidation_succeeds pts chart) as [out ->]. discriminate.
Qed.

Lemma processPointValidation_errors text chart parsed e :
  parseFileContent text = Ok parsed ->
  truthyStr (resolvedVolumeHeader (headers parsed)) = true ->
  processPointValidation text chart = Err e -> e = NoValidValidationPoints.
Proof.
  unfold processPointValidation, resolvedVolumeHeader. intros -> T. cbn [bind].
  destruct (findHeaders (headers parsed)) as [hm|]; [|discriminate T].
  destruct (volumeHeader hm) as [v|]; [|discriminate T].
  cbn [truthyStr] in T. apply negb_true_iff in T. rewrite T.
  match goal with
  | |- context [(List.length ?l =? 0)%nat] => destruct (List.length l =? 0)%nat
  end.
  - now intros [= <-].
  - discriminate.
Qed.

(** X8. Dispatch of a validation file. A delivery result of
    [processValidationData] is the result of [processDeliveryValidation];
    a point result is the result of [processPointValidation] and arises
    only when the headers resolve no delivery header; the error
    [ValidationTypeUnknown] arises exactly when the text parses and
    [findHeaders] returns nothing for its headers; and the only errors are
    the three of the parser, [ValidationTypeUnknown],
    [DeliveryNeedsTwoPoints] and [NoValidValidationPoints]: the errors of
    the two processors on missing columns are never reached through the
    dispatcher. *)
Theorem validation_dispatch text chart :
  (forall r, processValidationData text chart = Ok (delivery_validation r) ->
             processDeliveryValidation text chart = Ok r) /\
  (forall r, processValidationData text chart = Ok (point_validation r) ->
             processPointValidation text chart = Ok r /\
             exists parsed, parseFileContent text = Ok parsed /\
                            truthyStr (resolvedDeliveryHeader (headers parsed)) = false) /\
  (processValidationData text chart = Err ValidationTypeUnknown <->
   exists parsed, parseFileContent text = Ok parsed /\
                  findHeaders (headers parsed) = None) /\
  (forall e, processValidationData text chart = Err e ->
             e = FileContentEmpty \/ e = FusionNeedsHeaderAndRow \/
             e = CsvNeedsDataRow \/ e = ValidationTypeUnknown \/
             e = DeliveryNeedsTwoPoints \/ e = NoValidValidationPoints).
Proof.
  rewrite processValidationData_cases.
  destruct (parseFileContent text) as [parsed|e0] eqn:Ep.
  2:{ split; [discriminate|]. split; [discriminate|]. split.
      - split; [|intros (p & Hp & _); discriminate Hp].
        intros [= ->]. destruct (parseFileContent_error_kinds text _ Ep)
          as [H|[H|H]]; discriminate H.
      - intros e [= <-].
        destruct (parseFileContent_error_kinds text _ Ep)
          as [H|[H|H]]; auto. }
  destruct (truthyStr (resolvedDeliveryHeader (headers parsed))) eqn:Td.
  - destruct (processDeliveryValidation text chart) as [r0|e0] eqn:Ed; cbn [bind].
    + split; [now intros r [= <-]|]. split; [discriminate|]. split; [|discriminate].
      split; [discriminate|]. intros (p & [= <-] & Hf).
      unfold resolvedDeliveryHeader in Td. rewrite Hf in Td. discriminate Td.
    + pose proof (processDeliveryValidation_errors text chart parsed e0 Ep Td Ed) as ->.
      split; [discriminate|]. split; [discriminate|]. split.
      * split; [discriminate|]. intros (p & [= <-] & Hf).
        unfold resolvedDeliveryHeader in Td. rewrite Hf in Td. discriminate Td.
      * intros e [= <-]. tauto.
  - destruct (truthyStr (resolvedVolumeHeader (headers parsed))) eqn:Tv.
    + destruct (processPointValidation text chart) as [r0|e0] eqn:Ed; cbn [bind].
      * split; [discriminate|]. split; [intros r [= <-]; split; [reflexivity|eauto]|].
        split; [|discriminate]. split; [discriminate|]. intros (p & [= <-] & Hf).
        unfold resolvedVolumeHeader in Tv. rewrite Hf in Tv. discriminate Tv.
      * pose proof (processPointValidation_errors text chart parsed e0 Ep Tv Ed) as ->.
        split; [discriminate|]. split; [discriminate|]. split.
        -- split; [discriminate|]. intros (p & [= <-] & Hf).
           unfold resolvedVolumeHeader in Tv. rewrite Hf in Tv. discriminate Tv.
        -- intros e [= <-]. tauto.
    + split; [discriminate|]. split; [discriminate|]. split.
      * split; [|reflexivity]. intros _. exists parsed. split; [reflexivity|].
        destruct (findHeaders (headers parsed)) as [hm|] eqn:Ef; [|reflexivity].
        exfalso. unfold resolvedDeliveryHeader in Td. unfold resolvedVolumeHeader in Tv.
        rewrite Ef in Td, Tv.
        pose proof (findHeaders_without_volume _ _ Ef Tv). congruence.
      * intros e [= <-]. tauto.
Qed.

(** X9. Records of a point validation. When [processPointValidation]
    succeeds there is at least one record; each has a height other than
    NaN, the interpolated volume of the chart at that height as chart
    volume, a field volume other than NaN and their difference as
    deviation; the statistics are those of the records; and there are at
    most as many records as parsed rows. *)
Theorem point_validation_records text chart out :
  processPointValidation text chart = Ok out ->
  po_combinedData out <> [] /\
  Forall (validatedRecord chart) (po_combinedData out) /\
  po_stats out = calculateStats (po_combinedData out) /\
  (exists parsed, parseFileContent text = Ok parsed /\
     (List.length (po_combinedData out) <= List.length (data parsed))%nat).
Proof.
  unfold processPointValidation.
  destruct (parseFileContent text) as [parsed|e]; [|discriminate]. cbn [bind].
  destruct (findHeaders (headers parsed)) as [hm|]; [|discriminate].
  destruct (volumeHeader hm) as [v|]; [|discriminate].
  destruct (Str.isEmpty v); [discriminate|].
  match goal with
  | |- context [(List.length ?l =? 0)%nat] =>
      set (points := l); destruct (List.length points =? 0)%nat eqn:E;
      [intros Habs; discriminate Habs|]
  end.
  intros Hout. injection Hout as <-. cbn [po_combinedData po_stats].
  split; [|split; [|split; [reflexivity|]]].
  - intros H. apply (f_equal (@List.length _)) in H.
    rewrite length_map in H. rewrite H in E. discriminate E.
  - apply Forall_forall. intros p Hp. apply in_map_iff in Hp.
    destruct Hp as (vp & <- & Hvp). unfold points in Hvp.
    apply filter_In in Hvp. destruct Hvp as [_ Hnum].
    apply andb_true_iff in Hnum. destruct Hnum as [Hh Hf].
    apply negb_true_iff in Hh. apply negb_true_iff in Hf.
    unfold validatedRecord. cbn [height chartVolume fieldVolume deviation].
    split; [exact Hh|]. split; [reflexivity|]. exists (snd vp). auto.
  - exists parsed. split; [reflexivity|]. rewrite length_map. unfold points.
    eapply Nat.le_trans; [apply filter_length_le|]. now rewrite length_map.
Qed.

Lemma point_validation_records_witness :
  exists out,
    processPointValidation rampCheckFile rampChart = Ok out /\
    List.length (po_combinedData out) = 2%nat /\
    Forall (validatedRecord rampChart) (po_combinedData out).
Proof.
  eexists. split; [reflexivity|]. split; [reflexivity|].
  eapply (point_validation_records rampCheckFile rampChart). reflexivity.
Defined.

(* ------------------------------------------------------------------ *)
(** *** Interpolation: linearity, sorted copy *)
(* ------------------------------------------------------------------ *)

Lemma finiteChart_In chart p : finiteChart chart -> In p chart -> finitePoint p.
Proof. unfold finiteChart. rewrite Forall_forall. auto. Qed.

Lemma StronglySorted_around (A : Type) (R : A -> A -> Prop) (a b : list A) (x : A) :
  StronglySorted R (a ++ x :: b) ->
  (forall y, In y a -> R y x) /\ (forall y, In y b -> R x y).
Proof.
  induction a as [|c a IH]; cbn [app]; intros Hs.
  - inversion Hs as [|? ? _ Hall]; subst. rewrite Forall_forall in Hall.
    split; [intros y []|exact Hall].
  - inversion Hs as [|? ? Hs' Hall]; subst. rewrite Forall_forall in Hall.
    destruct (IH Hs') as [Ha Hb]. split; [|exact Hb].
    intros y [<-|Hy]; [|now apply Ha]. apply Hall, in_elt.
Qed.



(** X12. The sorted copy. For a chart whose heights are numbers, the
    sorted copy is a permutation of the chart in ascending order of height
    that keeps the input order among the points of one height; sorting it
    again changes nothing; and interpolating on it gives what interpolating
    on the chart gives. *)
Theorem sortChart_is_stable_sorted_copy chart :
  heightsAreNumbers chart ->
  Permutation (sortChart chart) chart /\
  StronglySorted heightLe (sortChart chart) /\
  (forall h, filter (fun q => (height q === h)%js) (sortChart chart)
             = filter (fun q => (height q === h)%js) chart) /\
  sortChart (sortChart chart) = sortChart chart /\
  (forall h, interpolate h (sortChart chart) = interpolate h chart).
Proof.
  intros Hnum.
  pose proof (sortChart_sorted chart Hnum) as Hs.
  assert (Hid : sortChart (sortChart chart) = sortChart chart).
  { apply sortChart_sorted_id. now apply StronglySorted_Sorted. }
  split; [apply sortChart_perm|]. split; [exact Hs|].
  split; [intros h; apply sortChart_filter_height|]. split; [exact Hid|].
  intros h. unfold interpolate. now rewrite Hid.
Qed.

Lemma sortChart_is_stable_sorted_copy_witness :
  sortChart [pt 3 30; pt 1 10; pt 3 31; pt 2 20] = [pt 1 10; pt 2 20; pt 3 30; pt 3 31] /\
  StronglySorted heightLe (sortChart [pt 3 30; pt 1 10; pt 3 31; pt 2 20]).
Proof.
  split; [reflexivity|].
  apply (sortChart_is_stable_sorted_copy [pt 3 30; pt 1 10; pt 3 31; pt 2 20]).
  repeat constructor.
Defined.

(* ------------------------------------------------------------------ *)
(** *** Resampler: degenerate counts *)
(* ------------------------------------------------------------------ *)

Lemma interpolate_NaN chart :
  interpolate JS.NaN chart =
  match sortChart chart with
  | first :: _ => JS.or (chartVolume first) JS.zero
  | [] => JS.zero
  end.
Proof.
  apply interpolate_fallback. left. apply find_all_false.
  intros x _. unfold JS.geb, JS.leb. reflexivity.
Qed.

Lemma single_step_height a b :
  (a + JS.of_nat 0 * ((b - a) / (JS.of_nat 1 - JS.of_nat 1)))%js = JS.NaN.
Proof.
  assert (H : forall s, (JS.of_nat 0 * (s / (JS.of_nat 1 - JS.of_nat 1)))%js = JS.NaN).
  { intros [| |q|]; try reflexivity.
    unfold JS.of_nat, JS.sub, JS.div. cbn [Z.of_nat].
    change (Qeq_bool (inject_Z 1 - inject_Z 1) 0) with true. cbv iota.
    destruct (JS.Qsign q); reflexivity. }
  rewrite H. now destruct a.
Qed.

(** X14. Degenerate point counts. For a chart of two points or more,
    zero requested points give the empty grid, and one requested point
    gives a single point whose height is NaN (the step divides by zero)
    and whose volume is the first volume of the sorted chart, or 0 when
    that volume is zero or NaN. *)
Theorem resampler_degenerate_point_counts chart :
  (2 <= List.length chart)%nat ->
  generateStrappingChartData chart 0 = Ok [] /\
  exists first rest,
    sortChart chart = first :: rest /\
    generateStrappingChartData chart 1 =
    Ok [barePoint JS.NaN (JS.or (chartVolume first) JS.zero)].
Proof.
  intros Hlen. unfold generateStrappingChartData.
  assert (E : (List.length chart <? 2)%nat = false) by now apply Nat.ltb_ge.
  rewrite E.
  pose proof (sortChart_length chart) as Hl.
  destruct (sortChart chart) as [|first rest] eqn:Es; [cbn in Hl; lia|].
  cbn [hd_error].
  destruct (nth_error (first :: rest) (List.length (first :: rest) - 1))
    as [final|] eqn:En.
  2:{ apply nth_error_None in En. cbn [List.length] in En. lia. }
  split; [reflexivity|]. exists first, rest. split; [reflexivity|].
  cbn [List.seq map]. rewrite single_step_height, interpolate_NaN, Es. reflexivity.
Qed.

Lemma resampler_degenerate_point_counts_witness :
  generateStrappingChartData rampChart 1 = Ok [barePoint JS.NaN JS.zero].
Proof.
  destruct (resampler_degenerate_point_counts rampChart) as (_ & first & rest & Hs & ->).
  - simpl. lia.
  - vm_compute in Hs. injection Hs as <- _. reflexivity.
Defined.

(* ------------------------------------------------------------------ *)
(** *** Delivery validation: outcome *)
(* ------------------------------------------------------------------ *)

Lemma calculateDeliveryValidation_total pts chart out :
  calculateDeliveryValidation pts chart = Ok out ->
  deliveryData out = expectedRecords chart pts /\
  totalMeasurements (do_stats out) = List.length (expectedRecords chart pts) /\
  (expectedRecords chart pts = [] -> do_stats out = zeroStats).
Proof.
  unfold calculateDeliveryValidation. rewrite delivery_loop_all. cbn [bind].
  destruct (expectedRecords chart pts) as [|r rs] eqn:E.
  - intros [= <-]. repeat split.
  - cbn [List.length Nat.eqb].
    destruct (fold_left trackDeliveryExtremes (r :: rs) _) as [maxD minD].
    intros [= <-]. repeat split. discriminate.
Qed.

Lemma consecutivePairs_length pts :
  List.length (consecutivePairs pts) = (List.length pts - 1)%nat.
Proof.
  unfold consecutivePairs. rewrite length_combine.
  destruct pts; cbn [tl List.length]; lia.
Qed.

Lemma consecutivePairs_seconds pts : map snd (consecutivePairs pts) = tl pts.
Proof.
  unfold consecutivePairs. destruct pts as [|a rest]; [reflexivity|]. cbn [tl].
  revert a. induction rest as [|b rest IH]; intros a; [reflexivity|].
  cbn [combine map snd]. f_equal. apply IH.
Qed.

(** X15. Outcome of a delivery validation. [calculateDeliveryValidation]
    always returns; each record reports a delivery other than 0, carries as
    chart-calculated delivery the difference of the interpolated volumes at
    its two heights, and as deviation the reported delivery minus that
    difference; the count of the statistics is the number of records, which
    is at most the number of readings minus one; there is no record exactly
    when every reading after the first reports 0, and then the statistics
    are the all-zero record; with two readings or more the handler of
    manually entered points returns the same outcome. *)
Theorem delivery_outcome_shape pts chart :
  exists out,
    calculateDeliveryValidation pts chart = Ok out /\
    Forall (deliveryRecord chart) (deliveryData out) /\
    totalMeasurements (do_stats out) = List.length (deliveryData out) /\
    (List.length (deliveryData out) <= List.length pts - 1)%nat /\
    (deliveryData out = [] <->
     Forall (fun reading => (pt_delivery reading === JS.zero)%js = true) (tl pts)) /\
    (deliveryData out = [] -> do_stats out = zeroStats) /\
    ((2 <= List.length pts)%nat ->
     handleManualValidationSubmit pts chart = Ok out).
Proof.
  destruct (calculateDeliveryValidation_succeeds pts chart) as [out Hout].
  exists out. split; [exact Hout|].
  destruct (calculateDeliveryValidation_total pts chart out Hout) as (Hd & Ht & Hz).
  rewrite Hd. split; [|split; [exact Ht|split; [|split; [|split; [exact Hz|]]]]].
  - apply Forall_forall. intros r Hr. unfold expectedRecords in Hr.
    apply in_map_iff in Hr. destruct Hr as (pair & <- & Hp).
    apply filter_In in Hp. destruct Hp as [_ Hp].
    unfold isDelivery in Hp. apply negb_true_iff in Hp.
    unfold deliveryRecord, recordOf. cbn. auto.
  - unfold expectedRecords. rewrite length_map.
    eapply Nat.le_trans; [apply filter_length_le|].
    now rewrite consecutivePairs_length.
  - unfold expectedRecords. rewrite <- consecutivePairs_seconds. split.
    + intros H. apply map_eq_nil in H.
      apply Forall_forall. intros reading Hr. apply in_map_iff in Hr.
      destruct Hr as (pair & <- & Hp).
      destruct (pt_delivery (snd pair) === JS.zero)%js eqn:E; [reflexivity|].
      assert (Hin : In pair (filter isDelivery (consecutivePairs pts))).
      { apply filter_In. split; [exact Hp|]. unfold isDelivery. now rewrite E. }
      rewrite H in Hin. destruct Hin.
    + intros H. rewrite Forall_forall in H.
      rewrite filter_all_false; [reflexivity|].
      intros pair Hp. unfold isDelivery. rewrite H; [reflexivity|].
      apply in_map_iff. eauto.
  - intros Hlen. unfold handleManualValidationSubmit.
    assert ((List.length pts <? 2)%nat = false) as -> by now apply Nat.ltb_ge.
    exact Hout.
Qed.

(* ------------------------------------------------------------------ *)
(** *** Export: file names and headers *)
(* ------------------------------------------------------------------ *)

Lemma allChars_append p a b :
  allChars p (a ++ b)%string = allChars p a && allChars p b.
Proof.
  induction a as [|c a IH]; [reflexivity|]. cbn [String.append allChars].
  now rewrite IH, andb_assoc.
Qed.

Lemma replaceWhiteSpaceRuns_visible r s :
  allChars (fun c => negb (Str.isWhiteSpace c)) r = true ->
  allChars (fun c => negb (Str.isWhiteSpace c))
           (Builtins.replaceWhiteSpaceRuns r s) = true.
Proof.
  intros Hr. induction s as [|c s IH]; [reflexivity|].
  cbn [Builtins.replaceWhiteSpaceRuns].
  destruct (Str.isWhiteSpace c) eqn:E.
  - destruct (Str.startsWith Str.isWhiteSpace s); [exact IH|].
    now rewrite allChars_append, Hr, IH.
  - cbn [allChars]. now rewrite E, IH.
Qed.

Lemma replaceEach_allChars (p q : ascii -> bool) r s :
  allChars q r = true ->
  (forall c, p c = false -> In c (list_ascii_of_string s) -> q c = true) ->
  allChars q (Builtins.replaceEach p r s) = true.
Proof.
  intros Hr. induction s as [|c s IH]; intros Hs; [reflexivity|].
  cbn [Builtins.replaceEach]. cbn [list_ascii_of_string] in Hs.
  destruct (p c) eqn:E.
  - rewrite allChars_append, Hr. apply IH. intros c' Hp Hin. apply Hs; [exact Hp|now right].
  - cbn [allChars]. rewrite (Hs c E (or_introl eq_refl)). apply IH.
    intros c' Hp Hin. apply Hs; [exact Hp|now right].
Qed.

Lemma allChars_In p s c :
  allChars p s = true -> In c (list_ascii_of_string s) -> p c = true.
Proof.
  induction s as [|a s IH]; [intros _ []|].
  cbn [allChars list_ascii_of_string]. intros H [<-|Hin];
    apply andb_true_iff in H; destruct H; auto.
Qed.

Lemma sanitizeForFileName_safe s : allChars safeChar (sanitizeForFileName s) = true.
Proof.
  unfold sanitizeForFileName. apply replaceEach_allChars; [reflexivity|].
  intros c Hp Hin. unfold safeChar. rewrite Hp, andb_true_r.
  set (t := Builtins.replaceWhiteSpaceRuns "_" s) in *.
  assert (Hv : allChars (fun c => negb (Str.isWhiteSpace c)) t = true)
    by (apply replaceWhiteSpaceRuns_visible; reflexivity).
  revert Hin. generalize t Hv. clear. intros t.
  induction t as [|a t IH]; [intros _ []|].
  cbn [allChars]. intros H. apply andb_true_iff in H. destruct H as [Ha Ht].
  cbn [list_ascii_of_string]. intros [<-|Hin]; auto.
Qed.

Lemma orString_safe s d :
  allChars safeChar s = true -> allChars safeChar d = true -> d <> EmptyString ->
  allChars safeChar (Builtins.orString s d) = true /\
  Builtins.orString s d <> EmptyString.
Proof.
  intros Hs Hd Hne. unfold Builtins.orString.
  destruct s; cbn [Str.isEmpty]; [auto|]. split; [exact Hs|discriminate].
Qed.

(** X17. The base file name is safe. For every configuration,
    [generateBaseFilename] returns a non-empty name that has no white space
    and none of the characters forbidden in file names. *)
Theorem generateBaseFilename_safe config :
  allChars safeChar (generateBaseFilename config) = true /\
  generateBaseFilename config <> EmptyString.
Proof.
  unfold generateBaseFilename.
  destruct (orString_safe (sanitizeForFileName (rc_clientName config)) "Client"
              (sanitizeForFileName_safe _) eq_refl ltac:(discriminate)) as [Hc Hcn].
  destruct (orString_safe (sanitizeForFileName (rc_tankCode config)) "Tank"
              (sanitizeForFileName_safe _) eq_refl ltac:(discriminate)) as [Ht Htn].
  set (client := Builtins.orString _ "Client") in *.
  set (tank := Builtins.orString _ "Tank") in *.
  cbv zeta.
  destruct ((String.eqb client "Client" || String.eqb client "Default_Client")
            && String.eqb tank "Tank").
  - split; [reflexivity|discriminate].
  - split.
    + rewrite !allChars_append, Hc, Ht. reflexivity.
    + destruct client; [contradiction|discriminate].
Qed.

Lemma append_length a b :
  String.length (a ++ b)%string = (String.length a + String.length b)%nat.
Proof.
  induction a as [|c a IH]; [reflexivity|]. cbn [String.append String.length].
  now rewrite IH.
Qed.

Lemma prefixed_differs prefix s :
  prefix <> EmptyString -> (prefix ++ s)%string <> s.
Proof.
  intros Hp H. apply (f_equal String.length) in H.
  rewrite append_length in H. destruct prefix; [contradiction|].
  cbn [String.length] in H. lia.
Qed.

(** X19. The headers of the on-screen table are those of the export
    exactly when there is no validation data, or the column order is
    volume-height, or the height header differs from the volume header:
    with equal headers in height-volume order the table relabels its height
    column, the export its volume column. *)
Theorem table_headers_agree_with_export config hasValidationData :
  tableHeaders config hasValidationData = generateHeaders config hasValidationData
  <-> hasValidationData = false \/ rc_columnOrder config = VolumeHeight \/
      rc_heightHeader config <> rc_volumeHeader config.
Proof.
  unfold tableHeaders, generateHeaders.
  destruct hasValidationData; [|split; [now left|destruct (rc_columnOrder config); reflexivity]].
  destruct (rc_columnOrder config); cbn [app indexOf Builtins.setAt].
  - destruct (String.eqb (rc_heightHeader config) (rc_volumeHeader config)) eqn:E.
    + apply String.eqb_eq in E. cbn [Z.eqb Builtins.setAt app]. split.
      * intros [= H _]. exfalso. rewrite E in H.
        now apply (prefixed_differs "Chart " (rc_volumeHeader config)).
      * intros [H|[H|H]]; [discriminate|discriminate|contradiction].
    + apply String.eqb_neq in E. rewrite String.eqb_refl.
      cbn. split; [intros _; right; right; exact E|reflexivity].
  - rewrite String.eqb_refl. cbn. split; [intros _; right; now left|reflexivity].
Qed.

Lemma table_headers_agree_with_export_witness :
  tableHeaders sameLabelConfig true = generateHeaders sameLabelConfig true.
Proof.
  apply (table_headers_agree_with_export sameLabelConfig true). right. now left.
Defined.

(* ------------------------------------------------------------------ *)
(** *** Export: strapping table *)
(* ------------------------------------------------------------------ *)

Lemma ceilDiv_covers n k : (0 < k)%nat -> (n <= Builtins.ceilDiv n k * k)%nat.
Proof.
  intros Hk. unfold Builtins.ceilDiv.
  pose proof (Nat.div_mod_eq (n + k - 1) k) as E.
  pose proof (Nat.mod_upper_bound (n + k - 1) k ltac:(lia)) as Hm. nia.
Qed.

Lemma ceilDiv_positive n k : (0 < k)%nat -> (0 < n)%nat -> (0 < Builtins.ceilDiv n k)%nat.
Proof.
  intros Hk Hn. unfold Builtins.ceilDiv. apply Nat.div_str_pos. lia.
Qed.

Lemma cellPair_length data formatter i : List.length (cellPair data formatter i) = 2%nat.
Proof. unfold cellPair. destruct (nth_error data i); reflexivity. Qed.

(** Blocks of two cells, one per column pair. *)
Lemma flat_map_pairs_length (g : nat -> list Cell) (start k : nat) :
  (forall j, List.length (g j) = 2%nat) ->
  List.length (flat_map g (List.seq start k)) = (2 * k)%nat.
Proof.
  intros Hg. revert start. induction k as [|k IH]; intros start; [reflexivity|].
  cbn [List.seq flat_map]. rewrite length_app, Hg, IH. lia.
Qed.

Lemma flat_map_pairs_nth (g : nat -> list Cell) (k j b : nat) : forall start,
  (forall i, List.length (g i) = 2%nat) -> (j < k)%nat -> (b < 2)%nat ->
  nth_error (flat_map g (List.seq start k)) (2 * j + b) = nth_error (g (start + j)%nat) b.
Proof.
  revert j. induction k as [|k IH]; intros j start Hg Hj Hb; [lia|].
  cbn [List.seq flat_map]. destruct j as [|j].
  - rewrite nth_error_app1 by (rewrite Hg; lia).
    now rewrite Nat.add_0_r, Nat.mul_0_r.
  - rewrite nth_error_app2 by (rewrite Hg; lia). rewrite Hg.
    replace (2 * S j + b - 2)%nat with (2 * j + b)%nat by lia.
    rewrite IH by (auto; lia). f_equal. f_equal. lia.
Qed.

Lemma reshapeStrappingData_columns data k formatter :
  (0 < k)%nat ->
  reshapeStrappingData data k formatter =
  Some (map (fun i =>
               flat_map (fun j => cellPair data formatter
                                    (i + j * Builtins.ceilDiv (List.length data) k))
                        (List.seq 0 k))
            (List.seq 0 (Builtins.ceilDiv (List.length data) k))).
Proof.
  intros Hk. unfold reshapeStrappingData. destruct k; [lia|]. reflexivity.
Qed.

(** X20. Layout of the strapping table. For a positive number [k] of
    column pairs, [reshapeStrappingData] returns a table of ceil(n / k)
    rows of [2 * k] cells each; with [r] that number of rows, the point of
    index [idx] stands in row [idx mod r] and column pair [idx / r], as its
    formatted height followed by its formatted volume; and a column pair of
    a row that falls beyond the data holds two empty strings. *)
Theorem reshape_places_every_point data k formatter :
  (0 < k)%nat ->
  exists table,
    reshapeStrappingData data k formatter = Some table /\
    List.length table = Builtins.ceilDiv (List.length data) k /\
    Forall (fun row => List.length row = (2 * k)%nat) table /\
    (forall idx point, nth_error data idx = Some point ->
       let rowsPerColumn := Builtins.ceilDiv (List.length data) k in
       exists row,
         nth_error table (idx mod rowsPerColumn) = Some row /\
         nth_error row (2 * (idx / rowsPerColumn)) = Some (formatter (height point)) /\
         nth_error row (2 * (idx / rowsPerColumn) + 1)
         = Some (formatter (chartVolume point))) /\
    (forall i j row, nth_error table i = Some row -> (j < k)%nat ->
       (List.length data <= i + j * Builtins.ceilDiv (List.length data) k)%nat ->
       nth_error row (2 * j) = Some (CStr "") /\
       nth_error row (2 * j + 1) = Some (CStr "")).
Proof.
  intros Hk. rewrite (reshapeStrappingData_columns data k formatter Hk).
  set (r := Builtins.ceilDiv (List.length data) k).
  set (rowOf := fun i => flat_map (fun j => cellPair data formatter (i + j * r))
                                  (List.seq 0 k)).
  assert (Hrow : forall i j b, (j < k)%nat -> (b < 2)%nat ->
            nth_error (rowOf i) (2 * j + b)
            = nth_error (cellPair data formatter (i + j * r)) b).
  { intros i j b Hj Hb. unfold rowOf.
    rewrite flat_map_pairs_nth; auto. intros x. apply cellPair_length. }
  eexists. split; [reflexivity|].
  split; [now rewrite length_map, length_seq|].
  split; [|split].
  - apply Forall_forall. intros row Hin. apply in_map_iff in Hin.
    destruct Hin as (i & <- & _). apply flat_map_pairs_length.
    intros j. apply cellPair_length.
  - intros idx point Hp rowsPerColumn. fold r in rowsPerColumn. subst rowsPerColumn.
    assert (Hidx : (idx < List.length data)%nat).
    { apply nth_error_Some. congruence. }
    assert (Hr : (0 < r)%nat) by (apply ceilDiv_positive; lia).
    pose proof (ceilDiv_covers (List.length data) k Hk) as Hcov. fold r in Hcov.
    assert (Hj : (idx / r < k)%nat).
    { apply Nat.Div0.div_lt_upper_bound. nia. }
    exists (rowOf (idx mod r)). split.
    + rewrite nth_error_map, nth_error_seq.
      assert ((idx mod r <? r)%nat = true) as ->
        by (apply Nat.ltb_lt, Nat.mod_upper_bound; lia).
      reflexivity.
    + assert (E : (idx mod r + idx / r * r)%nat = idx).
      { pose proof (Nat.div_mod_eq idx r). lia. }
      pose proof (Hrow (idx mod r)%nat (idx / r)%nat 0%nat Hj ltac:(lia)) as H0.
      pose proof (Hrow (idx mod r)%nat (idx / r)%nat 1%nat Hj ltac:(lia)) as H1.
      rewrite Nat.add_0_r in H0. rewrite H0, H1.
      unfold cellPair. rewrite E, Hp. split; reflexivity.
  - intros i j row Hi Hj Hout.
    rewrite nth_error_map in Hi.
    destruct (nth_error (List.seq 0 r) i) as [i'|] eqn:Ei; [|discriminate].
    cbn [option_map] in Hi. injection Hi as <-.
    assert (i' = i).
    { rewrite nth_error_seq in Ei. destruct (i <? r)%nat; [|discriminate].
      now injection Ei. }
    subst i'. fold (rowOf i).
    pose proof (Hrow i j 0%nat Hj ltac:(lia)) as H0.
    pose proof (Hrow i j 1%nat Hj ltac:(lia)) as H1.
    rewrite Nat.add_0_r in H0. rewrite H0, H1.
    unfold cellPair.
    assert (nth_error data (i + j * r) = None) as -> by now apply nth_error_None.
    split; reflexivity.
Qed.

Lemma reshape_places_every_point_witness :
  exists table,
    reshapeStrappingData [pt 1 10; pt 2 20; pt 3 30] 2 CNum = Some table /\
    List.length table = 2%nat.
Proof.
  destruct (reshape_places_every_point [pt 1 10; pt 2 20; pt 3 30] 2 CNum)
    as (table & Ht & Hl & _); [lia|].
  exists table. split; assumption.
Defined.

(** X21. The exported strapping table is full. For a chart of two
    points or more, resampling it to the default number of points and
    laying the result out in 6 column pairs gives a table of 50 rows of 12
    cells, every cell a formatted value: no cell is left blank. *)
Theorem strapping_table_is_full data formatter :
  (2 <= List.length data)%nat ->
  exists table,
    strappingTable data formatter = Ok (Some table) /\
    List.length table = 50%nat /\
    Forall (fun row => List.length row = 12%nat /\
                       Forall (formattedCell formatter) row) table.
Proof.
  intros Hlen. unfold strappingTable.
  destruct (generateStrappingChartData_grid data defaultPoints Hlen)
    as (grid & -> & Hg & _). cbn [bind].
  rewrite (reshapeStrappingData_columns grid 6 formatter) by lia.
  rewrite Hg. change (Builtins.ceilDiv defaultPoints 6) with 50%nat.
  eexists. split; [reflexivity|].
  split; [now rewrite length_map, length_seq|].
  apply Forall_forall. intros row Hin. apply in_map_iff in Hin.
  destruct Hin as (i & <- & Hi). apply in_seq in Hi. split.
  - apply (flat_map_pairs_length _ 0 6). intros j. apply cellPair_length.
  - apply Forall_forall. intros c Hc. apply in_flat_map in Hc.
    destruct Hc as (j & Hj & Hc). apply in_seq in Hj. unfold cellPair in Hc.
    destruct (nth_error grid (i + j * 50)) as [point|] eqn:E.
    + destruct Hc as [<-|[<-|[]]]; eexists; reflexivity.
    + apply nth_error_None in E. unfold defaultPoints in Hg. lia.
Qed.

Lemma strapping_table_is_full_witness :
  exists table,
    strappingTable rampChart CNum = Ok (Some table) /\ List.length table = 50%nat.
Proof.
  destruct (strapping_table_is_full rampChart CNum) as (table & Ht & Hl & _);
    [simpl; lia|].
  exists table. split; assumption.
Defined.

(* ------------------------------------------------------------------ *)
(** *** Wizard navigation and manual entry *)
(* ------------------------------------------------------------------ *)

(** X22. Wizard navigation. The number the step indicator gives a step
    is the value of the step; the navigation buttons are shown exactly on
    the steps where going back changes the step; going back from such a
    step lowers the step by one; and going back as many times as the value
    of the step minus one ends on the first step, where the buttons are
    hidden. *)
Theorem back_button_matches_navigation step :
  getStepNumber step = stepValue step /\
  (showNavigationButtons step = true <-> handleBack step <> step) /\
  (showNavigationButtons step = true ->
   stepValue (handleBack step) = (stepValue step - 1)%Z) /\
  backTimes (Z.to_nat (stepValue step - 1)) step = UploadChart /\
  showNavigationButtons (backTimes (Z.to_nat (stepValue step - 1)) step) = false.
Proof.
  destruct step; cbn; repeat split; try discriminate; try reflexivity;
    try (intros H; exfalso; now apply H); intros; congruence.
Qed.

Lemma handleRowChange_ids id field value st :
  map row_id (es_rows (handleRowChange id field value st)) = map row_id (es_rows st).
Proof.
  unfold handleRowChange. cbn [es_rows]. rewrite map_map. apply map_ext.
  intros row. destruct (row_id row =? id)%nat; [|reflexivity].
  destruct field; reflexivity.
Qed.

Lemma filter_keeps_distinct_ids (keep : ManualEntryRow -> bool) rows :
  NoDup (map row_id rows) -> NoDup (map row_id (filter keep rows)).
Proof.
  intros Hnd. induction rows as [|row rows IH]; cbn [map filter] in *; [exact Hnd|].
  apply NoDup_cons_iff in Hnd. destruct Hnd as [Hfresh Hnd].
  destruct (keep row); [|exact (IH Hnd)].
  cbn [map]. apply NoDup_cons_iff. split; [|exact (IH Hnd)].
  rewrite in_map_iff in *. intros (other & Eid & Hother).
  apply filter_In in Hother. apply Hfresh. exists other. tauto.
Qed.

Lemma applyEntryAction_fresh st a : entryIdsFresh st -> entryIdsFresh (applyEntryAction st a).
Proof.
  intros [Hnd Hlt]. destruct a as [|id|id field value]; cbn [applyEntryAction].
  - unfold entryIdsFresh, handleAddRow. cbn [es_rows es_nextId]. split.
    + rewrite map_app. cbn [map row_id]. apply NoDup_app.
      * exact Hnd.
      * repeat constructor. intros [].
      * intros x Hx [<-|[]]. apply in_map_iff in Hx. destruct Hx as (row & E & Hrow).
        rewrite Forall_forall in Hlt. specialize (Hlt row Hrow). lia.
    + apply Forall_app. split.
      * eapply Forall_impl; [|exact Hlt]. cbn. intros. lia.
      * repeat constructor. cbn. lia.
  - unfold entryIdsFresh, handleRemoveRow. cbn [es_rows es_nextId]. split.
    + now apply filter_keeps_distinct_ids.
    + apply Forall_forall. intros row Hrow. apply filter_In in Hrow.
      rewrite Forall_forall in Hlt. now apply Hlt.
  - unfold entryIdsFresh. rewrite handleRowChange_ids. split; [exact Hnd|].
    unfold handleRowChange. cbn [es_rows es_nextId].
    apply Forall_forall. intros row Hrow. apply in_map_iff in Hrow.
    destruct Hrow as (row0 & <- & Hrow0). rewrite Forall_forall in Hlt.
    specialize (Hlt row0 Hrow0).
    destruct (row_id row0 =? id)%nat; [|exact Hlt]. destruct field; exact Hlt.
Qed.

(** X23. Row identifiers of the manual entry form. After any sequence
    of additions, removals and edits from the initial form, the identifiers
    of the rows are distinct and below the next identifier; so adding a row
    keeps them distinct, and the identifier a new row receives is not in
    use. *)
Theorem entry_row_ids_stay_unique actions :
  let st := fold_left applyEntryAction actions initialEntryState in
  entryIdsFresh st /\
  entryIdsFresh (handleAddRow st) /\
  ~ In (es_nextId st) (map row_id (es_rows st)).
Proof.
  intros st.
  assert (H : entryIdsFresh st).
  { unfold st. generalize initialEntryState,
      (conj (ltac:(repeat constructor; cbn; intuition discriminate)
              : NoDup (map row_id (es_rows initialEntryState)))
            (ltac:(repeat constructor; cbn; lia)
              : Forall (fun row => (row_id row < es_nextId initialEntryState)%nat)
                       (es_rows initialEntryState))).
    induction actions as [|a actions IH]; intros st0 H0; [exact H0|].
    cbn [fold_left]. apply IH. now apply applyEntryAction_fresh. }
  split; [exact H|]. split; [apply (applyEntryAction_fresh st AddRow H)|].
  destruct H as [_ Hlt]. intros Hin. apply in_map_iff in Hin.
  destruct Hin as (row & E & Hrow). rewrite Forall_forall in Hlt.
  specialize (Hlt row Hrow). lia.
Qed.

Lemma handleSubmit_numbers st :
  Forall (fun d => JS.isNaN (pt_height d) = false /\ JS.isNaN (pt_delivery d) = false)
         (handleSubmit st).
Proof.
  apply Forall_forall. intros d Hd. unfold handleSubmit in Hd.
  apply filter_In in Hd. destruct Hd as [_ Hd].
  apply andb_true_iff in Hd. destruct Hd as [H1 H2].
  now rewrite negb_true_iff in H1, H2.
Qed.

(** X24. Submitting the manual entry form. The readings submitted have
    a height and a delivery other than NaN and are at most as many as the
    rows; a row just added (blank) changes nothing of what is submitted;
    the submission fails with [DeliveryNeedsTwoPoints] exactly when fewer
    than two rows parse; with two or more it succeeds, with the records of
    the delivery validation of the parsed readings. *)
Theorem manual_entry_submission st chart :
  Forall (fun d => JS.isNaN (pt_height d) = false /\ JS.isNaN (pt_delivery d) = false)
         (handleSubmit st) /\
  (List.length (handleSubmit st) <= List.length (es_rows st))%nat /\
  handleSubmit (handleAddRow st) = handleSubmit st /\
  (submitManualEntry st chart = Err DeliveryNeedsTwoPoints <->
   (List.length (handleSubmit st) < 2)%nat) /\
  ((2 <= List.length (handleSubmit st))%nat ->
   exists out, submitManualEntry st chart = Ok out /\
               deliveryData out = expectedRecords chart (handleSubmit st)).
Proof.
  split; [apply handleSubmit_numbers|].
  split; [unfold handleSubmit; eapply Nat.le_trans;
          [apply filter_length_le|now rewrite length_map]|].
  split.
  { unfold handleSubmit, handleAddRow. cbn [es_rows].
    rewrite map_app, filter_app. cbn [map filter row_height row_delivery pt_height].
    change (JS.isNaN (Str.parseFloat "")) with true. cbn [negb andb].
    apply app_nil_r. }
  unfold submitManualEntry, handleManualValidationSubmit.
  destruct (calculateDeliveryValidation_succeeds (handleSubmit st) chart) as [out Hout].
  destruct (List.length (handleSubmit st) <? 2)%nat eqn:E;
    [apply Nat.ltb_lt in E|apply Nat.ltb_ge in E].
  - split; [tauto|]. intros H. lia.
  - split.
    + rewrite Hout. split; [discriminate|]. lia.
    + intros _. exists out. split; [exact Hout|].
      now apply (calculateDeliveryValidation_total (handleSubmit st) chart out).
Qed.

Lemma manual_entry_submission_witness :
  exists out,
    submitManualEntry initialEntryState rampChart = Ok out /\
    List.length (deliveryData out) = 2%nat.
Proof.
  destruct (manual_entry_submission initialEntryState rampChart)
    as (_ & _ & _ & _ & H).
  destruct H as (out & Hout & Hd); [apply Nat.leb_le; vm_compute; reflexivity|].
  exists out. split; [exact Hout|]. rewrite Hd. reflexivity.
Defined.

(* ------------------------------------------------------------------ *)
(** *** Deviation colours *)
(* ------------------------------------------------------------------ *)

Lemma absQ_nonneg q : 0 <= absQ q.
Proof.
  unfold absQ. destruct (JS.Qlt_bool q 0) eqn:E.
  - apply Qlt_bool_iff in E. lra.
  - apply Qlt_bool_false_iff in E. exact E.
Qed.

Lemma absQ_zero q : absQ q == 0 <-> q == 0.
Proof.
  unfold absQ. destruct (JS.Qlt_bool q 0) eqn:E.
  - apply Qlt_bool_iff in E. split; intros H; lra.
  - tauto.
Qed.

Lemma abs_deviationOrZero d :
  finiteDeviation d ->
  exists a, Builtins.abs (deviationOrZero d) = JS.Fin a /\ a == absQ (deviationQ d).
Proof.
  unfold finiteDeviation, deviationOrZero, deviationQ.
  destruct (deviation d) as [[| |q|]|]; try discriminate; intros _.
  - unfold JS.or, JS.truthy. destruct (Qeq_bool q 0) eqn:E; cbn [negb].
    + exists (absQ 0). split; [reflexivity|]. apply Qeq_bool_iff in E.
      change (absQ 0) with 0. symmetry. now apply absQ_zero.
    + exists (absQ q). split; reflexivity.
  - exists (absQ 0). split; reflexivity.
Qed.

Lemma max_fold_Fin l :
  Forall (fun v => JS.isFinite v = true) l ->
  forall a, exists m,
    fold_left Builtins.max2 l (JS.Fin a) = JS.Fin m /\ a <= m /\
    (forall q, In (JS.Fin q) l -> q <= m) /\
    (m = a \/ In (JS.Fin m) l).
Proof.
  induction 1 as [|v l Hv Hl IH]; intros a.
  - exists a. cbn. repeat split; [lra|intros q []|now left].
  - destruct v as [| |b|]; try discriminate. cbn [fold_left].
    unfold Builtins.max2 at 2. cbn [JS.isNaN orb]. unfold JS.ltb.
    destruct (JS.Qlt_bool a b) eqn:E.
    + apply Qlt_bool_iff in E. destruct (IH b) as (m & Hm & Hb & Hall & Hin).
      exists m. split; [exact Hm|]. split; [lra|]. split.
      * intros q [Hq|Hq]; [injection Hq as <-; exact Hb|now apply Hall].
      * right. destruct Hin as [->|Hin]; [now left|now right].
    + apply Qlt_bool_false_iff in E. destruct (IH a) as (m & Hm & Ha & Hall & Hin).
      exists m. split; [exact Hm|]. split; [exact Ha|]. split.
      * intros q [Hq|Hq]; [injection Hq as <-; lra|now apply Hall].
      * destruct Hin as [->|Hin]; [now left|right; now right].
Qed.

Lemma maxAbsDeviation_attained data :
  Forall finiteDeviation data -> data <> [] ->
  exists m, maxAbsDeviation data true = JS.Fin m /\
            (forall d, In d data -> absQ (deviationQ d) <= m) /\
            (exists d, In d data /\ m == absQ (deviationQ d)).
Proof.
  intros Hfin Hne. destruct data as [|d0 data]; [congruence|]. clear Hne.
  unfold maxAbsDeviation, Builtins.max.
  set (f := fun d => Builtins.abs (deviationOrZero d)).
  assert (Hf : forall d, In d (d0 :: data) ->
                         exists a, f d = JS.Fin a /\ a == absQ (deviationQ d)).
  { intros d Hd. apply abs_deviationOrZero. rewrite Forall_forall in Hfin. now apply Hfin. }
  cbn [map fold_left].
  destruct (Hf d0 (or_introl eq_refl)) as (a0 & E0 & Ha0). rewrite E0.
  change (Builtins.max2 JS.NegInf (JS.Fin a0)) with (JS.Fin a0).
  destruct (max_fold_Fin (map f data)) with (a := a0) as (m & Hm & Ha & Hall & Hin).
  { apply Forall_forall. intros v Hv. apply in_map_iff in Hv.
    destruct Hv as (d & <- & Hd). destruct (Hf d (or_intror Hd)) as (a & -> & _).
    reflexivity. }
  exists m. split; [exact Hm|]. split.
  - intros d [<-|Hd].
    + rewrite <- Ha0. exact Ha.
    + destruct (Hf d (or_intror Hd)) as (a & Ea & Hda). rewrite <- Hda.
      apply Hall. rewrite <- Ea. now apply in_map.
  - destruct Hin as [->|Hin].
    + exists d0. split; [now left|exact Ha0].
    + apply in_map_iff in Hin. destruct Hin as (d & Ed & Hd).
      exists d. split; [now right|].
      destruct (Hf d (or_intror Hd)) as (a & Ea & Hda). rewrite Ed in Ea.
      injection Ea as <-. exact Hda.
Qed.

Lemma Qlt_bool_div c a m : 0 < m -> JS.Qlt_bool c (a / m) = JS.Qlt_bool (c * m) a.
Proof.
  intros Hm. apply eq_true_iff_eq. rewrite !Qlt_bool_iff. split; intros H.
  - apply Qmult_lt_r with (z := m) in H; [|exact Hm].
    assert (E : a / m * m == a) by (field; lra). lra.
  - apply Qlt_shift_div_l; assumption.
Qed.

Lemma deviationColor_levels data m row :
  maxAbsDeviation data true = JS.Fin m ->
  finiteDeviation row ->
  absQ (deviationQ row) <= m ->
  deviationColor data true row =
  if Qeq_bool (deviationQ row) 0 then bg_white
  else if JS.Qlt_bool ((3 # 4) * m) (absQ (deviationQ row)) then bg_red_200
  else if JS.Qlt_bool ((1 # 4) * m) (absQ (deviationQ row)) then bg_yellow_100
  else bg_green_100.
Proof.
  intros HM Hfin Hle. unfold deviationColor, finiteDeviation, deviationQ in *.
  destruct (deviation row) as [[| |q|]|]; try discriminate; [|reflexivity].
  rewrite HM. unfold getDeviationColor. unfold JS.seq, JS.zero.
  destruct (Qeq_bool q 0) eqn:E; [reflexivity|]. cbn [orb].
  assert (Hq : ~ q == 0) by (intros H; apply Qeq_bool_iff in H; congruence).
  assert (Hpos : 0 < m).
  { pose proof (absQ_nonneg q). pose proof (absQ_zero q).
    destruct (Qlt_le_dec 0 (absQ q)); [lra|]. exfalso. apply Hq, H0. lra. }
  destruct (Qeq_bool m 0) eqn:E0; [apply Qeq_bool_iff in E0; lra|].
  cbv zeta. change (Builtins.abs (JS.Fin q)) with (JS.Fin (absQ q)).
  unfold JS.div. rewrite E0. unfold JS.gtb, JS.ltb.
  rewrite !Qlt_bool_div by exact Hpos. reflexivity.
Qed.

(** X25. Colours of the deviation column. In a validated table whose
    deviations are absent or finite: a row is white exactly when its
    deviation is absent or zero; a row of larger absolute deviation never
    has a weaker colour, in the order white, green, yellow, red; and as
    soon as one deviation is not zero, some row is red. *)
Theorem deviation_colours_follow_size data :
  Forall finiteDeviation data ->
  (forall row, In row data ->
     (deviationColor data true row = bg_white <-> deviationQ row == 0)) /\
  (forall r1 r2, In r1 data -> In r2 data ->
     absQ (deviationQ r1) <= absQ (deviationQ r2) ->
     (severity (deviationColor data true r1)
      <= severity (deviationColor data true r2))%nat) /\
  ((exists row, In row data /\ ~ deviationQ row == 0) ->
   exists row, In row data /\ deviationColor data true row = bg_red_200).
Proof.
  intros Hfin. pose proof Hfin as Hall. rewrite Forall_forall in Hall.
  assert (Hlev : forall row, In row data ->
            exists m, (forall d, In d data -> absQ (deviationQ d) <= m) /\
                      (exists d, In d data /\ m == absQ (deviationQ d)) /\
                      forall r, In r data ->
                        deviationColor data true r =
                        if Qeq_bool (deviationQ r) 0 then bg_white
                        else if JS.Qlt_bool ((3 # 4) * m) (absQ (deviationQ r))
                             then bg_red_200
                        else if JS.Qlt_bool ((1 # 4) * m) (absQ (deviationQ r))
                             then bg_yellow_100
                        else bg_green_100).
  { intros row Hrow.
    destruct (maxAbsDeviation_attained data Hfin) as (m & HM & Hle & Hat).
    { intros ->. destruct Hrow. }
    exists m. split; [exact Hle|]. split; [exact Hat|].
    intros r Hr. apply deviationColor_levels; auto. }
  split; [|split].
  - intros row Hrow. destruct (Hlev row Hrow) as (m & _ & _ & Hc).
    rewrite (Hc row Hrow). destruct (Qeq_bool (deviationQ row) 0) eqn:E.
    + apply Qeq_bool_iff in E. tauto.
    + split.
      * destruct (JS.Qlt_bool _ _); [discriminate|].
        destruct (JS.Qlt_bool _ _); discriminate.
      * intros H. apply Qeq_bool_iff in H. congruence.
  - intros r1 r2 H1 H2 Hle. destruct (Hlev r1 H1) as (m & _ & _ & Hc).
    rewrite (Hc r1 H1), (Hc r2 H2).
    destruct (Qeq_bool (deviationQ r1) 0) eqn:E1; [cbn; lia|].
    assert (Hq1 : ~ deviationQ r1 == 0)
      by (intros H; apply Qeq_bool_iff in H; congruence).
    destruct (Qeq_bool (deviationQ r2) 0) eqn:E2.
    { exfalso. apply Qeq_bool_iff in E2. apply Hq1. apply absQ_zero.
      apply absQ_zero in E2. pose proof (absQ_nonneg (deviationQ r1)). lra. }
    destruct (JS.Qlt_bool ((3 # 4) * m) (absQ (deviationQ r1))) eqn:A1;
      destruct (JS.Qlt_bool ((3 # 4) * m) (absQ (deviationQ r2))) eqn:A2;
      destruct (JS.Qlt_bool ((1 # 4) * m) (absQ (deviationQ r1))) eqn:B1;
      destruct (JS.Qlt_bool ((1 # 4) * m) (absQ (deviationQ r2))) eqn:B2;
      cbn [severity]; try lia; exfalso;
      repeat match goal with
             | H : JS.Qlt_bool _ _ = true |- _ => apply Qlt_bool_iff in H
             | H : JS.Qlt_bool _ _ = false |- _ => apply Qlt_bool_false_iff in H
             end; lra.
  - intros (row & Hrow & Hq). destruct (Hlev row Hrow) as (m & Hle & (d & Hd & Hm) & Hc).
    exists d. split; [exact Hd|]. rewrite (Hc d Hd).
    assert (Hpos : 0 < m).
    { specialize (Hle row Hrow). pose proof (absQ_nonneg (deviationQ row)).
      pose proof (absQ_zero (deviationQ row)).
      destruct (Qlt_le_dec 0 (absQ (deviationQ row))); [lra|]. exfalso. apply Hq, H0. lra. }
    destruct (Qeq_bool (deviationQ d) 0) eqn:E.
    { apply Qeq_bool_iff in E. apply absQ_zero in E. lra. }
    destruct (JS.Qlt_bool ((3 # 4) * m) (absQ (deviationQ d))) eqn:A; [reflexivity|].
    apply Qlt_bool_false_iff in A. lra.
Qed.

Lemma deviation_colours_follow_size_witness :
  Forall finiteDeviation validatedSample /\
  exists row, In row validatedSample /\
              deviationColor validatedSample true row = bg_red_200.
Proof.
  assert (H : Forall finiteDeviation validatedSample)
    by (repeat constructor).
  split; [exact H|].
  destruct (deviation_colours_follow_size validatedSample H) as (_ & _ & Hred).
  apply Hred. eexists. split; [left; reflexivity|]. cbn. intros E. discriminate E.
Defined.
